(** * U.bot orchestration core: planner, blind judge, stability tracker,
      decision engine and the round state machine that drives them.

    The development embeds the TypeScript services of the repository
    (planner.ts, blindJudge.ts, stabilityTracker.ts, decisionEngine.ts,
    orchestrator.ts) as Rocq functions and proves properties of them.

    Conventions of the embedding:
    - a JavaScript string is a [string]: a sequence of code units, each code
      unit held in one byte (exact for text whose code units are below
      U+0100, that is ASCII and Latin-1);
    - array lengths and round numbers are [nat]; integer configuration
      values are [Z]; all other JavaScript numbers are rationals [Q].  The
      services are given in exact arithmetic, which leaves out the
      rounding of each operation to a double; [Float64] is the arithmetic
      of doubles, and [StabilityTracker64] the stability tracker in it;
    - [undefined] and [null] record fields are [option];
    - code that can throw returns [exn + A]; code that also touches the
      host (clock, model call) or the orchestrator's fields threads a state;
    - an awaited promise is its settled outcome: a value or a thrown value;
    - the configuration hooks ([onLog], [onRoundStart], [onRoundComplete],
      [onTerminate]) are recorded as a trace of calls and do not throw;
      [console.error] output is not recorded. *)

From Stdlib Require Import List String Ascii ZArith QArith Qround Lia Lqa Bool Arith.
From Stdlib Require Import DecimalString Permutation Qpower.
Import ListNotations.

Set Warnings "-register-all".

Close Scope Q_scope.
Open Scope list_scope.
Open Scope string_scope.
Open Scope nat_scope.

(* ===================================================================== *)
(** ** The JavaScript runtime pieces the services rely on *)
(* ===================================================================== *)

Module JS.

(** The code unit U+0022. *)
Definition dquote : ascii := "034"%char.
Definition backslash : ascii := "092"%char.

Definition str (c : ascii) : string := String c EmptyString.

(** [String.prototype.toLowerCase] on a code unit below U+0100: the
    letters A-Z, and the letters U+00C0-U+00DE other than the sign U+00D7,
    move up by 32. *)
Definition lower_ascii (c : ascii) : ascii :=
  let n := nat_of_ascii c in
  if ((65 <=? n) && (n <=? 90))
     || ((192 <=? n) && (n <=? 222) && negb (n =? 215))
  then ascii_of_nat (n + 32) else c.

Fixpoint toLowerCase (s : string) : string :=
  match s with
  | EmptyString => EmptyString
  | String c r => String (lower_ascii c) (toLowerCase r)
  end.

(** [haystack.includes(needle)]. *)
Fixpoint includes (haystack needle : string) : bool :=
  prefix needle haystack ||
  match haystack with
  | EmptyString => false
  | String _ r => includes r needle
  end.

(** [s.split(sep)] for a one-code-unit separator: the pieces between
    consecutive separators, empty pieces kept. *)
Fixpoint split (sep : ascii) (s : string) : list string :=
  match s with
  | EmptyString => [EmptyString]
  | String c r =>
      if Ascii.eqb c sep then EmptyString :: split sep r
      else match split sep r with
           | [] => [str c]
           | w :: ws => String c w :: ws
           end
  end.

(** [arr.join(sep)]. *)
Definition join (sep : string) (l : list string) : string := String.concat sep l.

(** [arr.slice(0, n)]. *)
Definition slice0 {A} (n : nat) (l : list A) : list A := firstn n l.

(** [arr.slice(-n)]: the last [n] elements. *)
Definition slice_last {A} (n : nat) (l : list A) : list A :=
  skipn (List.length l - n) l.

(** [str.slice(i, i + n)]. *)
Definition str_slice (i n : nat) (s : string) : string := substring i n s.

(** Decimal rendering of an integer, as in a template literal. *)
Definition of_Z (z : Z) : string := NilZero.string_of_int (Z.to_int z).
Definition of_nat (n : nat) : string := of_Z (Z.of_nat n).

(** Thrown values.  [JsError name message] is an [Error] object; [Thrown s]
    is any other thrown value, kept by its string rendering. *)
Inductive exn : Type :=
| JsError (name message : string)
| Thrown (rendering : string).

(** [String(error)], i.e. [Error.prototype.toString]. *)
Definition String_of_exn (e : exn) : string :=
  match e with
  | JsError name message =>
      match name, message with
      | _, EmptyString => name
      | EmptyString, _ => message
      | _, _ => name ++ ": " ++ message
      end
  | Thrown s => s
  end.

Definition Error (message : string) : exn := JsError "Error" message.

(** The [TypeError] of reading a property of [null]. *)
Definition TypeError_null (prop : string) : exn :=
  JsError "TypeError"
    ("Cannot read properties of null (reading '" ++ prop ++ "')").

(** Values produced by [JSON.parse]. *)
Inductive JSON : Type :=
| JNull
| JBool (b : bool)
| JNumber (q : Q)
| JString (s : string)
| JArray (l : list JSON)
| JObject (members : list (string * JSON)).

(** Own property lookup on a parsed object: with a repeated key the last
    member wins. *)
Fixpoint lookup (k : string) (members : list (string * JSON)) : option JSON :=
  match members with
  | [] => None
  | (k', v) :: r =>
      match lookup k r with
      | Some w => Some w
      | None => if String.eqb k k' then Some v else None
      end
  end.

(** [v.k] for the keys the parsers read (none of them is a property of a
    primitive or of an array): [None] is [undefined]; reading a property
    of [null] throws. *)
Definition get (v : JSON) (k : string) : exn + option JSON :=
  match v with
  | JNull => inl (TypeError_null k)
  | JObject members => inr (lookup k members)
  | _ => inr None
  end.

(** Truthiness of [v || d] where [v] may be [undefined]. *)
Definition truthy (v : option JSON) : bool :=
  match v with
  | None | Some JNull => false
  | Some (JBool b) => b
  | Some (JNumber q) => negb (Qeq_bool q 0)
  | Some (JString s) => negb (String.eqb s EmptyString)
  | Some (JArray _) | Some (JObject _) => true
  end.

Definition isArray (v : option JSON) : option (list JSON) :=
  match v with Some (JArray l) => Some l | _ => None end.

(** [arr.filter(item => typeof item === 'string')]. *)
Fixpoint filter_strings (l : list JSON) : list string :=
  match l with
  | [] => []
  | JString s :: r => s :: filter_strings r
  | _ :: r => filter_strings r
  end.

(** *** [JSON.stringify] of strings *)

Definition hex_digit (n : nat) : ascii :=
  if n <? 10 then ascii_of_nat (48 + n) else ascii_of_nat (87 + n).

Definition escape_char (c : ascii) : string :=
  let n := nat_of_ascii c in
  if Ascii.eqb c dquote then String backslash (str dquote)
  else if Ascii.eqb c backslash then String backslash (str backslash)
  else if n =? 8 then String backslash "b"
  else if n =? 9 then String backslash "t"
  else if n =? 10 then String backslash "n"
  else if n =? 12 then String backslash "f"
  else if n =? 13 then String backslash "r"
  else if n <? 32 then
    String backslash ("u00" ++ str (hex_digit (n / 16)) ++ str (hex_digit (n mod 16)))
  else str c.

Fixpoint escape (s : string) : string :=
  match s with
  | EmptyString => EmptyString
  | String c r => escape_char c ++ escape r
  end.

Definition quote (s : string) : string := str dquote ++ escape s ++ str dquote.

Definition stringify_strings (l : list string) : string :=
  "[" ++ join "," (map quote l) ++ "]".

(** *** [Date.prototype.toISOString] for a time value in milliseconds *)

Fixpoint zeros (n : nat) : string :=
  match n with
  | O => EmptyString
  | S k => String "0" (zeros k)
  end.

Definition pad (width : nat) (s : string) : string :=
  zeros (width - String.length s) ++ s.

Definition pad_Z (width : nat) (z : Z) : string := pad width (of_Z z).

Definition toISOString (t : Z) : string :=
  let days := (t / 86400000)%Z in
  let ms_of_day := (t mod 86400000)%Z in
  let z := (days + 719468)%Z in
  let era := (z / 146097)%Z in
  let doe := (z - era * 146097)%Z in
  let yoe := ((doe - doe / 1460 + doe / 36524 - doe / 146096) / 365)%Z in
  let doy := (doe - (365 * yoe + yoe / 4 - yoe / 100))%Z in
  let mp := ((5 * doy + 2) / 153)%Z in
  let d := (doy - (153 * mp + 2) / 5 + 1)%Z in
  let m := (if (mp <? 10)%Z then mp + 3 else mp - 9)%Z in
  let y := (yoe + era * 400 + (if (m <=? 2)%Z then 1 else 0))%Z in
  let year :=
    if ((0 <=? y) && (y <=? 9999))%Z then pad_Z 4 y
    else if (y <? 0)%Z then "-" ++ pad_Z 6 (- y) else "+" ++ pad_Z 6 y in
  year ++ "-" ++ pad_Z 2 m ++ "-" ++ pad_Z 2 d ++ "T"
    ++ pad_Z 2 (ms_of_day / 3600000) ++ ":"
    ++ pad_Z 2 (ms_of_day / 60000 mod 60) ++ ":"
    ++ pad_Z 2 (ms_of_day / 1000 mod 60) ++ "."
    ++ pad_Z 3 (ms_of_day mod 1000) ++ "Z".

(** *** The match of [/\{[\s\S]*\}/]

    The engine tries start positions from the left; at a [{] the greedy
    [[\s\S]*] takes everything and backtracks to the last [}]. *)

(** Longest prefix of [s] that ends in [}], if [s] contains one. *)
Fixpoint greedy_to_close (s : string) : option string :=
  match s with
  | EmptyString => None
  | String c r =>
      match greedy_to_close r with
      | Some m => Some (String c m)
      | None => if Ascii.eqb c "}" then Some (str c) else None
      end
  end.

Fixpoint match_braces (s : string) : option string :=
  match s with
  | EmptyString => None
  | String c r =>
      if Ascii.eqb c "{" then
        match greedy_to_close r with
        | Some m => Some (String c m)
        | None => match_braces r
        end
      else match_braces r
  end.

End JS.

(* ===================================================================== *)
(** ** A [Set] of strings: insertion order kept, no duplicates *)
(* ===================================================================== *)

Module StrSet.

Definition t := list string.

Definition has (s : t) (x : string) : bool := existsb (String.eqb x) s.

Definition add (s : t) (x : string) : t := if has s x then s else (s ++ [x])%list.

(** [new Set(iterable)]. *)
Definition of_list (l : list string) : t := fold_left add l [].

Definition size (s : t) : nat := List.length s.

End StrSet.

(* ===================================================================== *)
(** ** Rational numbers standing for JavaScript numbers *)
(* ===================================================================== *)

Module Num.

Definition geb (x y : Q) : bool := Qle_bool y x.
Definition ltb (x y : Q) : bool := negb (Qle_bool y x).
Definition gtb (x y : Q) : bool := ltb y x.

Definition of_nat (n : nat) : Q := inject_Z (Z.of_nat n).

(** [Math.min(x, y)]. *)
Definition min (x y : Q) : Q := if Qle_bool x y then x else y.

(** [Math.round(x)]: the nearest integer, halves rounded up.  The
    argument is an exact rational here; where the rounding of doubles
    decides the result, [Float64] below is the arithmetic to use. *)
Definition round (x : Q) : Q := inject_Z (Qfloor (x + (1 # 2))%Q).

End Num.

(* ===================================================================== *)
(** ** IEEE 754 double precision (binary64) *)
(* ===================================================================== *)

(** A finite double is the rational it denotes.  Every arithmetic
    operation of JavaScript on numbers is the exact operation followed by
    rounding to the nearest double, ties to the even significand: 53
    significant bits, exponents down to the subnormal spacing 2^-1074.
    Not represented: the sign of zero, and the infinities and NaN.  The
    stability tracker cannot produce them (its operands are array and
    string lengths, the literals of the source and results in [0, 128);
    no divisor is zero); a value at or above [2^1024] stands for an
    infinity where a number is read from JSON text. *)
Module Float64.

(** The nearest integer, ties to even. *)
Definition rne (q : Q) : Z :=
  let f := Qfloor q in
  match Qcompare (q - inject_Z f) (1 # 2) with
  | Lt => f
  | Gt => (f + 1)%Z
  | Eq => if Z.even f then f else (f + 1)%Z
  end.

(** For [q > 0], the [i] with [2^i <= q < 2^(i+1)]. *)
Definition ilog2 (q : Q) : Z :=
  let i := (Z.log2 (Qnum q) - Z.log2 (Z.pos (Qden q)) - 1)%Z in
  if Qle_bool (2 ^ (i + 1)) q then (i + 1)%Z else i.

Definition emin : Z := (-1074)%Z.

(** The exponent of the last place of the double nearest to [q > 0]. *)
Definition exponent (q : Q) : Z := Z.max (ilog2 q - 52) emin.

Definition round_pos (q : Q) : Q :=
  let e := exponent q in (inject_Z (rne (q / 2 ^ e)) * 2 ^ e)%Q.

(** The double nearest to [q]. *)
Definition fl (q : Q) : Q :=
  Qred match Qcompare q 0 with
       | Eq => 0%Q
       | Gt => round_pos q
       | Lt => (- round_pos (- q))%Q
       end.

Definition add (x y : Q) : Q := fl (x + y).
Definition sub (x y : Q) : Q := fl (x - y).
Definition mul (x y : Q) : Q := fl (x * y).
Definition div (x y : Q) : Q := fl (x / y).

(** The number that a length is, and the number that a decimal literal of
    the source denotes. *)
Definition of_Z (z : Z) : Q := fl (inject_Z z).
Definition of_nat (n : nat) : Q := of_Z (Z.of_nat n).
Definition lit (q : Q) : Q := fl q.

(** [Math.min(x, y)], [x > y]. *)
Definition min (x y : Q) : Q := if Qle_bool x y then x else y.
Definition gtb (x y : Q) : bool := negb (Qle_bool x y).

(** [Math.round(x)]: the integer nearest to [x], halves rounded up; the
    result is exact. *)
Definition round (x : Q) : Q := inject_Z (Qfloor (x + (1 # 2))%Q).

End Float64.

(* ===================================================================== *)
(** ** Data model (types/index.ts) *)
(* ===================================================================== *)

Inductive RoundPhase : Type := ARCHITECT | REFINER.

Module VsPrevious.
Inductive t : Type := better | same | worse.
Definition name (v : t) : string :=
  match v with better => "better" | same => "same" | worse => "worse" end.
End VsPrevious.

Module VsGoal.
Inductive t : Type := closer | same | farther.
Definition name (v : t) : string :=
  match v with closer => "closer" | same => "same" | farther => "farther" end.
Definition eqb (a b : t) : bool :=
  match a, b with
  | closer, closer | same, same | farther, farther => true
  | _, _ => false
  end.
End VsGoal.

Module BlindEvaluation.
Record t : Type := {
  vs_previous : VsPrevious.t;
  vs_goal : VsGoal.t;
  contradictions : list string;
  missing : list string;
  risks : list string
}.
End BlindEvaluation.

Module StabilityMetrics.
Record t : Type := {
  contradiction_ratio : Q;
  decision_reuse_rate : Q;
  plan_similarity : Q;
  goal_convergence : Q;
  overall_stability : Q
}.
End StabilityMetrics.

Inductive TerminationReason : Type :=
| stability_achieved
| max_rounds_reached
| contradiction_trend_up
| goal_diverging
| task_complete
| continue.

Module TerminationDecision.
Record t : Type := {
  should_terminate : bool;
  reason : TerminationReason;
  confidence : Q
}.
End TerminationDecision.

Module Priority.
Inductive t : Type := high | medium | low.
Definition name (p : t) : string :=
  match p with high => "high" | medium => "medium" | low => "low" end.
End Priority.

Module Status.
Inductive t : Type := pending | in_progress | completed.
Definition name (s : t) : string :=
  match s with
  | pending => "pending" | in_progress => "in_progress" | completed => "completed"
  end.
End Status.

Module PlanTask.
Record t : Type := {
  id : string;
  description : string;
  priority : Priority.t;
  status : Status.t;
  dependencies : list string
}.
End PlanTask.

Module Plan.
(** [created_at] is the time value of the [Date], in milliseconds. *)
Record t : Type := {
  id : string;
  goals : list string;
  tasks : list PlanTask.t;
  constraints : list string;
  created_at : Z
}.
End Plan.

Module LockedStructure.
Record t : Type := {
  goals : list string;
  core_decisions : list string;
  locked_at_round : nat
}.
End LockedStructure.

Module RoundState.
Record t : Type := {
  number : nat;
  phase : RoundPhase;
  plan : option Plan.t;
  evaluation : option BlindEvaluation.t;
  stability : option StabilityMetrics.t;
  locked_structure : option LockedStructure.t
}.
End RoundState.

Module ExecutionResult.
Record t : Type := {
  success : bool;
  output : string;
  round : nat;
  stability : Q;
  terminated : bool;
  termination_reason : option TerminationReason
}.
End ExecutionResult.

(* ===================================================================== *)
(** ** The host: runtime built-ins and the injected model function *)
(* ===================================================================== *)

(** [World] is whatever the host keeps between calls (the provider's
    connection, the clock).  [callModel] is the injected
    [aiProvider : (prompt) => Promise<string>]: it resolves with a text or
    rejects with a thrown value.  [JSON_parse] returns the parsed value or
    the [SyntaxError] it throws. *)
Class Host : Type := {
  World : Type;
  callModel : string -> World -> (JS.exn + string) * World;
  Date_now : World -> Z * World;
  JSON_parse : string -> JS.exn + JS.JSON;
  Number_toString : Q -> string
}.

(** *** Records passed between the services *)

Module PlannerInput.
(** The optional [constraints] field is never supplied by the orchestrator. *)
Record t : Type := {
  goal : string;
  context : string;
  previousPlan : option Plan.t;
  lockedStructure : option LockedStructure.t;
  phase : RoundPhase
}.
End PlannerInput.

Module BlindJudgeInput.
Record t : Type := {
  currentPlan : Plan.t;
  previousPlan : option Plan.t;
  goal : string;
  lockedStructure : option LockedStructure.t
}.
End BlindJudgeInput.

Module RoundResult.
Record t : Type := {
  round : nat;
  plan : Plan.t;
  evaluation : BlindEvaluation.t;
  stability : StabilityMetrics.t;
  decision : TerminationDecision.t
}.
End RoundResult.

(** The wording of prompts and of display summaries.  These functions only
    assemble text; they are kept abstract, so every result below holds for
    any wording. *)
Class Wording : Type := {
  createArchitectPrompt : PlannerInput.t -> string;
  refinerPromptText : PlannerInput.t -> LockedStructure.t -> Plan.t -> string;
  createBlindEvaluationPrompt : BlindJudgeInput.t -> string;
  createEvaluationSummary : BlindEvaluation.t -> string;
  stabilityStatusMessage : StabilityMetrics.t -> string;
  getTerminationMessage : TerminationReason -> string;
  createFinalOutput : RoundResult.t -> string
}.

(** *** Computations that read and write a state and may throw *)

Module M.

Definition t (S A : Type) : Type := S -> (JS.exn + A) * S.

Definition ret {S A} (a : A) : t S A := fun s => (inr a, s).

Definition throw {S A} (e : JS.exn) : t S A := fun s => (inl e, s).

Definition bind {S A B} (m : t S A) (k : A -> t S B) : t S B :=
  fun s => match m s with
           | (inr a, s') => k a s'
           | (inl e, s') => (inl e, s')
           end.

(** [try { m } catch (e) { h e }]: the state changes made before the
    throw are kept. *)
Definition catch {S A} (m : t S A) (h : JS.exn -> t S A) : t S A :=
  fun s => match m s with
           | (inr a, s') => (inr a, s')
           | (inl e, s') => h e s'
           end.

Definition lift {S A} (r : JS.exn + A) : t S A := fun s => (r, s).

Definition gets {S A} (f : S -> A) : t S A := fun s => (inr (f s), s).

Definition modify {S} (f : S -> S) : t S unit := fun s => (inr tt, f s).

(** Run a computation on a component of a larger state. *)
Definition zoom {S T A} (get : T -> S) (put : S -> T -> T) (m : t S A) : t T A :=
  fun st => let (r, s') := m (get st) in (r, put s' st).

(** [wp m Q s]: running [m] from [s] ends, by a value or by a throw, in
    an outcome and a state that satisfy [Q]. *)
Definition wp {S A} (m : t S A) (Q : JS.exn + A -> S -> Prop) (s : S) : Prop :=
  Q (fst (m s)) (snd (m s)).

End M.

Declare Scope js_scope.
Delimit Scope js_scope with js.
Notation "x <- m ;; k" := (M.bind m (fun x => k))
  (at level 61, m at next level, right associativity) : js_scope.
Notation "m ;;; k" := (M.bind m (fun _ => k))
  (at level 61, right associativity) : js_scope.

(** Pure code that may throw. *)
Module R.
Definition bind {A B} (r : JS.exn + A) (k : A -> JS.exn + B) : JS.exn + B :=
  match r with inr a => k a | inl e => inl e end.
End R.

Declare Scope res_scope.
Delimit Scope res_scope with res.
Notation "x <~ r ;; k" := (R.bind r (fun x => k))
  (at level 61, r at next level, right associativity) : res_scope.

(* ===================================================================== *)
(** ** Blind judge (blindJudge.ts): the evaluation parser *)
(* ===================================================================== *)

Module BlindJudge.
Section WithHost.
Context {host : Host}.

(** [validateComparison(value, valid)]: [value] when it is a string that
    names a member of [valid], else [valid[1]]. *)
Definition validateComparison {T : Type} (name : T -> string)
    (value : option JS.JSON) (valid : list T) (dflt : T) : T :=
  match value with
  | Some (JS.JString s) =>
      match find (fun v => String.eqb (name v) s) valid with
      | Some v => v
      | None => nth 1 valid dflt
      end
  | _ => nth 1 valid dflt
  end.

Definition validateStringArray (value : option JS.JSON) : list string :=
  match value with
  | Some (JS.JArray l) => JS.slice0 10 (JS.filter_strings l)
  | _ => []
  end.

(** The body of the [try] block. *)
Definition parseBlindEvaluation_try (response : string)
  : JS.exn + BlindEvaluation.t :=
  (match JS.match_braces response with
   | None => inl (JS.Error "No JSON found in response")
   | Some jsonMatch =>
       parsed <~ JSON_parse jsonMatch ;;
       vp <~ JS.get parsed "vs_previous" ;;
       vg <~ JS.get parsed "vs_goal" ;;
       cs <~ JS.get parsed "contradictions" ;;
       ms <~ JS.get parsed "missing" ;;
       rs <~ JS.get parsed "risks" ;;
       inr {| BlindEvaluation.vs_previous :=
                validateComparison VsPrevious.name vp
                  [VsPrevious.better; VsPrevious.same; VsPrevious.worse]
                  VsPrevious.same;
              BlindEvaluation.vs_goal :=
                validateComparison VsGoal.name vg
                  [VsGoal.closer; VsGoal.same; VsGoal.farther] VsGoal.same;
              BlindEvaluation.contradictions := validateStringArray cs;
              BlindEvaluation.missing := validateStringArray ms;
              BlindEvaluation.risks := validateStringArray rs |}
   end)%res.

(** The value returned by the [catch] block. *)
Definition conservative_default : BlindEvaluation.t :=
  {| BlindEvaluation.vs_previous := VsPrevious.same;
     BlindEvaluation.vs_goal := VsGoal.same;
     BlindEvaluation.contradictions := ["Evaluation parsing failed"];
     BlindEvaluation.missing := [];
     BlindEvaluation.risks := ["Unable to properly evaluate plan"] |}.

Definition parseBlindEvaluation (response : string) : BlindEvaluation.t :=
  match parseBlindEvaluation_try response with
  | inr evaluation => evaluation
  | inl _ => conservative_default
  end.

End WithHost.
End BlindJudge.

(* ===================================================================== *)
(** ** Planner (planner.ts): plan parser, locking validation *)
(* ===================================================================== *)

Module Planner.
Section WithHost.
Context {host : Host}.

(** [String(v)] for a parsed JSON value.  An array is the join of its
    elements, [null] elements as the empty text.  A parsed object inherits
    [Object.prototype.toString] and gives "[object Object]", unless it has
    a member [toString] of its own: that member is no function, the
    inherited [valueOf] returns the object itself, and the conversion
    throws a [TypeError]. *)
Fixpoint String_of (v : JS.JSON) : JS.exn + string :=
  match v with
  | JS.JNull => inr "null"
  | JS.JBool true => inr "true"
  | JS.JBool false => inr "false"
  | JS.JNumber q => inr (Number_toString q)
  | JS.JString s => inr s
  | JS.JArray l =>
      match
        (fix elements (l : list JS.JSON) : JS.exn + list string :=
           match l with
           | [] => inr []
           | e :: rest =>
               match match e with JS.JNull => inr EmptyString | _ => String_of e end with
               | inl error => inl error
               | inr s =>
                   match elements rest with
                   | inl error => inl error
                   | inr ss => inr (s :: ss)
                   end
               end
           end) l
      with
      | inl error => inl error
      | inr pieces => inr (JS.join "," pieces)
      end
  | JS.JObject members =>
      match JS.lookup "toString" members with
      | Some _ => inl (JS.JsError "TypeError" "Cannot convert object to primitive value")
      | None => inr "[object Object]"
      end
  end.

Definition validateStringArray (value : option JS.JSON) : list string :=
  match value with
  | Some (JS.JArray l) => JS.filter_strings l
  | _ => []
  end.

Definition validatePriority (value : option JS.JSON) : Priority.t :=
  match value with
  | Some (JS.JString s) =>
      if String.eqb s "high" then Priority.high
      else if String.eqb s "medium" then Priority.medium
      else if String.eqb s "low" then Priority.low
      else Priority.medium
  | _ => Priority.medium
  end.

(** One call of the [tasks.map] callback. *)
Definition parseTask (index : nat) (task : JS.JSON) : M.t World PlanTask.t :=
  (now <- (fun w => let (n, w') := Date_now w in (inr n, w')) ;;
   d <- M.lift (JS.get task "description") ;;
   description <- M.lift (match d with
                          | Some v => if JS.truthy d then String_of v
                                      else inr "Unknown task"
                          | None => inr "Unknown task"
                          end) ;;
   p <- M.lift (JS.get task "priority") ;;
   deps <- M.lift (JS.get task "dependencies") ;;
   M.ret {| PlanTask.id := "task_" ++ JS.of_nat index ++ "_" ++ JS.of_Z now;
            PlanTask.description := description;
            PlanTask.priority := validatePriority p;
            PlanTask.status := Status.pending;
            PlanTask.dependencies := validateStringArray deps |})%js.

Fixpoint mapTasks (index : nat) (tasks : list JS.JSON)
  : M.t World (list PlanTask.t) :=
  match tasks with
  | [] => M.ret []
  | task :: rest =>
      (t <- parseTask index task ;;
       ts <- mapTasks (S index) rest ;;
       M.ret (t :: ts))%js
  end.

Definition parseTasks (tasks : option JS.JSON) : M.t World (list PlanTask.t) :=
  match tasks with
  | Some (JS.JArray l) => mapTasks 0 l
  | _ => M.ret []
  end.

(** The body of the [try] block of [parsePlanResponse]. *)
Definition parsePlanResponse_try (response : string) : M.t World Plan.t :=
  match JS.match_braces response with
  | None => M.throw (JS.Error "No JSON found in response")
  | Some jsonMatch =>
      (parsed <- M.lift (JSON_parse jsonMatch) ;;
       now <- (fun w => let (n, w') := Date_now w in (inr n, w')) ;;
       gs <- M.lift (JS.get parsed "goals") ;;
       ts <- M.lift (JS.get parsed "tasks") ;;
       tasks <- parseTasks ts ;;
       cs <- M.lift (JS.get parsed "constraints") ;;
       created <- (fun w => let (n, w') := Date_now w in (inr n, w')) ;;
       M.ret {| Plan.id := "plan_" ++ JS.of_Z now;
                Plan.goals := validateStringArray gs;
                Plan.tasks := tasks;
                Plan.constraints := validateStringArray cs;
                Plan.created_at := created |})%js
  end.

(** [parsePlanResponse]: every throw of the body is rethrown as
    [Error(`Plan parsing failed: ${error}`)]. *)
Definition parsePlanResponse (response : string) : M.t World Plan.t :=
  M.catch (parsePlanResponse_try response)
    (fun error => M.throw (JS.Error ("Plan parsing failed: " ++ JS.String_of_exn error))).

(** [createRefinerPrompt]: throws unless both the locked structure and the
    previous plan are present. *)
Definition createRefinerPrompt {wording : Wording} (input : PlannerInput.t)
  : JS.exn + string :=
  match PlannerInput.lockedStructure input, PlannerInput.previousPlan input with
  | Some lockedStructure, Some previousPlan =>
      inr (refinerPromptText input lockedStructure previousPlan)
  | _, _ => inl (JS.Error "Refiner phase requires locked structure and previous plan")
  end.

End WithHost.

(** *** [JSON.stringify(plan)] *)

Definition stringify_task (t : PlanTask.t) : string :=
  "{" ++ JS.quote "id" ++ ":" ++ JS.quote (PlanTask.id t)
  ++ "," ++ JS.quote "description" ++ ":" ++ JS.quote (PlanTask.description t)
  ++ "," ++ JS.quote "priority" ++ ":" ++ JS.quote (Priority.name (PlanTask.priority t))
  ++ "," ++ JS.quote "status" ++ ":" ++ JS.quote (Status.name (PlanTask.status t))
  ++ "," ++ JS.quote "dependencies" ++ ":" ++ JS.stringify_strings (PlanTask.dependencies t)
  ++ "}".

Definition stringify_plan (p : Plan.t) : string :=
  "{" ++ JS.quote "id" ++ ":" ++ JS.quote (Plan.id p)
  ++ "," ++ JS.quote "goals" ++ ":" ++ JS.stringify_strings (Plan.goals p)
  ++ "," ++ JS.quote "tasks" ++ ":"
       ++ "[" ++ JS.join "," (map stringify_task (Plan.tasks p)) ++ "]"
  ++ "," ++ JS.quote "constraints" ++ ":" ++ JS.stringify_strings (Plan.constraints p)
  ++ "," ++ JS.quote "created_at" ++ ":" ++ JS.quote (JS.toISOString (Plan.created_at p))
  ++ "}".

(** *** [validateAgainstLockedStructure] *)

Definition goal_violation (lockedGoal : string) : string :=
  "Locked goal removed: " ++ JS.str JS.dquote ++ lockedGoal ++ JS.str JS.dquote.

Definition decision_violation (decision : string) : string :=
  "Core decision may be violated: " ++ JS.str JS.dquote ++ decision ++ JS.str JS.dquote.

Definition keywords (decision : string) : list string :=
  filter (fun w => 4 <? String.length w) (JS.split " " (JS.toLowerCase decision)).

Definition matchCount (planText : string) (kws : list string) : nat :=
  List.length (filter (fun kw => JS.includes planText kw) kws).

(** First loop: one iteration, [violations] threaded through. *)
Definition check_goal (planGoalsSet : StrSet.t) (violations : list string)
    (lockedGoal : string) : list string :=
  if negb (StrSet.has planGoalsSet (JS.toLowerCase lockedGoal))
  then (violations ++ [goal_violation lockedGoal])%list
  else violations.

(** Second loop: one iteration. *)
Definition check_decision (planText : string) (violations : list string)
    (decision : string) : list string :=
  let kws := keywords decision in
  if Num.ltb (Num.of_nat (matchCount planText kws))
             (Num.of_nat (List.length kws) * 0.5)%Q
  then (violations ++ [decision_violation decision])%list
  else violations.

Record Validation : Type := { valid : bool; violations : list string }.

Definition validateAgainstLockedStructure (plan : Plan.t)
    (lockedStructure : LockedStructure.t) : Validation :=
  let violations := [] in
  let planGoalsSet := StrSet.of_list (map JS.toLowerCase (Plan.goals plan)) in
  let violations :=
    fold_left (check_goal planGoalsSet) (LockedStructure.goals lockedStructure)
      violations in
  let planText := JS.toLowerCase (stringify_plan plan) in
  let violations :=
    fold_left (check_decision planText)
      (LockedStructure.core_decisions lockedStructure) violations in
  {| valid := (List.length violations =? 0); violations := violations |}.

(** [createLockedStructure]. *)
Definition createLockedStructure (plan : Plan.t) (round : nat) : LockedStructure.t :=
  {| LockedStructure.goals := Plan.goals plan;
     LockedStructure.core_decisions := Plan.constraints plan;
     LockedStructure.locked_at_round := round |}.

End Planner.

(* ===================================================================== *)
(** ** Stability tracker (stabilityTracker.ts) *)
(* ===================================================================== *)

(** The tracker in exact arithmetic.  [StabilityTracker64] further down
    is the same code in double precision, operation by operation. *)
Module StabilityTracker.

Record Weights : Type := {
  contradictionRatio : Q;
  decisionReuseRate : Q;
  planSimilarity : Q;
  goalConvergence : Q
}.

Record StabilityConfig : Type := {
  autoTerminateThreshold : Q;
  warningThreshold : Q;
  weights : Weights
}.

Definition defaultConfig : StabilityConfig :=
  {| autoTerminateThreshold := 0.85;
     warningThreshold := 0.70;
     weights := {| contradictionRatio := 0.30;
                   decisionReuseRate := 0.25;
                   planSimilarity := 0.25;
                   goalConvergence := 0.20 |} |}.

(** *** Bigram (Dice) similarity of two strings *)

(** A [Map<string, number>] in insertion order. *)
Definition Bigrams := list (string * nat).

Fixpoint bigrams_get (m : Bigrams) (k : string) : option nat :=
  match m with
  | [] => None
  | (k', n) :: r => if String.eqb k k' then Some n else bigrams_get r k
  end.

Fixpoint bigrams_set (m : Bigrams) (k : string) (n : nat) : Bigrams :=
  match m with
  | [] => [(k, n)]
  | (k', n') :: r =>
      if String.eqb k k' then (k', n) :: r else (k', n') :: bigrams_set r k n
  end.

Definition or_zero (o : option nat) : nat :=
  match o with Some n => n | None => 0 end.

(** The [for] loop of [getBigrams], from index [i], [count] iterations. *)
Fixpoint getBigrams_loop (s : string) (i count : nat) (bigrams : Bigrams) : Bigrams :=
  match count with
  | O => bigrams
  | S c =>
      let bigram := JS.str_slice i 2 s in
      getBigrams_loop s (S i) c
        (bigrams_set bigrams bigram (or_zero (bigrams_get bigrams bigram) + 1))
  end.

Definition getBigrams (s : string) : Bigrams :=
  getBigrams_loop s 0 (String.length s - 1) [].

Definition intersectionSize (bigrams1 bigrams2 : Bigrams) : nat :=
  fold_left
    (fun acc (entry : string * nat) =>
       acc + Nat.min (snd entry) (or_zero (bigrams_get bigrams2 (fst entry))))
    bigrams1 0.

Definition calculateStringSimilarity (str1 str2 : string) : Q :=
  let s1 := JS.toLowerCase str1 in
  let s2 := JS.toLowerCase str2 in
  if String.eqb s1 s2 then 1%Q
  else if (String.length s1 <? 2) || (String.length s2 <? 2) then 0%Q
  else
    (Num.of_nat (2 * intersectionSize (getBigrams s1) (getBigrams s2))
     / Num.of_nat (String.length s1 + String.length s2 - 2))%Q.

(** *** Jaccard similarity of two sets *)

Definition calculateSetSimilarity (setA setB : StrSet.t) : Q :=
  if (StrSet.size setA =? 0) && (StrSet.size setB =? 0) then 1%Q
  else if (StrSet.size setA =? 0) || (StrSet.size setB =? 0) then 0%Q
  else
    let intersection := StrSet.of_list (filter (StrSet.has setB) setA) in
    let union := StrSet.of_list (setA ++ setB)%list in
    (Num.of_nat (StrSet.size intersection) / Num.of_nat (StrSet.size union))%Q.

(** *** The four signals *)

Definition decisions (p : Plan.t) : list string :=
  (Plan.goals p ++ Plan.constraints p
   ++ map (fun t => JS.toLowerCase (PlanTask.description t)) (Plan.tasks p))%list.

Definition reused (previousDecisions : StrSet.t) (decision : string) : bool :=
  existsb
    (fun prevDecision =>
       Num.gtb (calculateStringSimilarity decision prevDecision) 0.7)
    previousDecisions.

Definition calculateDecisionReuseRate (currentPlan previousPlan : option Plan.t) : Q :=
  match currentPlan, previousPlan with
  | Some currentPlan, Some previousPlan =>
      let previousDecisions := StrSet.of_list (decisions previousPlan) in
      let currentDecisions := decisions currentPlan in
      if List.length currentDecisions =? 0 then 0%Q
      else
        let reusedCount :=
          fold_left
            (fun count decision =>
               if reused previousDecisions decision then count + 1 else count)
            currentDecisions 0 in
        (Num.of_nat reusedCount / Num.of_nat (List.length currentDecisions))%Q
  | _, _ => 0.5%Q
  end.

Definition taskCountSimilarity (n m : nat) : Q :=
  (1 - inject_Z (Z.abs (Z.of_nat n - Z.of_nat m))
       / Num.of_nat (Nat.max (Nat.max n m) 1))%Q.

Definition calculatePlanSimilarity (currentPlan previousPlan : option Plan.t) : Q :=
  match currentPlan, previousPlan with
  | Some currentPlan, Some previousPlan =>
      let goalSimilarity :=
        calculateSetSimilarity (StrSet.of_list (Plan.goals currentPlan))
                               (StrSet.of_list (Plan.goals previousPlan)) in
      let taskCount :=
        taskCountSimilarity (List.length (Plan.tasks currentPlan))
                            (List.length (Plan.tasks previousPlan)) in
      let constraintSimilarity :=
        calculateSetSimilarity (StrSet.of_list (Plan.constraints currentPlan))
                               (StrSet.of_list (Plan.constraints previousPlan)) in
      let similarities := [goalSimilarity; taskCount; constraintSimilarity] in
      (fold_left Qplus similarities 0 / Num.of_nat (List.length similarities))%Q
  | _, _ => 0.5%Q
  end.

Definition vsGoalMap (v : VsGoal.t) : Q :=
  match v with VsGoal.closer => 1.0 | VsGoal.same => 0.5 | VsGoal.farther => 0.0 end.

Definition vsPreviousMap (v : VsPrevious.t) : Q :=
  match v with
  | VsPrevious.better => 1.0 | VsPrevious.same => 0.5 | VsPrevious.worse => 0.0
  end.

Definition calculateGoalConvergence (evaluation : BlindEvaluation.t) : Q :=
  (vsGoalMap (BlindEvaluation.vs_goal evaluation) * 0.7
   + vsPreviousMap (BlindEvaluation.vs_previous evaluation) * 0.3)%Q.

Definition plan_of (r : option RoundState.t) : option Plan.t :=
  match r with Some r => RoundState.plan r | None => None end.

Definition calculateStability (currentRound : RoundState.t)
    (previousRound : option RoundState.t) (evaluation : BlindEvaluation.t)
    (config : StabilityConfig) : StabilityMetrics.t :=
  let w := weights config in
  let maxExpectedContradictions := 5 in
  let contradictionRatio :=
    Num.min (Num.of_nat (List.length (BlindEvaluation.contradictions evaluation))
             / Num.of_nat maxExpectedContradictions)%Q 1%Q in
  let decisionReuseRate :=
    calculateDecisionReuseRate (RoundState.plan currentRound) (plan_of previousRound) in
  let planSimilarity :=
    calculatePlanSimilarity (RoundState.plan currentRound) (plan_of previousRound) in
  let goalConvergence := calculateGoalConvergence evaluation in
  let overallStability :=
    ((1 - contradictionRatio) * StabilityTracker.contradictionRatio w
     + decisionReuseRate * StabilityTracker.decisionReuseRate w
     + planSimilarity * StabilityTracker.planSimilarity w
     + goalConvergence * StabilityTracker.goalConvergence w)%Q in
  {| StabilityMetrics.contradiction_ratio := contradictionRatio;
     StabilityMetrics.decision_reuse_rate := decisionReuseRate;
     StabilityMetrics.plan_similarity := planSimilarity;
     StabilityMetrics.goal_convergence := goalConvergence;
     StabilityMetrics.overall_stability :=
       (Num.round (overallStability * 100) / 100)%Q |}.

End StabilityTracker.

(* ===================================================================== *)
(** ** Decision engine (decisionEngine.ts) *)
(* ===================================================================== *)

Module DecisionEngine.

Record DecisionEngineConfig : Type := {
  maxRounds : Z;
  stabilityThreshold : Q;
  goalDivergenceLimit : Z
}.

Definition defaultConfig : DecisionEngineConfig :=
  {| maxRounds := 3; stabilityThreshold := 0.85; goalDivergenceLimit := 2 |}.

Record DecisionContext : Type := {
  currentRound : RoundState.t;
  roundHistory : list RoundState.t;
  latestEvaluation : BlindEvaluation.t;
  latestStability : StabilityMetrics.t
}.

(** The backward [for] loop, run over the evaluations last to first. *)
Fixpoint count_farther (backwards : list BlindEvaluation.t) : nat :=
  match backwards with
  | [] => 0
  | e :: r =>
      if VsGoal.eqb (BlindEvaluation.vs_goal e) VsGoal.farther
      then S (count_farther r) else 0
  end.

Definition countConsecutiveGoalDivergence (evaluations : list BlindEvaluation.t) : nat :=
  count_farther (rev evaluations).

(** [round.evaluation?.contradictions.length ?? 0]. *)
Definition contradiction_count (round : RoundState.t) : nat :=
  match RoundState.evaluation round with
  | Some e => List.length (BlindEvaluation.contradictions e)
  | None => 0
  end.

(** The [for ... of recentHistory] loop: the pair [(increasing, prevCount)]
    on exit; the loop stops at the first decrease. *)
Fixpoint trend_loop (recentHistory : list RoundState.t) (prevCount : nat) : bool * nat :=
  match recentHistory with
  | [] => (true, prevCount)
  | round :: rest =>
      let count := contradiction_count round in
      if count <? prevCount then (false, prevCount) else trend_loop rest count
  end.

Definition isContradictionTrendUp (roundHistory : list RoundState.t)
    (currentRound : RoundState.t) : bool :=
  if List.length roundHistory <? 2 then false
  else
    let recentHistory := JS.slice_last 2 roundHistory in
    let currentContradictions := contradiction_count currentRound in
    let (increasing, prevCount) := trend_loop recentHistory 0 in
    increasing && (prevCount <? currentContradictions).

(** [.map(r => r.evaluation).filter(Boolean)]. *)
Fixpoint evaluations_of (rounds : list RoundState.t) : list BlindEvaluation.t :=
  match rounds with
  | [] => []
  | r :: rest =>
      match RoundState.evaluation r with
      | Some e => e :: evaluations_of rest
      | None => evaluations_of rest
      end
  end.

Definition decision (t : bool) (r : TerminationReason) (c : Q) : TerminationDecision.t :=
  {| TerminationDecision.should_terminate := t;
     TerminationDecision.reason := r;
     TerminationDecision.confidence := c |}.

Definition makeTerminationDecision (context : DecisionContext)
    (config : DecisionEngineConfig) : TerminationDecision.t :=
  let latestEvaluation := latestEvaluation context in
  let latestStability := latestStability context in
  if (List.length (BlindEvaluation.missing latestEvaluation) =? 0)
     && (List.length (BlindEvaluation.contradictions latestEvaluation) =? 0)
  then decision true task_complete 0.95
  else if Num.geb (StabilityMetrics.overall_stability latestStability)
                  (stabilityThreshold config)
  then decision true stability_achieved
         (StabilityMetrics.overall_stability latestStability)
  else if (maxRounds config <=? Z.of_nat (RoundState.number (currentRound context)))%Z
  then decision true max_rounds_reached 1.0
  else
    let goalDivergenceCount :=
      countConsecutiveGoalDivergence
        (evaluations_of (roundHistory context ++ [currentRound context])%list) in
    if (goalDivergenceLimit config <=? Z.of_nat goalDivergenceCount)%Z
    then decision true goal_diverging 0.85
    else if isContradictionTrendUp (roundHistory context) (currentRound context)
    then decision true contradiction_trend_up 0.75
    else decision false continue
           (1 - StabilityMetrics.overall_stability latestStability)%Q.

(** [validateTerminationDecision]: the warnings it collects. *)
Definition validateTerminationDecision (d : TerminationDecision.t)
    (context : DecisionContext) : list string :=
  if TerminationDecision.should_terminate d then
    let e := latestEvaluation context in
    ((if Num.ltb (TerminationDecision.confidence d) 0.7
      then ["Low confidence termination - consider manual review"] else [])
     ++ (if (0 <? List.length (BlindEvaluation.missing e))
            && negb (match TerminationDecision.reason d with
                     | max_rounds_reached => true | _ => false end)
         then [(JS.of_nat (List.length (BlindEvaluation.missing e))
                ++ " items still missing")%string] else [])
     ++ (if 0 <? List.length (BlindEvaluation.risks e)
         then [(JS.of_nat (List.length (BlindEvaluation.risks e))
                ++ " risks identified")%string] else []))%list
  else [].

End DecisionEngine.


(* ===================================================================== *)
(** ** Orchestrator (orchestrator.ts) *)
(* ===================================================================== *)

Module Orchestrator.

Record OrchestratorConfig : Type := {
  maxRounds : Z;
  stabilityThreshold : Q
}.

Definition defaultConfig : OrchestratorConfig :=
  {| maxRounds := 3; stabilityThreshold := 0.85 |}.

Record OrchestratorState : Type := {
  currentRound : RoundState.t;
  roundHistory : list RoundState.t;
  goal : string;
  context : string;
  isRunning : bool;
  lastResult : option ExecutionResult.t
}.

Inductive LogType : Type :=
| log_round_start | log_evaluation | log_decision | log_termination | log_error.

(** What the observers saw: every call of a configuration hook, in order.
    The optional [data] payload of a log entry is left out. *)
Inductive HookCall : Type :=
| onLog (type : LogType) (message : string)
| onRoundStart (round : nat)
| onRoundComplete (result : RoundResult.t)
| onTerminate (result : ExecutionResult.t).

Definition createInitialState : OrchestratorState :=
  {| currentRound := {| RoundState.number := 0;
                        RoundState.phase := ARCHITECT;
                        RoundState.plan := None;
                        RoundState.evaluation := None;
                        RoundState.stability := None;
                        RoundState.locked_structure := None |};
     roundHistory := [];
     goal := EmptyString;
     context := EmptyString;
     isRunning := false;
     lastResult := None |}.

(** *** Field assignments *)

Definition set_currentRound (r : RoundState.t) (s : OrchestratorState) :=
  {| currentRound := r; roundHistory := roundHistory s; goal := goal s;
     context := context s; isRunning := isRunning s; lastResult := lastResult s |}.

Definition set_roundHistory (h : list RoundState.t) (s : OrchestratorState) :=
  {| currentRound := currentRound s; roundHistory := h; goal := goal s;
     context := context s; isRunning := isRunning s; lastResult := lastResult s |}.

Definition set_goal (g : string) (s : OrchestratorState) :=
  {| currentRound := currentRound s; roundHistory := roundHistory s; goal := g;
     context := context s; isRunning := isRunning s; lastResult := lastResult s |}.

Definition set_context (c : string) (s : OrchestratorState) :=
  {| currentRound := currentRound s; roundHistory := roundHistory s; goal := goal s;
     context := c; isRunning := isRunning s; lastResult := lastResult s |}.

Definition set_isRunning (b : bool) (s : OrchestratorState) :=
  {| currentRound := currentRound s; roundHistory := roundHistory s; goal := goal s;
     context := context s; isRunning := b; lastResult := lastResult s |}.

Definition set_lastResult (r : option ExecutionResult.t) (s : OrchestratorState) :=
  {| currentRound := currentRound s; roundHistory := roundHistory s; goal := goal s;
     context := context s; isRunning := isRunning s; lastResult := r |}.

Definition set_plan (p : option Plan.t) (r : RoundState.t) : RoundState.t :=
  {| RoundState.number := RoundState.number r; RoundState.phase := RoundState.phase r;
     RoundState.plan := p; RoundState.evaluation := RoundState.evaluation r;
     RoundState.stability := RoundState.stability r;
     RoundState.locked_structure := RoundState.locked_structure r |}.

Definition set_evaluation (e : option BlindEvaluation.t) (r : RoundState.t) : RoundState.t :=
  {| RoundState.number := RoundState.number r; RoundState.phase := RoundState.phase r;
     RoundState.plan := RoundState.plan r; RoundState.evaluation := e;
     RoundState.stability := RoundState.stability r;
     RoundState.locked_structure := RoundState.locked_structure r |}.

Definition set_stability (m : option StabilityMetrics.t) (r : RoundState.t) : RoundState.t :=
  {| RoundState.number := RoundState.number r; RoundState.phase := RoundState.phase r;
     RoundState.plan := RoundState.plan r; RoundState.evaluation := RoundState.evaluation r;
     RoundState.stability := m;
     RoundState.locked_structure := RoundState.locked_structure r |}.

Definition set_locked_structure (l : option LockedStructure.t) (r : RoundState.t)
  : RoundState.t :=
  {| RoundState.number := RoundState.number r; RoundState.phase := RoundState.phase r;
     RoundState.plan := RoundState.plan r; RoundState.evaluation := RoundState.evaluation r;
     RoundState.stability := RoundState.stability r;
     RoundState.locked_structure := l |}.

Definition phase_name (p : RoundPhase) : string :=
  match p with ARCHITECT => "ARCHITECT" | REFINER => "REFINER" end.

(** [arr[arr.length - 1]], [undefined] on the empty array. *)
Definition last_of {A} (l : list A) : option A := nth_error l (List.length l - 1).

Section WithHost.
Context {host : Host} {wording : Wording}.
Variable config : OrchestratorConfig.

(** The orchestrator object during a run: the host's world, the [state]
    field, and the hook calls made so far. *)
Record Run : Type := {
  world : World;
  state : OrchestratorState;
  hooks : list HookCall
}.

Definition Op (A : Type) : Type := M.t Run A.

Definition getState : Op OrchestratorState := M.gets state.

Definition update (f : OrchestratorState -> OrchestratorState) : Op unit :=
  M.modify (fun r => {| world := world r; state := f (state r); hooks := hooks r |}).

Definition update_round (f : RoundState.t -> RoundState.t) : Op unit :=
  update (fun s => set_currentRound (f (currentRound s)) s).

Definition call (h : HookCall) : Op unit :=
  M.modify (fun r => {| world := world r; state := state r;
                        hooks := (hooks r ++ [h])%list |}).

Definition log (type : LogType) (message : string) : Op unit := call (onLog type message).

(** A computation of the host, run on the [world] component. *)
Definition on_world {A} (m : M.t World A) : Op A :=
  M.zoom world (fun w r => {| world := w; state := state r; hooks := hooks r |}) m.

Definition aiProvider (prompt : string) : Op string := on_world (callModel prompt).

(** [startNewRound]. *)
Definition startNewRound : Op unit :=
  update (fun s =>
    let s :=
      if 0 <? RoundState.number (currentRound s)
      then set_roundHistory (roundHistory s ++ [currentRound s])%list s
      else s in
    let newRoundNumber := RoundState.number (currentRound s) + 1 in
    let isFirstRound := newRoundNumber =? 1 in
    set_currentRound
      {| RoundState.number := newRoundNumber;
         RoundState.phase := if isFirstRound then ARCHITECT else REFINER;
         RoundState.plan := None;
         RoundState.evaluation := None;
         RoundState.stability := None;
         RoundState.locked_structure :=
           if isFirstRound then None
           else RoundState.locked_structure (currentRound s) |} s).

(** [generatePlan]. *)
Definition generatePlan : Op Plan.t :=
  (s <- getState ;;
   let currentRound := currentRound s in
   let previousPlan :=
     match last_of (roundHistory s) with
     | Some r => RoundState.plan r
     | None => None
     end in
   let plannerInput :=
     {| PlannerInput.goal := goal s;
        PlannerInput.context := context s;
        PlannerInput.previousPlan := previousPlan;
        PlannerInput.lockedStructure := RoundState.locked_structure currentRound;
        PlannerInput.phase := RoundState.phase currentRound |} in
   prompt <- M.lift (match RoundState.phase currentRound with
                     | ARCHITECT => inr (createArchitectPrompt plannerInput)
                     | REFINER => Planner.createRefinerPrompt plannerInput
                     end) ;;
   response <- aiProvider prompt ;;
   plan <- on_world (Planner.parsePlanResponse response) ;;
   match RoundState.phase currentRound, RoundState.locked_structure currentRound with
   | REFINER, Some locked =>
       let validation := Planner.validateAgainstLockedStructure plan locked in
       if negb (Planner.valid validation)
       then log log_error
              ("Structure violations detected: "
               ++ JS.join ", " (Planner.violations validation))
       else M.ret tt
   | _, _ => M.ret tt
   end ;;;
   M.ret plan)%js.

(** [evaluatePlan]. *)
Definition evaluatePlan (plan : Plan.t) : Op BlindEvaluation.t :=
  (s <- getState ;;
   let previousPlan :=
     match last_of (roundHistory s) with
     | Some r => RoundState.plan r
     | None => None
     end in
   let judgeInput :=
     {| BlindJudgeInput.currentPlan := plan;
        BlindJudgeInput.previousPlan := previousPlan;
        BlindJudgeInput.goal := goal s;
        BlindJudgeInput.lockedStructure :=
          RoundState.locked_structure (currentRound s) |} in
   response <- aiProvider (createBlindEvaluationPrompt judgeInput) ;;
   M.ret (BlindJudge.parseBlindEvaluation response))%js.

(** [executeRound]. *)
Definition executeRound : Op RoundResult.t :=
  (startNewRound ;;;
   s <- getState ;;
   let roundNumber := RoundState.number (currentRound s) in
   call (onRoundStart roundNumber) ;;;
   log log_round_start
     ("Round " ++ JS.of_nat roundNumber ++ " started ("
      ++ phase_name (RoundState.phase (currentRound s)) ++ ")") ;;;
   (* Step 1: generate plan *)
   plan <- generatePlan ;;
   update_round (set_plan (Some plan)) ;;;
   log log_decision
     ("Plan generated with " ++ JS.of_nat (List.length (Plan.tasks plan)) ++ " tasks") ;;;
   (* Step 2: lock structure in round 1 *)
   (if roundNumber =? 1
    then update_round
           (set_locked_structure (Some (Planner.createLockedStructure plan roundNumber))) ;;;
         log log_decision "Structure LOCKED - future rounds can only refine"
    else M.ret tt) ;;;
   (* Step 3: blind evaluation *)
   evaluation <- evaluatePlan plan ;;
   update_round (set_evaluation (Some evaluation)) ;;;
   log log_evaluation (createEvaluationSummary evaluation) ;;;
   (* Step 4: stability *)
   s <- getState ;;
   let previousRound := last_of (roundHistory s) in
   let stability :=
     StabilityTracker.calculateStability (currentRound s) previousRound evaluation
       StabilityTracker.defaultConfig in
   update_round (set_stability (Some stability)) ;;;
   log log_evaluation (stabilityStatusMessage stability) ;;;
   (* Step 5: termination decision *)
   s <- getState ;;
   let decisionContext :=
     {| DecisionEngine.currentRound := currentRound s;
        DecisionEngine.roundHistory := roundHistory s;
        DecisionEngine.latestEvaluation := evaluation;
        DecisionEngine.latestStability := stability |} in
   let decision :=
     DecisionEngine.makeTerminationDecision decisionContext
       {| DecisionEngine.maxRounds := maxRounds config;
          DecisionEngine.stabilityThreshold := stabilityThreshold config;
          DecisionEngine.goalDivergenceLimit := 2 |} in
   let warnings := DecisionEngine.validateTerminationDecision decision decisionContext in
   (if 0 <? List.length warnings
    then log log_decision ("Warnings: " ++ JS.join ", " warnings)
    else M.ret tt) ;;;
   log log_decision (getTerminationMessage (TerminationDecision.reason decision)) ;;;
   let result :=
     {| RoundResult.round := roundNumber;
        RoundResult.plan := plan;
        RoundResult.evaluation := evaluation;
        RoundResult.stability := stability;
        RoundResult.decision := decision |} in
   call (onRoundComplete result) ;;;
   M.ret result)%js.

(** [terminate]. *)
Definition terminate (roundResult : RoundResult.t) : Op ExecutionResult.t :=
  (update (set_isRunning false) ;;;
   let reason := TerminationDecision.reason (RoundResult.decision roundResult) in
   let result :=
     {| ExecutionResult.success :=
          match reason with
          | stability_achieved | task_complete => true
          | _ => false
          end;
        ExecutionResult.output := createFinalOutput roundResult;
        ExecutionResult.round := RoundResult.round roundResult;
        ExecutionResult.stability :=
          StabilityMetrics.overall_stability (RoundResult.stability roundResult);
        ExecutionResult.terminated := true;
        ExecutionResult.termination_reason := Some reason |} in
   update (set_lastResult (Some result)) ;;;
   call (onTerminate result) ;;;
   log log_termination ("Orchestration terminated: " ++ getTerminationMessage reason) ;;;
   M.ret result)%js.

(** The branch after the [while] loop.  Its non-null assertions are erased
    at run time: with a missing plan or stability, building the result
    throws a [TypeError].  (A present plan and stability with an absent
    evaluation is folded into the throwing case; [loop] only enters this
    branch when [isRunning] is false, which [execute] never produces
    without returning.) *)
Definition after_loop : Op ExecutionResult.t :=
  (s <- getState ;;
   let r := currentRound s in
   match RoundState.plan r, RoundState.evaluation r, RoundState.stability r with
   | Some plan, Some evaluation, Some stability =>
       terminate {| RoundResult.round := RoundState.number r;
                    RoundResult.plan := plan;
                    RoundResult.evaluation := evaluation;
                    RoundResult.stability := stability;
                    RoundResult.decision :=
                      DecisionEngine.decision true max_rounds_reached 1.0 |}
   | None, _, _ => M.throw (JS.TypeError_null "goals")
   | _, _, _ => M.throw (JS.TypeError_null "overall_stability")
   end)%js.

(** The [while (this.state.isRunning)] loop, at most [fuel] iterations;
    [None] when the iterations are used up before the loop is left. *)
Fixpoint loop (fuel : nat) : Op (option ExecutionResult.t) :=
  match fuel with
  | O => M.ret None
  | S fuel' =>
      (s <- getState ;;
       if isRunning s then
         roundResult <- executeRound ;;
         if TerminationDecision.should_terminate (RoundResult.decision roundResult)
         then result <- terminate roundResult ;; M.ret (Some result)
         else loop fuel'
       else result <- after_loop ;; M.ret (Some result))%js
  end.

(** The [catch] block of [execute]. *)
Definition on_error (error : JS.exn) : Op (option ExecutionResult.t) :=
  (log log_error ("Orchestration error: " ++ JS.String_of_exn error) ;;;
   s <- getState ;;
   M.ret (Some
     {| ExecutionResult.success := false;
        ExecutionResult.output := "Orchestration failed: " ++ JS.String_of_exn error;
        ExecutionResult.round := RoundState.number (currentRound s);
        ExecutionResult.stability :=
          match RoundState.stability (currentRound s) with
          | Some m => StabilityMetrics.overall_stability m
          | None => 0%Q
          end;
        ExecutionResult.terminated := true;
        ExecutionResult.termination_reason := Some max_rounds_reached |}))%js.

(** [execute(goal, context)]: how the returned promise settles ([inr] is a
    resolved promise; [None] inside it means that [fuel] iterations of the
    loop were not enough), and the orchestrator afterwards. *)
Definition execute (fuel : nat) (goal context : string)
  : Op (option ExecutionResult.t) :=
  (update (fun _ => set_isRunning true (set_context context (set_goal goal createInitialState))) ;;;
   log log_round_start ("Starting orchestration for: " ++ goal) ;;;
   M.catch (loop fuel) on_error)%js.

(** A fresh orchestrator, as built by the constructor. *)
Definition new (w : World) : Run :=
  {| world := w; state := createInitialState; hooks := [] |}.

End WithHost.
End Orchestrator.


(* ===================================================================== *)
(** ** A concrete host, for running the services on examples *)
(* ===================================================================== *)

(** A reader of JSON text standing for [JSON.parse] (ECMA-404 grammar;
    [\u] escapes above U+00FF are outside the byte model and rejected). *)
Module JsonText.

Definition is_ws (c : ascii) : bool :=
  let n := nat_of_ascii c in (n =? 32) || (n =? 9) || (n =? 10) || (n =? 13).

Fixpoint skip_ws (s : string) : string :=
  match s with
  | String c r => if is_ws c then skip_ws r else s
  | EmptyString => s
  end.

Definition is_digit (c : ascii) : bool :=
  let n := nat_of_ascii c in (48 <=? n) && (n <=? 57).

Definition digit_val (c : ascii) : Z := Z.of_nat (nat_of_ascii c - 48).

Definition hex_val (c : ascii) : option nat :=
  let n := nat_of_ascii c in
  if (48 <=? n) && (n <=? 57) then Some (n - 48)
  else if (97 <=? n) && (n <=? 102) then Some (n - 87)
  else if (65 <=? n) && (n <=? 70) then Some (n - 55)
  else None.

(** The characters of a string literal after its opening quote. *)
Fixpoint string_body (s : string) : option (string * string) :=
  match s with
  | EmptyString => None
  | String c r =>
      if Ascii.eqb c JS.dquote then Some (EmptyString, r)
      else if Ascii.eqb c JS.backslash then
        match r with
        | String e r' =>
            let simple (x : ascii) :=
              match string_body r' with
              | Some (body, rest) => Some (String x body, rest)
              | None => None
              end in
            if Ascii.eqb e JS.dquote then simple JS.dquote
            else if Ascii.eqb e JS.backslash then simple JS.backslash
            else if Ascii.eqb e "/" then simple "/"%char
            else if Ascii.eqb e "b" then simple "008"%char
            else if Ascii.eqb e "f" then simple "012"%char
            else if Ascii.eqb e "n" then simple "010"%char
            else if Ascii.eqb e "r" then simple "013"%char
            else if Ascii.eqb e "t" then simple "009"%char
            else if Ascii.eqb e "u" then
              match r' with
              | String h1 (String h2 (String h3 (String h4 r''))) =>
                  match hex_val h1, hex_val h2, hex_val h3, hex_val h4 with
                  | Some 0, Some 0, Some a, Some b =>
                      match string_body r'' with
                      | Some (body, rest) =>
                          Some (String (ascii_of_nat (16 * a + b)) body, rest)
                      | None => None
                      end
                  | _, _, _, _ => None
                  end
              | _ => None
              end
            else None
        | EmptyString => None
        end
      else if nat_of_ascii c <? 32 then None
      else
        match string_body r with
        | Some (body, rest) => Some (String c body, rest)
        | None => None
        end
  end.

(** Leading digits of [s], their value continued from [acc], their count. *)
Fixpoint digits (s : string) (acc : Z) (count : nat) : Z * nat * string :=
  match s with
  | String c r =>
      if is_digit c then digits r (acc * 10 + digit_val c)%Z (S count)
      else (acc, count, s)
  | EmptyString => (acc, count, s)
  end.

Definition starts_with_zero (s : string) : bool :=
  match s with String "0" _ => true | _ => false end.

(** A number of the JSON grammar at the head of [s]: its value is the
    double nearest to the decimal written. *)
Definition number (s : string) : option (Q * string) :=
  let (negative, s1) :=
    match s with String "-" r => (true, r) | _ => (false, s) end in
  let '(int_part, int_count, s2) := digits s1 0%Z 0 in
  if (int_count =? 0) || (starts_with_zero s1 && (1 <? int_count)) then None
  else
    let frac :=
      match s2 with
      | String "." r =>
          let '(f, fc, s3) := digits r 0%Z 0 in
          if fc =? 0 then None else Some (f, fc, s3)
      | _ => Some (0%Z, 0, s2)
      end in
    match frac with
    | None => None
    | Some (f, fc, s3) =>
        let mantissa :=
          (inject_Z (int_part * 10 ^ Z.of_nat fc + f) / inject_Z (10 ^ Z.of_nat fc))%Q in
        let signed := if negative then (- mantissa)%Q else mantissa in
        let has_exp :=
          match s3 with
          | String c r => if (Ascii.eqb c "e" || Ascii.eqb c "E")%bool then Some r else None
          | EmptyString => None
          end in
        match has_exp with
        | None => Some (Float64.fl signed, s3)
        | Some r =>
            let (exp_negative, r1) :=
              match r with
              | String "-" r' => (true, r')
              | String "+" r' => (false, r')
              | _ => (false, r)
              end in
            let '(e, ec, s4) := digits r1 0%Z 0 in
            if ec =? 0 then None
            else
              let scale := inject_Z (10 ^ e) in
              Some (Float64.fl (if exp_negative then signed / scale else signed * scale)%Q,
                    s4)
        end
    end.

Fixpoint value (fuel : nat) (s : string) : option (JS.JSON * string) :=
  match fuel with
  | O => None
  | S f =>
      match skip_ws s with
      | EmptyString => None
      | String c r as s' =>
          if Ascii.eqb c "{" then
            match skip_ws r with
            | String "}" r' => Some (JS.JObject [], r')
            | r' => members f r' []
            end
          else if Ascii.eqb c "[" then
            match skip_ws r with
            | String "]" r' => Some (JS.JArray [], r')
            | r' => elements f r' []
            end
          else if Ascii.eqb c JS.dquote then
            match string_body r with
            | Some (x, r') => Some (JS.JString x, r')
            | None => None
            end
          else if prefix "true" s' then Some (JS.JBool true, substring 4 (String.length s') s')
          else if prefix "false" s' then Some (JS.JBool false, substring 5 (String.length s') s')
          else if prefix "null" s' then Some (JS.JNull, substring 4 (String.length s') s')
          else
            match number s' with
            | Some (q, r') => Some (JS.JNumber q, r')
            | None => None
            end
      end
  end

with elements (fuel : nat) (s : string) (acc : list JS.JSON)
  : option (JS.JSON * string) :=
  match fuel with
  | O => None
  | S f =>
      match value f s with
      | Some (v, r) =>
          match skip_ws r with
          | String "," r' => elements f r' (v :: acc)
          | String "]" r' => Some (JS.JArray (rev (v :: acc)), r')
          | _ => None
          end
      | None => None
      end
  end

with members (fuel : nat) (s : string) (acc : list (string * JS.JSON))
  : option (JS.JSON * string) :=
  match fuel with
  | O => None
  | S f =>
      match skip_ws s with
      | String c r =>
          if Ascii.eqb c JS.dquote then
            match string_body r with
            | Some (key, r1) =>
                match skip_ws r1 with
                | String ":" r2 =>
                    match value f r2 with
                    | Some (v, r3) =>
                        match skip_ws r3 with
                        | String "," r4 => members f r4 ((key, v) :: acc)
                        | String "}" r4 => Some (JS.JObject (rev ((key, v) :: acc)), r4)
                        | _ => None
                        end
                    | None => None
                    end
                | _ => None
                end
            | None => None
            end
          else None
      | EmptyString => None
      end
  end.

Definition parse (text : string) : JS.exn + JS.JSON :=
  match value (2 * String.length text + 2) text with
  | Some (v, rest) =>
      match skip_ws rest with
      | EmptyString => inr v
      | _ => inl (JS.JsError "SyntaxError" "Unexpected non-whitespace character after JSON")
      end
  | None => inl (JS.JsError "SyntaxError" "Unexpected token in JSON")
  end.

(** *** [Number.prototype.toString] of a double

    The digits are the shortest decimal that is read back as the same
    double, the closest to it among the shortest. *)

(** For [x > 0], the [n] with [10^(n-1) <= x < 10^n]. *)
Definition decimal_exponent (x : Q) : Z :=
  let g := (Float64.ilog2 x * 30103 / 100000)%Z in
  if Qle_bool (10 ^ (g + 2)) x then (g + 3)%Z
  else if Qle_bool (10 ^ (g + 1)) x then (g + 2)%Z
  else if Qle_bool (10 ^ g) x then (g + 1)%Z
  else if Qle_bool (10 ^ (g - 1)) x then g
  else (g - 1)%Z.

Definition reads_as (x : Q) (s n k : Z) : bool :=
  Qeq_bool (Float64.fl (inject_Z s * 10 ^ (n - k))) x.

(** The [k]-digit integer [s] for which [s * 10^(n-k)] is read back as
    [x]: of the two such integers around [x], the closer one. *)
Definition digits_of (x : Q) (n k : Z) : option Z :=
  let scale := (10 ^ (n - k))%Q in
  let lo := Qfloor (x / scale) in
  let hi := (lo + 1)%Z in
  let lo_ok := reads_as x lo n k in
  let hi_ok := reads_as x hi n k && (hi <? 10 ^ k)%Z in
  if lo_ok && hi_ok then
    match Qcompare (x - inject_Z lo * scale) (inject_Z hi * scale - x) with
    | Lt => Some lo
    | Gt => Some hi
    | Eq => Some (if Z.even lo then lo else hi)
    end
  else if lo_ok then Some lo
  else if hi_ok then Some hi
  else None.

(** The least number of digits [k], from [k] on, and the digits. *)
Fixpoint shortest (fuel : nat) (x : Q) (n k : Z) : Z * Z :=
  match fuel with
  | O => (Qfloor (x / 10 ^ (n - k)), k)
  | S f =>
      match digits_of x n k with
      | Some s => (s, k)
      | None => shortest f x n (k + 1)
      end
  end.

Definition positive_toString (x : Q) : string :=
  if Qle_bool (2 ^ 1024) x then "Infinity"
  else
    let n0 := decimal_exponent x in
    let '(s, k, n) :=
      if Qeq_bool (Float64.fl (10 ^ n0)) x then (1%Z, 1%Z, (n0 + 1)%Z)
      else let (s, k) := shortest 17 x n0 1 in (s, k, n0) in
    let ds := JS.of_Z s in
    if ((k <=? n) && (n <=? 21))%Z then ds ++ JS.zeros (Z.to_nat (n - k))
    else if ((0 <? n) && (n <=? 21))%Z then
      substring 0 (Z.to_nat n) ds ++ "." ++ substring (Z.to_nat n) (Z.to_nat (k - n)) ds
    else if ((-6 <? n) && (n <=? 0))%Z then "0." ++ JS.zeros (Z.to_nat (- n)) ++ ds
    else
      let e := (n - 1)%Z in
      let exponent := (if (e <? 0)%Z then "-" else "+") ++ JS.of_Z (Z.abs e) in
      if (k =? 1)%Z then ds ++ "e" ++ exponent
      else substring 0 1 ds ++ "." ++ substring 1 (Z.to_nat (k - 1)) ds ++ "e" ++ exponent.

Definition number_toString (x : Q) : string :=
  match Qcompare x 0 with
  | Eq => "0"
  | Gt => positive_toString x
  | Lt => "-" ++ positive_toString (- x)
  end.

End JsonText.

(** A host whose model function replays a script of replies and whose clock
    advances by one millisecond at each reading. *)
Module Scripted.

Record world : Type := {
  clock : Z;
  replies : list (JS.exn + string)
}.

Definition next_reply (prompt : string) (w : world) : (JS.exn + string) * world :=
  match replies w with
  | reply :: rest => (reply, {| clock := clock w; replies := rest |})
  | [] => (inl (JS.Error "no reply"), w)
  end.

Definition read_clock (w : world) : Z * world :=
  (clock w, {| clock := (clock w + 1)%Z; replies := replies w |}).

#[export] Instance host : Host :=
  {| World := world;
     callModel := next_reply;
     Date_now := read_clock;
     JSON_parse := JsonText.parse;
     Number_toString := JsonText.number_toString |}.

(** A wording that names each text and leaves it empty otherwise. *)
#[export] Instance wording : Wording :=
  {| createArchitectPrompt := fun _ => "architect";
     refinerPromptText := fun _ _ _ => "refiner";
     createBlindEvaluationPrompt := fun _ => "judge";
     createEvaluationSummary := fun _ => "evaluation";
     stabilityStatusMessage := fun _ => "stability";
     getTerminationMessage := fun _ => "decision";
     createFinalOutput := fun _ => "final" |}.

End Scripted.

(* ===================================================================== *)
(** ** Blind judge (blindJudge.ts): concerning patterns *)
(* ===================================================================== *)

Module Concerns.

Record BlindJudgeConfig : Type := {
  maxContradictions : Z;
  maxMissing : Z;
  maxRisks : Z
}.

Definition defaultConfig : BlindJudgeConfig :=
  {| maxContradictions := 5; maxMissing := 10; maxRisks := 5 |}.

Inductive Severity : Type := low | medium | high.

Record Concern : Type := { concern : string; severity : Severity }.

(** The checks made on the latest evaluation and the one before it, in the
    order of the [push] calls. *)
Definition concerns_of (latest previous : BlindEvaluation.t)
    (config : BlindJudgeConfig) : list Concern :=
  let n_contradictions := List.length (BlindEvaluation.contradictions latest) in
  let n_missing := List.length (BlindEvaluation.missing latest) in
  let n_risks := List.length (BlindEvaluation.risks latest) in
  ((match BlindEvaluation.vs_previous latest with
    | VsPrevious.worse =>
        [{| concern := "Plan quality is degrading compared to previous iteration";
            severity := medium |}]
    | _ => []
    end)
   ++ (if VsGoal.eqb (BlindEvaluation.vs_goal latest) VsGoal.farther
       then [{| concern := "Plan is moving away from the goal"; severity := high |}]
       else [])
   ++ (if List.length (BlindEvaluation.contradictions previous) <? n_contradictions
       then [{| concern := "Contradictions are increasing"; severity := medium |}]
       else [])
   ++ (if (maxContradictions config <=? Z.of_nat n_contradictions)%Z
       then [{| concern := ("Too many contradictions detected ("
                            ++ JS.of_nat n_contradictions ++ ")")%string;
                severity := high |}]
       else [])
   ++ (if (maxMissing config <=? Z.of_nat n_missing)%Z
       then [{| concern := ("Many elements still missing ("
                            ++ JS.of_nat n_missing ++ ")")%string;
                severity := medium |}]
       else [])
   ++ (if (maxRisks config <=? Z.of_nat n_risks)%Z
       then [{| concern := ("Multiple risks identified ("
                            ++ JS.of_nat n_risks ++ ")")%string;
                severity := medium |}]
       else []))%list.

(** [detectConcerningPatterns]: with fewer than two evaluations nothing is
    reported; otherwise [latest] and [previous] are the last two. *)
Definition detectConcerningPatterns (evaluations : list BlindEvaluation.t)
    (config : BlindJudgeConfig) : list Concern :=
  if List.length evaluations <? 2 then []
  else
    match rev evaluations with
    | latest :: previous :: _ => concerns_of latest previous config
    | _ => []
    end.

End Concerns.

(* ===================================================================== *)
(** ** Stability tracker (stabilityTracker.ts): status for display *)
(* ===================================================================== *)

Module StabilityStatus.
Import StabilityTracker.

Inductive Status : Type := stable | converging | unstable.

(** [shouldAutoTerminate]. *)
Definition shouldAutoTerminate (stability : StabilityMetrics.t)
    (config : StabilityConfig) : bool :=
  Num.geb (StabilityMetrics.overall_stability stability) (autoTerminateThreshold config).

(** The [status] field of [getStabilityStatus]; the [message] field, a
    rendering of the same number, is left out. *)
Definition getStabilityStatus (stability : StabilityMetrics.t)
    (config : StabilityConfig) : Status :=
  let overall_stability := StabilityMetrics.overall_stability stability in
  if Num.geb overall_stability (autoTerminateThreshold config) then stable
  else if Num.geb overall_stability (warningThreshold config) then converging
  else unstable.

End StabilityStatus.

(* ===================================================================== *)
(** ** Stability tracker (stabilityTracker.ts) in double precision *)
(* ===================================================================== *)

(** The numeric functions of the tracker with the arithmetic of the
    program: each operation rounds to a double.  Counting (bigrams, set
    sizes, lengths) is shared with [StabilityTracker], where the same
    functions are given over the exact rationals. *)
Module StabilityTracker64.
Import StabilityTracker.

Definition defaultConfig : StabilityConfig :=
  {| autoTerminateThreshold := Float64.lit 0.85;
     warningThreshold := Float64.lit 0.70;
     weights := {| contradictionRatio := Float64.lit 0.30;
                   decisionReuseRate := Float64.lit 0.25;
                   planSimilarity := Float64.lit 0.25;
                   goalConvergence := Float64.lit 0.20 |} |}.

Definition calculateStringSimilarity (str1 str2 : string) : Q :=
  let s1 := JS.toLowerCase str1 in
  let s2 := JS.toLowerCase str2 in
  if String.eqb s1 s2 then 1%Q
  else if (String.length s1 <? 2) || (String.length s2 <? 2) then 0%Q
  else
    Float64.div
      (Float64.of_nat (2 * intersectionSize (getBigrams s1) (getBigrams s2)))
      (Float64.of_nat (String.length s1 + String.length s2 - 2)).

Definition calculateSetSimilarity (setA setB : StrSet.t) : Q :=
  if (StrSet.size setA =? 0) && (StrSet.size setB =? 0) then 1%Q
  else if (StrSet.size setA =? 0) || (StrSet.size setB =? 0) then 0%Q
  else
    let intersection := StrSet.of_list (filter (StrSet.has setB) setA) in
    let union := StrSet.of_list (setA ++ setB)%list in
    Float64.div (Float64.of_nat (StrSet.size intersection))
                (Float64.of_nat (StrSet.size union)).

Definition reused (previousDecisions : StrSet.t) (decision : string) : bool :=
  existsb
    (fun prevDecision =>
       Float64.gtb (calculateStringSimilarity decision prevDecision) (Float64.lit 0.7))
    previousDecisions.

Definition calculateDecisionReuseRate (currentPlan previousPlan : option Plan.t) : Q :=
  match currentPlan, previousPlan with
  | Some currentPlan, Some previousPlan =>
      let previousDecisions := StrSet.of_list (decisions previousPlan) in
      let currentDecisions := decisions currentPlan in
      if List.length currentDecisions =? 0 then 0%Q
      else
        let reusedCount :=
          fold_left
            (fun count decision =>
               if reused previousDecisions decision then count + 1 else count)
            currentDecisions 0 in
        Float64.div (Float64.of_nat reusedCount)
                    (Float64.of_nat (List.length currentDecisions))
  | _, _ => Float64.lit 0.5
  end.

Definition taskCountSimilarity (n m : nat) : Q :=
  Float64.sub 1
    (Float64.div (Float64.of_Z (Z.abs (Z.of_nat n - Z.of_nat m)))
                 (Float64.of_nat (Nat.max (Nat.max n m) 1))).

Definition calculatePlanSimilarity (currentPlan previousPlan : option Plan.t) : Q :=
  match currentPlan, previousPlan with
  | Some currentPlan, Some previousPlan =>
      let goalSimilarity :=
        calculateSetSimilarity (StrSet.of_list (Plan.goals currentPlan))
                               (StrSet.of_list (Plan.goals previousPlan)) in
      let taskCount :=
        taskCountSimilarity (List.length (Plan.tasks currentPlan))
                            (List.length (Plan.tasks previousPlan)) in
      let constraintSimilarity :=
        calculateSetSimilarity (StrSet.of_list (Plan.constraints currentPlan))
                               (StrSet.of_list (Plan.constraints previousPlan)) in
      let similarities := [goalSimilarity; taskCount; constraintSimilarity] in
      Float64.div (fold_left Float64.add similarities 0%Q)
                  (Float64.of_nat (List.length similarities))
  | _, _ => Float64.lit 0.5
  end.

Definition vsGoalMap (v : VsGoal.t) : Q :=
  match v with
  | VsGoal.closer => Float64.lit 1.0
  | VsGoal.same => Float64.lit 0.5
  | VsGoal.farther => Float64.lit 0.0
  end.

Definition vsPreviousMap (v : VsPrevious.t) : Q :=
  match v with
  | VsPrevious.better => Float64.lit 1.0
  | VsPrevious.same => Float64.lit 0.5
  | VsPrevious.worse => Float64.lit 0.0
  end.

Definition calculateGoalConvergence (evaluation : BlindEvaluation.t) : Q :=
  Float64.add
    (Float64.mul (vsGoalMap (BlindEvaluation.vs_goal evaluation)) (Float64.lit 0.7))
    (Float64.mul (vsPreviousMap (BlindEvaluation.vs_previous evaluation))
                 (Float64.lit 0.3)).

Definition calculateStability (currentRound : RoundState.t)
    (previousRound : option RoundState.t) (evaluation : BlindEvaluation.t)
    (config : StabilityConfig) : StabilityMetrics.t :=
  let w := weights config in
  let maxExpectedContradictions := 5 in
  let contradictionRatio :=
    Float64.min
      (Float64.div
         (Float64.of_nat (List.length (BlindEvaluation.contradictions evaluation)))
         (Float64.of_nat maxExpectedContradictions))
      1%Q in
  let decisionReuseRate :=
    calculateDecisionReuseRate (RoundState.plan currentRound) (plan_of previousRound) in
  let planSimilarity :=
    calculatePlanSimilarity (RoundState.plan currentRound) (plan_of previousRound) in
  let goalConvergence := calculateGoalConvergence evaluation in
  let overallStability :=
    Float64.add
      (Float64.add
         (Float64.add
            (Float64.mul (Float64.sub 1 contradictionRatio)
                         (StabilityTracker.contradictionRatio w))
            (Float64.mul decisionReuseRate (StabilityTracker.decisionReuseRate w)))
         (Float64.mul planSimilarity (StabilityTracker.planSimilarity w)))
      (Float64.mul goalConvergence (StabilityTracker.goalConvergence w)) in
  {| StabilityMetrics.contradiction_ratio := contradictionRatio;
     StabilityMetrics.decision_reuse_rate := decisionReuseRate;
     StabilityMetrics.plan_similarity := planSimilarity;
     StabilityMetrics.goal_convergence := goalConvergence;
     StabilityMetrics.overall_stability :=
       Float64.div (Float64.round (Float64.mul overallStability 100)) 100 |}.

End StabilityTracker64.

(* ===================================================================== *)
(** ** The rules and notions of the specification, in its own words *)
(* ===================================================================== *)

Module Rules.
Import DecisionEngine.

Definition farther (e : BlindEvaluation.t) : Prop :=
  BlindEvaluation.vs_goal e = VsGoal.farther.

(** [n] is the length of the tail of [evaluations] on which [vs_goal] is
    [farther]: the last [n] are, and the one before them (if any) is not. *)
Definition farther_tail (evaluations : list BlindEvaluation.t) (n : nat) : Prop :=
  exists before tail,
    evaluations = (before ++ tail)%list /\ List.length tail = n /\
    Forall farther tail /\
    (forall before' e, before = (before' ++ [e])%list -> ~ farther e).

(** Rule 1. *)
Definition taskComplete (c : DecisionContext) : Prop :=
  BlindEvaluation.missing (latestEvaluation c) = [] /\
  BlindEvaluation.contradictions (latestEvaluation c) = [].

(** Rule 2. *)
Definition stabilityAchieved (c : DecisionContext) (cfg : DecisionEngineConfig) : Prop :=
  (stabilityThreshold cfg <= StabilityMetrics.overall_stability (latestStability c))%Q.

(** Rule 3. *)
Definition maxRoundsReached (c : DecisionContext) (cfg : DecisionEngineConfig) : Prop :=
  (maxRounds cfg <= Z.of_nat (RoundState.number (currentRound c)))%Z.

(** Rule 4. *)
Definition goalDiverging (c : DecisionContext) (cfg : DecisionEngineConfig) : Prop :=
  exists n,
    farther_tail (evaluations_of (roundHistory c ++ [currentRound c])%list) n /\
    (goalDivergenceLimit cfg <= Z.of_nat n)%Z.

(** Rule 5: two archived rounds exist; over the last two, [a] then [b], the
    contradiction counts do not decrease, and the current count is strictly
    greater than that of [b]. *)
Definition contradictionTrendUp (c : DecisionContext) : Prop :=
  exists older a b,
    roundHistory c = (older ++ [a; b])%list /\
    contradiction_count a <= contradiction_count b /\
    contradiction_count b < contradiction_count (currentRound c).

End Rules.

(** *** Numeric notions *)

Module SpecNum.
Definition in01 (q : Q) : Prop := (0 <= q /\ q <= 1)%Q.
(** [y] is [x] rounded to two decimals, halves rounded up. *)
Definition rounded2 (x y : Q) : Prop :=
  exists k : Z, (y == inject_Z k / 100 /\
                 inject_Z k <= x * 100 + (1 # 2) /\ x * 100 + (1 # 2) < inject_Z k + 1)%Q.
End SpecNum.

(** *** Notions used by the statements about the parsers and the validator *)

Module Spec.

(** [c] occurs in [s]. *)
Fixpoint occurs (c : ascii) (s : string) : bool :=
  match s with
  | EmptyString => false
  | String x r => Ascii.eqb x c || occurs c r
  end.

(** The rest of a brace block, read after its opening brace with [depth]
    further braces open: everything up to the brace that closes the block. *)
Fixpoint close_block (depth : nat) (s : string) : option string :=
  match s with
  | EmptyString => None
  | String c r =>
      let continue (d : nat) :=
        match close_block d r with
        | Some b => Some (String c b)
        | None => None
        end in
      if Ascii.eqb c "{" then continue (S depth)
      else if Ascii.eqb c "}" then
        match depth with
        | O => Some (JS.str c)
        | S d => continue d
        end
      else continue depth
  end.

(** The first balanced [{...}] block of a text. *)
Fixpoint first_balanced_block (s : string) : option string :=
  match s with
  | EmptyString => None
  | String c r =>
      if Ascii.eqb c "{" then
        match close_block 0 r with
        | Some b => Some (String c b)
        | None => first_balanced_block r
        end
      else first_balanced_block r
  end.

(** The string entries of a parsed value that is an array; none otherwise. *)
Definition string_entries (v : option JS.JSON) : list string :=
  match v with
  | Some (JS.JArray l) =>
      flat_map (fun e => match e with JS.JString s => [s] | _ => [] end) l
  | _ => []
  end.

(** Equality of strings up to case. *)
Definition same_ignoring_case (a b : string) : bool :=
  String.eqb (JS.toLowerCase a) (JS.toLowerCase b).

(** A locked goal is missing from the goals of a plan. *)
Definition goal_missing (plan : Plan.t) (lockedGoal : string) : bool :=
  negb (existsb (same_ignoring_case lockedGoal) (Plan.goals plan)).

(** [token] appears, up to case, somewhere in the serialized plan. *)
Definition appears (plan : Plan.t) (token : string) : bool :=
  JS.includes (JS.toLowerCase (Planner.stringify_plan plan)) (JS.toLowerCase token).

Definition is_whitespace (c : ascii) : bool :=
  let n := nat_of_ascii c in
  (n =? 32) || (n =? 9) || (n =? 10) || (n =? 11) || (n =? 12) || (n =? 13).

(** Splitting at every white-space character. *)
Fixpoint split_whitespace (s : string) : list string :=
  match s with
  | EmptyString => [EmptyString]
  | String c r =>
      if is_whitespace c then EmptyString :: split_whitespace r
      else match split_whitespace r with
           | [] => [JS.str c]
           | w :: ws => String c w :: ws
           end
  end.

(** Fewer than half of [tokens] of length > 4 appear in the plan. *)
Definition under_half (plan : Plan.t) (tokens : list string) : bool :=
  let long := filter (fun w => 4 <? String.length w) tokens in
  2 * List.length (filter (appears plan) long) <? List.length long.

(** The keyword heuristic as the specification words it: tokens obtained
    by splitting on white space. *)
Definition decision_uncovered_whitespace (plan : Plan.t) (decision : string) : bool :=
  under_half plan (split_whitespace decision).

(** The keyword heuristic with tokens obtained by lower-casing the decision
    and splitting it at every space character U+0020. *)
Definition decision_uncovered (plan : Plan.t) (decision : string) : bool :=
  under_half plan (JS.split " " (JS.toLowerCase decision)).

End Spec.

(** *** Inputs used in the examples below *)

Module Examples.
Import JS.

Definition q (s : string) : string := str dquote ++ s ++ str dquote.

(** [{"goals":["a"]}] *)
Definition plan_block : string := "{" ++ q "goals" ++ ":[" ++ q "a" ++ "]}".

(** [{"goals":["a"]} then {"goals":["b"]}] *)
Definition plan_response : string :=
  plan_block ++ " then {" ++ q "goals" ++ ":[" ++ q "b" ++ "]}".

(** [{"vs_goal":"closer","contradictions":[],"missing":[],"risks":[]}] *)
Definition evaluation_block : string :=
  "{" ++ q "vs_goal" ++ ":" ++ q "closer" ++ "," ++ q "contradictions" ++ ":[],"
  ++ q "missing" ++ ":[]," ++ q "risks" ++ ":[]}".

(** The same, followed by [ (see {notes})]. *)
Definition evaluation_response : string := evaluation_block ++ " (see {notes})".

(** [{"tasks":[null]}] *)
Definition null_task_response : string := "{" ++ q "tasks" ++ ":[null]}".

(** The plan and the evaluation of scenario S4 of the specification. *)
Definition ship_plan : string :=
  "{" ++ q "goals" ++ ":[" ++ q "Ship X" ++ "]," ++ q "tasks" ++ ":[{"
  ++ q "description" ++ ":" ++ q "do X" ++ "," ++ q "priority" ++ ":" ++ q "high"
  ++ "}]," ++ q "constraints" ++ ":[" ++ q "budget" ++ "]}".

Definition farther_evaluation : string :=
  "{" ++ q "vs_previous" ++ ":" ++ q "same" ++ "," ++ q "vs_goal" ++ ":" ++ q "farther"
  ++ "," ++ q "contradictions" ++ ":[]," ++ q "missing" ++ ":[" ++ q "m" ++ "],"
  ++ q "risks" ++ ":[]}".

(** The model answers round 1, then rejects. *)
Definition failing_world : Scripted.world :=
  {| Scripted.clock := 1700000000000;
     Scripted.replies := [inr ship_plan; inr farther_evaluation;
                          inl (JS.Error "boom")] |}.

(** The model answers two rounds. *)
Definition two_round_world : Scripted.world :=
  {| Scripted.clock := 1700000000000;
     Scripted.replies := [inr ship_plan; inr farther_evaluation;
                          inr ship_plan; inr farther_evaluation] |}.

Definition world0 : Scripted.world :=
  {| Scripted.clock := 1700000000000; Scripted.replies := [] |}.

(** A plan whose goals are [alpha] and [bravo]. *)
Definition alpha_bravo_plan : Plan.t :=
  {| Plan.id := "plan_1700000000000";
     Plan.goals := ["alpha"; "bravo"];
     Plan.tasks := [];
     Plan.constraints := [];
     Plan.created_at := 1700000000000 |}.

(** The decision [alpha<TAB>bravo]. *)
Definition tab_decision : string := "alpha" ++ str "009" ++ "bravo".

Definition tab_locked : LockedStructure.t :=
  {| LockedStructure.goals := ["Alpha"];
     LockedStructure.core_decisions := [tab_decision];
     LockedStructure.locked_at_round := 1 |}.

(** *** Decision contexts, one for each rule of the decision engine *)

Definition evaluation_with (vs_goal : VsGoal.t) (contradictions missing : list string)
  : BlindEvaluation.t :=
  {| BlindEvaluation.vs_previous := VsPrevious.same;
     BlindEvaluation.vs_goal := vs_goal;
     BlindEvaluation.contradictions := contradictions;
     BlindEvaluation.missing := missing;
     BlindEvaluation.risks := [] |}.

Definition metrics_with (overall : Q) : StabilityMetrics.t :=
  {| StabilityMetrics.contradiction_ratio := 0.5;
     StabilityMetrics.decision_reuse_rate := 0.5;
     StabilityMetrics.plan_similarity := 0.5;
     StabilityMetrics.goal_convergence := 0.5;
     StabilityMetrics.overall_stability := overall |}.

Definition round_with (number : nat) (evaluation : BlindEvaluation.t) : RoundState.t :=
  {| RoundState.number := number;
     RoundState.phase := if number =? 1 then ARCHITECT else REFINER;
     RoundState.plan := None;
     RoundState.evaluation := Some evaluation;
     RoundState.stability := None;
     RoundState.locked_structure := None |}.

Definition context_with (history : list BlindEvaluation.t)
    (evaluation : BlindEvaluation.t) (overall : Q) : DecisionEngine.DecisionContext :=
  {| DecisionEngine.currentRound := round_with (S (List.length history)) evaluation;
     DecisionEngine.roundHistory :=
       map (fun p => round_with (S (fst p)) (snd p))
           (combine (seq 0 (List.length history)) history);
     DecisionEngine.latestEvaluation := evaluation;
     DecisionEngine.latestStability := metrics_with overall |}.

Definition five_rounds : DecisionEngine.DecisionEngineConfig :=
  {| DecisionEngine.maxRounds := 5;
     DecisionEngine.stabilityThreshold := 0.85;
     DecisionEngine.goalDivergenceLimit := 2 |}.

(** Nothing missing, no contradiction; stable, at the round limit. *)
Definition complete_context : DecisionEngine.DecisionContext :=
  context_with
    [evaluation_with VsGoal.same [] ["m"]; evaluation_with VsGoal.same [] ["m"];
     evaluation_with VsGoal.same [] ["m"]; evaluation_with VsGoal.same [] ["m"]]
    (evaluation_with VsGoal.same [] []) 0.9.

(** Something missing; stable, at the round limit. *)
Definition stable_context : DecisionEngine.DecisionContext :=
  context_with
    [evaluation_with VsGoal.same [] ["m"]; evaluation_with VsGoal.same [] ["m"];
     evaluation_with VsGoal.same [] ["m"]; evaluation_with VsGoal.same [] ["m"]]
    (evaluation_with VsGoal.same [] ["m"]) 0.9.

(** Unstable, at the round limit, diverging. *)
Definition limit_context : DecisionEngine.DecisionContext :=
  context_with
    [evaluation_with VsGoal.same [] ["m"]; evaluation_with VsGoal.same [] ["m"];
     evaluation_with VsGoal.same [] ["m"]; evaluation_with VsGoal.farther [] ["m"]]
    (evaluation_with VsGoal.farther [] ["m"]) 0.5.

(** Unstable, round 3 of 5, farther twice, contradictions growing. *)
Definition diverging_context : DecisionEngine.DecisionContext :=
  context_with
    [evaluation_with VsGoal.same [] ["m"]; evaluation_with VsGoal.farther ["a"] ["m"]]
    (evaluation_with VsGoal.farther ["a"; "b"] ["m"]) 0.5.

(** Unstable, round 3 of 5, not diverging, contradictions 0, 1, then 2. *)
Definition trend_context : DecisionEngine.DecisionContext :=
  context_with
    [evaluation_with VsGoal.same [] ["m"]; evaluation_with VsGoal.same ["a"] ["m"]]
    (evaluation_with VsGoal.same ["a"; "b"] ["m"]) 0.5.

(** Unstable, round 1 of 5. *)
Definition early_context : DecisionEngine.DecisionContext :=
  context_with [] (evaluation_with VsGoal.same ["a"] ["m"]) 0.5.

(** A response with text around the plan. *)
Definition before_text : string := "Here is the plan: ".
Definition body_text : string := q "goals" ++ ":[" ++ q "a" ++ "]".
Definition after_text : string := " Let me know.".

End Examples.

(** *** Notions used by the statements about the orchestrator *)

Module Runs.
Import Orchestrator.

(** The rounds of a run so far: the archived ones, then the current one. *)
Definition rounds (s : OrchestratorState) : list RoundState.t :=
  (roundHistory s ++ [currentRound s])%list.

(** The structure locked from the plan of round 1. *)
Definition locked_from (plan1 : Plan.t) : LockedStructure.t :=
  {| LockedStructure.goals := Plan.goals plan1;
     LockedStructure.core_decisions := Plan.constraints plan1;
     LockedStructure.locked_at_round := 1 |}.

(** Every round after the first is a REFINER round that carries the
    structure locked from the plan of the first round. *)
Definition later_rounds_locked (rs : list RoundState.t) : Prop :=
  forall i r,
    nth_error rs i = Some r -> 1 <= i ->
    RoundState.number r = S i
    /\ RoundState.phase r = REFINER
    /\ exists round1 plan1,
         nth_error rs 0 = Some round1
         /\ RoundState.plan round1 = Some plan1
         /\ RoundState.locked_structure r = Some (locked_from plan1).

(** Number of [onRoundStart] calls among hook calls: the rounds started. *)
Fixpoint rounds_started (calls : list HookCall) : nat :=
  match calls with
  | [] => 0
  | onRoundStart _ :: rest => S (rounds_started rest)
  | _ :: rest => rounds_started rest
  end.

(** Rounds numbered from [i + 1], the first being the ARCHITECT round with
    plan [plan1], all carrying the structure locked from [plan1]. *)
Fixpoint rounds_from (plan1 : Plan.t) (i : nat) (rs : list RoundState.t) : Prop :=
  match rs with
  | [] => True
  | r :: rest =>
      RoundState.number r = S i
      /\ RoundState.phase r = (if i =? 0 then ARCHITECT else REFINER)
      /\ RoundState.locked_structure r = Some (locked_from plan1)
      /\ (i = 0 -> RoundState.plan r = Some plan1)
      /\ rounds_from plan1 (S i) rest
  end.

(** State of the orchestrator at the start of [execute]'s loop. *)
Definition initial (s : OrchestratorState) : Prop :=
  isRunning s = true /\ lastResult s = None
  /\ roundHistory s = [] /\ RoundState.number (currentRound s) = 0.

(** State during a round, and when a round is abandoned by a throw. *)
Definition in_round (s : OrchestratorState) : Prop :=
  isRunning s = true /\ lastResult s = None
  /\ RoundState.number (currentRound s) = S (List.length (roundHistory s))
  /\ (roundHistory s = [] \/ exists plan1, rounds_from plan1 0 (rounds s)).

(** State after a round that ended with a decision. *)
Definition settled (s : OrchestratorState) : Prop :=
  isRunning s = true /\ lastResult s = None
  /\ RoundState.number (currentRound s) = S (List.length (roundHistory s))
  /\ exists plan1, rounds_from plan1 0 (rounds s).

Section WithHost.
Context {host : Host}.

(** [m] leaves the orchestrator's fields alone and starts no round. *)
Definition quiet {A} (m : Op A) : Prop :=
  forall (Q : JS.exn + A -> Run -> Prop) (o : Run),
    (forall r o', state o' = state o ->
                  rounds_started (hooks o') = rounds_started (hooks o) -> Q r o') ->
    M.wp m Q o.

(** What one call of [executeRound] does to the orchestrator [o]: [r] is
    its outcome and [o'] the orchestrator afterwards. *)
Definition round_effect (config : OrchestratorConfig) (o : Run)
    (r : JS.exn + RoundResult.t) (o' : Run) : Prop :=
  let s := state o in
  let s' := state o' in
  let n := RoundState.number (currentRound s) in
  let c' := currentRound s' in
  goal s' = goal s /\ context s' = context s
  /\ isRunning s' = isRunning s /\ lastResult s' = lastResult s
  /\ roundHistory s'
     = (if 0 <? n then (roundHistory s ++ [currentRound s])%list else roundHistory s)
  /\ RoundState.number c' = n + 1
  /\ RoundState.phase c' = (if n + 1 =? 1 then ARCHITECT else REFINER)
  /\ rounds_started (hooks o') = S (rounds_started (hooks o))
  /\ match r with
     | inr result =>
         RoundResult.round result = n + 1
         /\ RoundState.plan c' = Some (RoundResult.plan result)
         /\ RoundState.evaluation c' = Some (RoundResult.evaluation result)
         /\ RoundState.stability c' = Some (RoundResult.stability result)
         /\ RoundState.locked_structure c'
            = (if n + 1 =? 1
               then Some (Planner.createLockedStructure (RoundResult.plan result) (n + 1))
               else RoundState.locked_structure (currentRound s))
         /\ RoundResult.decision result
            = DecisionEngine.makeTerminationDecision
                {| DecisionEngine.currentRound := c';
                   DecisionEngine.roundHistory := roundHistory s';
                   DecisionEngine.latestEvaluation := RoundResult.evaluation result;
                   DecisionEngine.latestStability := RoundResult.stability result |}
                {| DecisionEngine.maxRounds := maxRounds config;
                   DecisionEngine.stabilityThreshold := stabilityThreshold config;
                   DecisionEngine.goalDivergenceLimit := 2 |}
     | inl _ =>
         RoundState.stability c' = None
         /\ ((RoundState.plan c' = None
              /\ RoundState.locked_structure c'
                 = (if n + 1 =? 1 then None
                    else RoundState.locked_structure (currentRound s)))
             \/ (exists plan,
                   RoundState.plan c' = Some plan
                   /\ RoundState.locked_structure c'
                      = (if n + 1 =? 1
                         then Some (Planner.createLockedStructure plan (n + 1))
                         else RoundState.locked_structure (currentRound s))))
     end.

(** The result built by the [catch] block of [execute] for the thrown
    value [e], in a round whose stability was not computed. *)
Definition failure_result (e : JS.exn) (round : nat) : ExecutionResult.t :=
  {| ExecutionResult.success := false;
     ExecutionResult.output := "Orchestration failed: " ++ JS.String_of_exn e;
     ExecutionResult.round := round;
     ExecutionResult.stability := 0%Q;
     ExecutionResult.terminated := true;
     ExecutionResult.termination_reason := Some max_rounds_reached |}.

(** How the [while] loop of [execute], entered with [fuel] iterations on
    the orchestrator [o], can end. *)
Definition loop_outcome (config : OrchestratorConfig) (o : Run) (fuel : nat)
    (r : JS.exn + option ExecutionResult.t) (o' : Run) : Prop :=
  let k := RoundState.number (currentRound (state o)) in
  let n' := RoundState.number (currentRound (state o')) in
  later_rounds_locked (rounds (state o'))
  /\ rounds_started (hooks o') + k = rounds_started (hooks o) + n'
  /\ ((Z.of_nat k < maxRounds config)%Z -> (Z.of_nat n' <= maxRounds config)%Z)
  /\ match r with
     | inr (Some result) =>
         ExecutionResult.round result = n'
         /\ ExecutionResult.terminated result = true
         /\ lastResult (state o') = Some result
         /\ isRunning (state o') = false
     | inr None =>
         (Z.of_nat k < maxRounds config)%Z ->
         (Z.of_nat (fuel + k) < maxRounds config)%Z
     | inl _ =>
         in_round (state o')
         /\ RoundState.stability (currentRound (state o')) = None
     end.

(** How [execute] can end. *)
Definition execute_outcome (config : OrchestratorConfig) (o : Run) (fuel : nat)
    (r : JS.exn + option ExecutionResult.t) (o' : Run) : Prop :=
  let n' := RoundState.number (currentRound (state o')) in
  later_rounds_locked (rounds (state o'))
  /\ rounds_started (hooks o') = rounds_started (hooks o) + n'
  /\ ((0 < maxRounds config)%Z -> (Z.of_nat n' <= maxRounds config)%Z)
  /\ match r with
     | inr (Some result) =>
         ExecutionResult.round result = n'
         /\ ExecutionResult.terminated result = true
         /\ ((lastResult (state o') = Some result /\ isRunning (state o') = false)
             \/ (exists e,
                   result = failure_result e n'
                   /\ lastResult (state o') = None /\ isRunning (state o') = true))
     | inr None =>
         (0 < maxRounds config)%Z -> (Z.of_nat fuel < maxRounds config)%Z
     | inl _ => False
     end.

End WithHost.

End Runs.

(** *** Texts and notions used by the further properties *)

Module Texts.

Definition low_confidence_warning : string :=
  "Low confidence termination - consider manual review".

End Texts.

(** Counting in a bigram map. *)
Module Counts.
Import StabilityTracker.

Definition keys (m : Bigrams) : list string := map fst m.

(** The sum of the counts. *)
Definition total (m : Bigrams) : nat := list_sum (map snd m).

(** The count of [b], 0 when it has no entry. *)
Definition cnt (m : Bigrams) (b : string) : nat := or_zero (bigrams_get m b).

Definition mem (l : list string) (b : string) : bool := existsb (String.eqb b) l.

End Counts.

(** Strings that [JSON.stringify] writes between the quotes unchanged. *)
Module Plain.

(** The code units that [JSON.stringify] escapes: the double quote, the
    backslash and the control characters below U+0020. *)
Definition escaped (c : ascii) : bool :=
  Ascii.eqb c JS.dquote || Ascii.eqb c JS.backslash || (nat_of_ascii c <? 32).

Fixpoint plain (s : string) : bool :=
  match s with
  | EmptyString => true
  | String c r => negb (escaped c) && plain r
  end.

(** [part] occurs in [whole] as a contiguous piece. *)
Definition piece (part whole : string) : Prop :=
  exists before after, whole = before ++ part ++ after.

End Plain.

(** The hook calls of a run of the orchestrator. *)
Module Protocol.
Import Orchestrator.

Definition is_log (c : HookCall) : bool :=
  match c with onLog _ _ => true | _ => false end.

(** The hook calls other than log entries, in order. *)
Definition events (calls : list HookCall) : list HookCall :=
  filter (fun c => negb (is_log c)) calls.

(** The calls of complete rounds: for each round [onRoundStart] with its
    number, then [onRoundComplete] with its result. *)
Definition round_calls (results : list RoundResult.t) : list HookCall :=
  flat_map (fun r => [onRoundStart (RoundResult.round r); onRoundComplete r]) results.

(** The decision of the round is to go on. *)
Definition continues (r : RoundResult.t) : Prop :=
  TerminationDecision.should_terminate (RoundResult.decision r) = false.

(** The stability of a round result comes from the tracker under its
    default configuration, with the last archived round as the previous
    one, and the decision from the engine on that stability and the
    result's evaluation; the round has the number of the result, after as
    many archived rounds as went before it. *)
Definition computed (config : OrchestratorConfig) (r : RoundResult.t) : Prop :=
  exists current evaluated history,
    RoundState.number current = RoundResult.round r
    /\ List.length history + 1 = RoundResult.round r
    /\ RoundResult.stability r
       = StabilityTracker.calculateStability evaluated (last_of history)
           (RoundResult.evaluation r) StabilityTracker.defaultConfig
    /\ RoundResult.decision r
       = DecisionEngine.makeTerminationDecision
           {| DecisionEngine.currentRound := current;
              DecisionEngine.roundHistory := history;
              DecisionEngine.latestEvaluation := RoundResult.evaluation r;
              DecisionEngine.latestStability := RoundResult.stability r |}
           {| DecisionEngine.maxRounds := maxRounds config;
              DecisionEngine.stabilityThreshold := stabilityThreshold config;
              DecisionEngine.goalDivergenceLimit := 2 |}.

Section WithHost.
Context {host : Host} {wording : Wording}.

(** [result] reports the round result [last]. *)
Definition reports (result : ExecutionResult.t) (last : RoundResult.t) : Prop :=
  let reason := TerminationDecision.reason (RoundResult.decision last) in
  ExecutionResult.round result = RoundResult.round last
  /\ ExecutionResult.stability result
     = StabilityMetrics.overall_stability (RoundResult.stability last)
  /\ ExecutionResult.termination_reason result = Some reason
  /\ ExecutionResult.success result
     = match reason with
       | stability_achieved | task_complete => true
       | _ => false
       end
  /\ ExecutionResult.terminated result = true
  /\ ExecutionResult.output result = createFinalOutput last.

(** [m] leaves the orchestrator's fields alone and calls no hook other
    than [onLog]. *)
Definition silent {A} (m : Op A) : Prop :=
  forall (Q : JS.exn + A -> Run -> Prop) (o : Run),
    (forall r o', state o' = state o -> events (hooks o') = events (hooks o) -> Q r o') ->
    M.wp m Q o.

(** The hook calls of one [executeRound], and where its stability comes
    from. *)
Definition round_trace (o : Run) (r : JS.exn + RoundResult.t) (o' : Run) : Prop :=
  let n := RoundState.number (currentRound (state o)) in
  events (hooks o')
  = (events (hooks o)
     ++ onRoundStart (n + 1)
        :: match r with inr result => [onRoundComplete result] | inl _ => [] end)%list
  /\ match r with
     | inr result =>
         exists evaluated,
           RoundResult.stability result
           = StabilityTracker.calculateStability evaluated
               (last_of (roundHistory (state o')))
               (RoundResult.evaluation result) StabilityTracker.defaultConfig
     | inl _ => True
     end.

(** The normal end of a run: the last of [results] decided to terminate,
    [onTerminate] got the result that reports it, and the termination log
    entry is the last hook call. *)
Definition terminated_normally (results : list RoundResult.t) (tail : list HookCall)
    (result : ExecutionResult.t) (o' : Run) : Prop :=
  exists earlier last,
    results = (earlier ++ [last])%list
    /\ Forall continues earlier
    /\ TerminationDecision.should_terminate (RoundResult.decision last) = true
    /\ tail = [onTerminate result]
    /\ reports result last
    /\ exists before,
         hooks o'
         = (before
            ++ [onTerminate result;
                onLog log_termination
                  ("Orchestration terminated: "
                   ++ getTerminationMessage
                        (TerminationDecision.reason (RoundResult.decision last)))])%list.

(** How the [while] loop of [execute] can end, seen from the hooks. *)
Definition loop_protocol (config : OrchestratorConfig) (o : Run) (fuel : nat)
    (r : JS.exn + option ExecutionResult.t) (o' : Run) : Prop :=
  let k := RoundState.number (currentRound (state o)) in
  exists results tail,
    events (hooks o') = (events (hooks o) ++ round_calls results ++ tail)%list
    /\ map RoundResult.round results = seq (k + 1) (List.length results)
    /\ Forall (computed config) results
    /\ match r with
       | inr (Some result) => terminated_normally results tail result o'
       | inr None =>
           Forall continues results /\ tail = [] /\ List.length results = fuel
       | inl _ =>
           Forall continues results
           /\ tail = [onRoundStart (k + List.length results + 1)]
           /\ RoundState.number (currentRound (state o')) = k + List.length results + 1
           /\ RoundState.stability (currentRound (state o')) = None
       end.

(** How [execute] can end, seen from the hooks. *)
Definition execute_protocol (config : OrchestratorConfig) (o : Run) (fuel : nat)
    (r : JS.exn + option ExecutionResult.t) (o' : Run) : Prop :=
  exists results tail,
    events (hooks o') = (events (hooks o) ++ round_calls results ++ tail)%list
    /\ map RoundResult.round results = seq 1 (List.length results)
    /\ Forall (computed config) results
    /\ match r with
       | inr (Some result) =>
           terminated_normally results tail result o'
           \/ (exists e,
                 Forall continues results
                 /\ tail = [onRoundStart (S (List.length results))]
                 /\ result = Runs.failure_result e (S (List.length results))
                 /\ exists before,
                      hooks o'
                      = (before
                         ++ [onLog log_error
                               ("Orchestration error: " ++ JS.String_of_exn e)])%list)
       | inr None =>
           Forall continues results /\ tail = [] /\ List.length results = fuel
       | inl _ => False
       end.

End WithHost.

End Protocol.

(** *** Notions used by the statements about the tracker in double precision *)

Module SpecFloat.

(** The convex combination of the four signals of [m], with the weights
    0.30, 0.25, 0.25 and 0.20 as the decimal numbers they are written as. *)
Definition convex_combination (m : StabilityMetrics.t) : Q :=
  ((1 - StabilityMetrics.contradiction_ratio m) * 0.30
   + StabilityMetrics.decision_reuse_rate m * 0.25
   + StabilityMetrics.plan_similarity m * 0.25
   + StabilityMetrics.goal_convergence m * 0.20)%Q.

(** [y] is the double nearest to [k / 100] for an integer [k] from 0 to
    100 that is a nearest integer of [x * 100] up to [eps]: [x] rounded to
    two decimals, except that within [eps] hundredths of a tie either
    neighbour may be taken. *)
Definition rounded2_within (eps x y : Q) : Prop :=
  exists k : Z,
    (0 <= k <= 100)%Z
    /\ (y == Float64.fl (inject_Z k / 100))%Q
    /\ (inject_Z k - x * 100 <= (1 # 2) + eps)%Q
    /\ (x * 100 - inject_Z k <= (1 # 2) + eps)%Q.

(** The accumulated rounding error allowed for, [2 ^ -40] hundredths. *)
Definition slack : Q := (1 # 1099511627776)%Q.

End SpecFloat.

(** The input of the tie example: the plan repeats the previous goal in
    another case and keeps one of two constraints; the evaluation has five
    contradictions and is [closer] and [better]. *)
Module TieExample.

Definition previous_plan : Plan.t :=
  {| Plan.id := "plan_1700000000000";
     Plan.goals := ["ship"];
     Plan.tasks := [];
     Plan.constraints := ["budget"; "deadline"];
     Plan.created_at := 1700000000000 |}.

Definition current_plan : Plan.t :=
  {| Plan.id := "plan_1700000000001";
     Plan.goals := ["Ship"];
     Plan.tasks := [];
     Plan.constraints := ["budget"];
     Plan.created_at := 1700000000001 |}.

Definition evaluation : BlindEvaluation.t :=
  {| BlindEvaluation.vs_previous := VsPrevious.better;
     BlindEvaluation.vs_goal := VsGoal.closer;
     BlindEvaluation.contradictions := ["c1"; "c2"; "c3"; "c4"; "c5"];
     BlindEvaluation.missing := ["m"];
     BlindEvaluation.risks := [] |}.

Definition previous_round : RoundState.t :=
  {| RoundState.number := 1;
     RoundState.phase := ARCHITECT;
     RoundState.plan := Some previous_plan;
     RoundState.evaluation := None;
     RoundState.stability := None;
     RoundState.locked_structure := None |}.

Definition current_round : RoundState.t :=
  {| RoundState.number := 2;
     RoundState.phase := REFINER;
     RoundState.plan := Some current_plan;
     RoundState.evaluation := Some evaluation;
     RoundState.stability := None;
     RoundState.locked_structure := None |}.

End TieExample.

(* ===================================================================== *)
(** ** Decision engine: priority of the rules, contradiction trend *)
(* ===================================================================== *)

Section DecisionEngineFacts.
Import DecisionEngine.

Lemma count_farther_snoc (l : list BlindEvaluation.t) (e : BlindEvaluation.t) :
  countConsecutiveGoalDivergence (l ++ [e]) =
  if VsGoal.eqb (BlindEvaluation.vs_goal e) VsGoal.farther
  then S (countConsecutiveGoalDivergence l) else 0.
Proof.
  unfold countConsecutiveGoalDivergence. rewrite rev_app_distr. reflexivity.
Qed.

Lemma VsGoal_eqb_farther (e : BlindEvaluation.t) :
  VsGoal.eqb (BlindEvaluation.vs_goal e) VsGoal.farther = true <-> Rules.farther e.
Proof.
  unfold Rules.farther. destruct (BlindEvaluation.vs_goal e); simpl; split;
    intro H; try reflexivity; discriminate H.
Qed.

(** The loop of [countConsecutiveGoalDivergence] computes the farther tail. *)
Lemma countConsecutiveGoalDivergence_tail (l : list BlindEvaluation.t) :
  Rules.farther_tail l (countConsecutiveGoalDivergence l).
Proof.
  induction l as [| e l IH] using rev_ind.
  - exists [], []. repeat split; auto.
    intros [| x b'] e Hb; discriminate Hb.
  - rewrite count_farther_snoc.
    destruct (VsGoal.eqb (BlindEvaluation.vs_goal e) VsGoal.farther) eqn:He.
    + destruct IH as (before & tail & Hl & Hlen & Hall & Hprev).
      exists before, (tail ++ [e])%list. repeat split.
      * rewrite Hl, app_assoc. reflexivity.
      * rewrite length_app, Hlen. simpl. lia.
      * apply Forall_app. split; [exact Hall |].
        constructor; [apply VsGoal_eqb_farther; exact He | constructor].
      * exact Hprev.
    + exists (l ++ [e])%list, []. repeat split.
      * rewrite app_nil_r. reflexivity.
      * constructor.
      * intros before' e' Heq. apply app_inj_tail in Heq. destruct Heq as [_ <-].
        intro Hf. apply VsGoal_eqb_farther in Hf. congruence.
Qed.

(** The farther tail of a list has one length only. *)
Lemma farther_tail_unique (l : list BlindEvaluation.t) (n m : nat) :
  Rules.farther_tail l n -> Rules.farther_tail l m -> n = m.
Proof.
  revert n m. induction l as [| e l IH] using rev_ind; intros n m Hn Hm.
  - destruct Hn as (b1 & t1 & H1 & L1 & _). destruct Hm as (b2 & t2 & H2 & L2 & _).
    symmetry in H1, H2. apply app_eq_nil in H1, H2.
    destruct H1 as [_ ->]. destruct H2 as [_ ->]. simpl in *. congruence.
  - assert (step : forall k, Rules.farther_tail (l ++ [e]) k ->
              (Rules.farther e /\ exists k', k = S k' /\ Rules.farther_tail l k')
              \/ (~ Rules.farther e /\ k = 0)).
    { intros k (b & t & Hl & Hlen & Hall & Hprev).
      destruct t as [| x t'] using rev_ind.
      - right. rewrite app_nil_r in Hl. subst b. split.
        + exact (Hprev l e eq_refl).
        + simpl in Hlen. congruence.
      - clear IHt'. left. rewrite app_assoc in Hl. apply app_inj_tail in Hl.
        destruct Hl as [Hl <-]. apply Forall_app in Hall. destruct Hall as [Ht Hx].
        split; [inversion Hx; assumption |].
        exists (List.length t'). split.
        + rewrite length_app in Hlen. simpl in Hlen. lia.
        + exists b, t'. repeat split; auto. }
    destruct (step n Hn) as [(Fe & n' & -> & Hn') | (NFe & ->)];
      destruct (step m Hm) as [(Fe' & m' & -> & Hm') | (NFe' & ->)];
      try contradiction; try reflexivity.
    f_equal. exact (IH n' m' Hn' Hm').
Qed.

Lemma goalDiverging_iff (c : DecisionContext) (cfg : DecisionEngineConfig) :
  (goalDivergenceLimit cfg <=?
     Z.of_nat (countConsecutiveGoalDivergence
                 (evaluations_of (roundHistory c ++ [currentRound c]))))%Z = true
  <-> Rules.goalDiverging c cfg.
Proof.
  rewrite Z.leb_le. unfold Rules.goalDiverging. split.
  - intro H. eexists. split; [apply countConsecutiveGoalDivergence_tail | exact H].
  - intros (n & Hn & Hle).
    rewrite (farther_tail_unique _ _ _ (countConsecutiveGoalDivergence_tail _) Hn).
    exact Hle.
Qed.

Lemma last_two {A} (l : list A) :
  2 <= List.length l -> exists older a b, l = (older ++ [a; b])%list.
Proof.
  intro H. destruct l as [| b l] using rev_ind; [simpl in H; lia |].
  clear IHl. destruct l as [| a l] using rev_ind.
  - simpl in H. lia.
  - exists l, a, b. rewrite <- app_assoc. reflexivity.
Qed.

Lemma slice_last_two {A} (older : list A) (a b : A) :
  JS.slice_last 2 (older ++ [a; b]) = [a; b].
Proof.
  unfold JS.slice_last. rewrite length_app. simpl List.length.
  replace (List.length older + 2 - 2) with (List.length older + 0) by lia.
  rewrite skipn_app, Nat.add_0_r, skipn_all.
  replace (List.length older - List.length older) with 0 by lia. reflexivity.
Qed.

(** [isContradictionTrendUp] is rule 5 of the specification. *)
Lemma isContradictionTrendUp_iff (c : DecisionContext) :
  isContradictionTrendUp (roundHistory c) (currentRound c) = true
  <-> Rules.contradictionTrendUp c.
Proof.
  unfold isContradictionTrendUp, Rules.contradictionTrendUp.
  destruct (List.length (roundHistory c) <? 2) eqn:Hlen.
  - apply Nat.ltb_lt in Hlen. split; [discriminate |].
    intros (older & a & b & Hh & _). rewrite Hh, length_app in Hlen.
    simpl in Hlen. lia.
  - apply Nat.ltb_ge in Hlen.
    destruct (last_two _ Hlen) as (older & a & b & Hh).
    rewrite Hh, slice_last_two. simpl.
    destruct (contradiction_count b <? contradiction_count a) eqn:Hab.
    + apply Nat.ltb_lt in Hab. split; [discriminate |].
      intros (older' & a' & b' & Heq & Hle & _).
      change [a; b] with ([a] ++ [b])%list in Heq.
      change [a'; b'] with ([a'] ++ [b'])%list in Heq.
      rewrite !app_assoc in Heq. apply app_inj_tail in Heq. destruct Heq as [Heq <-].
      apply app_inj_tail in Heq. destruct Heq as [_ <-]. lia.
    + apply Nat.ltb_ge in Hab. simpl. rewrite Nat.ltb_lt. split.
      * intro Hlt. exists older, a, b. auto.
      * intros (older' & a' & b' & Heq & _ & Hlt).
        change [a; b] with ([a] ++ [b])%list in Heq.
        change [a'; b'] with ([a'] ++ [b'])%list in Heq.
        rewrite !app_assoc in Heq. apply app_inj_tail in Heq. destruct Heq as [_ <-].
        exact Hlt.
Qed.

Lemma taskComplete_iff (c : DecisionContext) :
  (List.length (BlindEvaluation.missing (latestEvaluation c)) =? 0)
  && (List.length (BlindEvaluation.contradictions (latestEvaluation c)) =? 0) = true
  <-> Rules.taskComplete c.
Proof.
  unfold Rules.taskComplete.
  rewrite andb_true_iff, !Nat.eqb_eq, !length_zero_iff_nil. reflexivity.
Qed.

Lemma stabilityAchieved_iff (c : DecisionContext) (cfg : DecisionEngineConfig) :
  Num.geb (StabilityMetrics.overall_stability (latestStability c))
          (stabilityThreshold cfg) = true
  <-> Rules.stabilityAchieved c cfg.
Proof. unfold Num.geb, Rules.stabilityAchieved. apply Qle_bool_iff. Qed.

Lemma maxRoundsReached_iff (c : DecisionContext) (cfg : DecisionEngineConfig) :
  (maxRounds cfg <=? Z.of_nat (RoundState.number (currentRound c)))%Z = true
  <-> Rules.maxRoundsReached c cfg.
Proof. unfold Rules.maxRoundsReached. apply Z.leb_le. Qed.

(** Case analysis of [makeTerminationDecision] along its five tests, each
    test replaced by the rule it decides. *)
Ltac decide_rules c cfg :=
  unfold makeTerminationDecision;
  destruct ((List.length (BlindEvaluation.missing (latestEvaluation c)) =? 0)
            && (List.length (BlindEvaluation.contradictions (latestEvaluation c)) =? 0))
    eqn:T1;
  [ apply taskComplete_iff in T1
  | apply not_true_iff_false in T1; rewrite taskComplete_iff in T1;
    destruct (Num.geb (StabilityMetrics.overall_stability (latestStability c))
                      (stabilityThreshold cfg)) eqn:T2;
    [ apply stabilityAchieved_iff in T2
    | apply not_true_iff_false in T2; rewrite stabilityAchieved_iff in T2;
      destruct (maxRounds cfg <=? Z.of_nat (RoundState.number (currentRound c)))%Z eqn:T3;
      [ apply maxRoundsReached_iff in T3
      | apply not_true_iff_false in T3; rewrite maxRoundsReached_iff in T3;
        cbv zeta;
        destruct (goalDivergenceLimit cfg <=?
                    Z.of_nat (countConsecutiveGoalDivergence
                      (evaluations_of (roundHistory c ++ [currentRound c]))))%Z eqn:T4;
        [ apply goalDiverging_iff in T4
        | apply not_true_iff_false in T4; rewrite goalDiverging_iff in T4;
          destruct (isContradictionTrendUp (roundHistory c) (currentRound c)) eqn:T5;
          [ apply isContradictionTrendUp_iff in T5
          | apply not_true_iff_false in T5;
            rewrite isContradictionTrendUp_iff in T5 ] ] ] ] ].

(** At or past [maxRounds] the decision is always to terminate. *)
Lemma max_rounds_terminates (c : DecisionContext) (cfg : DecisionEngineConfig) :
  (maxRounds cfg <= Z.of_nat (RoundState.number (currentRound c)))%Z ->
  TerminationDecision.should_terminate (makeTerminationDecision c cfg) = true.
Proof.
  intro H. decide_rules c cfg; try reflexivity. contradiction.
Qed.

(** C1.  [makeTerminationDecision] applies its six rules in strict priority
    order.  An evaluation with no missing item and no contradiction gives
    [task_complete] with confidence 0.95 whatever the rest of the context
    is; otherwise the first rule that holds, in the order
    [stability_achieved] (confidence: the overall stability),
    [max_rounds_reached] (1.0), [goal_diverging] (0.85),
    [contradiction_trend_up] (0.75), decides; when none holds the decision
    is [continue], not terminating, with confidence 1 - overall stability. *)
Theorem makeTerminationDecision_priority
    (c : DecisionContext) (cfg : DecisionEngineConfig) :
  let d := makeTerminationDecision c cfg in
  let overall := StabilityMetrics.overall_stability (latestStability c) in
  (Rules.taskComplete c -> d = decision true task_complete 0.95)
  /\ (~ Rules.taskComplete c -> Rules.stabilityAchieved c cfg ->
      d = decision true stability_achieved overall)
  /\ (~ Rules.taskComplete c -> ~ Rules.stabilityAchieved c cfg ->
      Rules.maxRoundsReached c cfg ->
      d = decision true max_rounds_reached 1.0)
  /\ (~ Rules.taskComplete c -> ~ Rules.stabilityAchieved c cfg ->
      ~ Rules.maxRoundsReached c cfg -> Rules.goalDiverging c cfg ->
      d = decision true goal_diverging 0.85)
  /\ (~ Rules.taskComplete c -> ~ Rules.stabilityAchieved c cfg ->
      ~ Rules.maxRoundsReached c cfg -> ~ Rules.goalDiverging c cfg ->
      Rules.contradictionTrendUp c ->
      d = decision true contradiction_trend_up 0.75)
  /\ (~ Rules.taskComplete c -> ~ Rules.stabilityAchieved c cfg ->
      ~ Rules.maxRoundsReached c cfg -> ~ Rules.goalDiverging c cfg ->
      ~ Rules.contradictionTrendUp c ->
      d = decision false continue (1 - overall)%Q).
Proof.
  cbv zeta. decide_rules c cfg; repeat split; intros; try reflexivity; contradiction.
Qed.

(** C9.  [makeTerminationDecision] gives [contradiction_trend_up] only when
    two archived rounds exist and, over the last two archived rounds and
    the current one, the contradiction counts do not decrease between the
    archived rounds and grow strictly at the current round; with fewer than
    two archived rounds that reason is never given. *)
Theorem contradiction_trend_up_only_when
    (c : DecisionContext) (cfg : DecisionEngineConfig) :
  (TerminationDecision.reason (makeTerminationDecision c cfg) = contradiction_trend_up ->
   2 <= List.length (roundHistory c) /\
   exists older a b,
     roundHistory c = (older ++ [a; b])%list /\
     contradiction_count a <= contradiction_count b /\
     contradiction_count b < contradiction_count (currentRound c))
  /\ (List.length (roundHistory c) < 2 ->
      TerminationDecision.reason (makeTerminationDecision c cfg)
      <> contradiction_trend_up).
Proof.
  assert (main :
    TerminationDecision.reason (makeTerminationDecision c cfg) = contradiction_trend_up ->
    Rules.contradictionTrendUp c).
  { decide_rules c cfg; simpl; intro H; try discriminate H. exact T5. }
  split.
  - intro H. pose proof (main H) as (older & a & b & Hh & Hab & Hbc). split.
    + rewrite Hh, length_app. simpl. lia.
    + exists older, a, b. auto.
  - intros Hlen H. destruct (main H) as (older & a & b & Hh & _).
    rewrite Hh, length_app in Hlen. simpl in Hlen. lia.
Qed.

End DecisionEngineFacts.

(* ===================================================================== *)
(** ** Stability tracker: bounds and rounding *)
(* ===================================================================== *)

Section StabilityFacts.
Import StabilityTracker SpecNum.

Lemma of_nat_nonneg (n : nat) : (0 <= Num.of_nat n)%Q.
Proof.
  unfold Num.of_nat. change 0%Q with (inject_Z 0). rewrite <- Zle_Qle. lia.
Qed.

Lemma of_nat_le (a b : nat) : a <= b -> (Num.of_nat a <= Num.of_nat b)%Q.
Proof. intro H. unfold Num.of_nat. rewrite <- Zle_Qle. lia. Qed.

Lemma of_nat_pos (n : nat) : 0 < n -> (0 < Num.of_nat n)%Q.
Proof.
  intro H. unfold Num.of_nat. change 0%Q with (inject_Z 0). rewrite <- Zlt_Qlt. lia.
Qed.

Lemma ratio_in01 (a b : nat) :
  a <= b -> 0 < b -> in01 (Num.of_nat a / Num.of_nat b).
Proof.
  intros Hab Hb. pose proof (of_nat_pos b Hb) as Hpos. split.
  - apply Qle_shift_div_l; [exact Hpos |]. rewrite Qmult_0_l. apply of_nat_nonneg.
  - apply Qle_shift_div_r; [exact Hpos |]. rewrite Qmult_1_l. apply of_nat_le, Hab.
Qed.

Lemma min_in01 (x : Q) : (0 <= x)%Q -> in01 (Num.min x 1).
Proof.
  intro Hx. unfold Num.min. destruct (Qle_bool x 1) eqn:E.
  - apply Qle_bool_iff in E. split; assumption.
  - split; [lra | lra].
Qed.


(** *** Sets *)

Lemma StrSet_has_In (s : StrSet.t) (x : string) : StrSet.has s x = true <-> In x s.
Proof.
  unfold StrSet.has. rewrite existsb_exists. split.
  - intros (y & Hy & E). apply String.eqb_eq in E. subst. exact Hy.
  - intro H. exists x. split; [exact H | apply String.eqb_refl].
Qed.

Lemma StrSet_fold_add (l : list string) (acc : StrSet.t) :
  NoDup acc ->
  NoDup (fold_left StrSet.add l acc) /\
  (forall x, In x (fold_left StrSet.add l acc) <-> In x acc \/ In x l).
Proof.
  revert acc. induction l as [| y l IH]; intros acc Hnd; simpl.
  - split; [exact Hnd | intro x; tauto].
  - assert (Hadd : NoDup (StrSet.add acc y) /\
                   forall x, In x (StrSet.add acc y) <-> In x acc \/ x = y).
    { unfold StrSet.add. destruct (StrSet.has acc y) eqn:E.
      - apply StrSet_has_In in E. split; [exact Hnd |].
        intro x. split; [tauto | intros [H | ->]; assumption].
      - split.
        + apply NoDup_app; [exact Hnd | repeat constructor; intros [] |].
          intros x Hx [<- | []]. apply StrSet_has_In in Hx. congruence.
        + intro x. rewrite in_app_iff. simpl. split; intros [H | H]; auto.
          * destruct H as [-> | []]. auto. }
    destruct Hadd as [Hnd' Hin]. destruct (IH _ Hnd') as [IH1 IH2].
    split; [exact IH1 |]. intro x. rewrite IH2, Hin. split.
    + intros [[H | ->] | H]; auto.
    + intros [H | [<- | H]]; auto.
Qed.

Lemma StrSet_of_list_NoDup (l : list string) : NoDup (StrSet.of_list l).
Proof. apply (StrSet_fold_add l []). constructor. Qed.

Lemma StrSet_of_list_In (l : list string) (x : string) :
  In x (StrSet.of_list l) <-> In x l.
Proof.
  unfold StrSet.of_list.
  rewrite (proj2 (StrSet_fold_add l [] (NoDup_nil _))). simpl. tauto.
Qed.

Lemma calculateSetSimilarity_in01 (setA setB : StrSet.t) :
  in01 (calculateSetSimilarity setA setB).
Proof.
  unfold calculateSetSimilarity.
  destruct ((StrSet.size setA =? 0) && (StrSet.size setB =? 0)); [split; lra |].
  destruct ((StrSet.size setA =? 0) || (StrSet.size setB =? 0)) eqn:E; [split; lra |].
  apply orb_false_iff in E. destruct E as [EA _]. apply Nat.eqb_neq in EA.
  apply ratio_in01.
  - unfold StrSet.size. apply NoDup_incl_length; [apply StrSet_of_list_NoDup |].
    intros x Hx. apply (proj1 (StrSet_of_list_In _ _)) in Hx.
    apply filter_In in Hx.
    apply (proj2 (StrSet_of_list_In _ _)). apply in_or_app. left. tauto.
  - unfold StrSet.size in *. destruct setA as [| a setA]; [simpl in EA; lia |].
    assert (Ha : In a (StrSet.of_list ((a :: setA) ++ setB))).
    { apply (proj2 (StrSet_of_list_In _ _)). left. reflexivity. }
    destruct (StrSet.of_list ((a :: setA) ++ setB)); [destruct Ha | simpl; lia].
Qed.

Lemma taskCountSimilarity_in01 (n m : nat) : in01 (taskCountSimilarity n m).
Proof.
  unfold taskCountSimilarity.
  replace (Z.abs (Z.of_nat n - Z.of_nat m)) with (Z.of_nat (Nat.max n m - Nat.min n m)) by lia.
  destruct (ratio_in01 (Nat.max n m - Nat.min n m) (Nat.max (Nat.max n m) 1))
    as [H0 H1]; [lia | lia |].
  unfold Num.of_nat in *. split; lra.
Qed.

Lemma calculatePlanSimilarity_in01 (currentPlan previousPlan : option Plan.t) :
  in01 (calculatePlanSimilarity currentPlan previousPlan).
Proof.
  unfold calculatePlanSimilarity.
  destruct currentPlan as [cp |], previousPlan as [pp |]; try (split; lra).
  pose proof (calculateSetSimilarity_in01 (StrSet.of_list (Plan.goals cp))
                (StrSet.of_list (Plan.goals pp))) as [G0 G1].
  pose proof (calculateSetSimilarity_in01 (StrSet.of_list (Plan.constraints cp))
                (StrSet.of_list (Plan.constraints pp))) as [C0 C1].
  pose proof (taskCountSimilarity_in01 (List.length (Plan.tasks cp))
                (List.length (Plan.tasks pp))) as [T0 T1].
  cbv zeta. simpl fold_left. simpl List.length.
  change (Num.of_nat 3) with 3%Q. split.
  - apply Qle_shift_div_l; lra.
  - apply Qle_shift_div_r; lra.
Qed.

Lemma reusedCount_le (f : string -> bool) (l : list string) (count : nat) :
  fold_left (fun count decision => if f decision then count + 1 else count) l count
  <= count + List.length l.
Proof.
  revert count. induction l as [| d l IH]; intro count; simpl; [lia |].
  destruct (f d).
  - specialize (IH (count + 1)). lia.
  - specialize (IH count). lia.
Qed.

Lemma calculateDecisionReuseRate_in01 (currentPlan previousPlan : option Plan.t) :
  in01 (calculateDecisionReuseRate currentPlan previousPlan).
Proof.
  unfold calculateDecisionReuseRate.
  destruct currentPlan as [cp |], previousPlan as [pp |]; try (split; lra).
  cbv zeta. destruct (List.length (decisions cp) =? 0) eqn:E; [split; lra |].
  apply Nat.eqb_neq in E. apply ratio_in01; [| lia].
  apply (reusedCount_le _ (decisions cp) 0).
Qed.

Lemma calculateGoalConvergence_in01 (evaluation : BlindEvaluation.t) :
  in01 (calculateGoalConvergence evaluation).
Proof.
  unfold calculateGoalConvergence, vsGoalMap, vsPreviousMap.
  destruct (BlindEvaluation.vs_goal evaluation),
           (BlindEvaluation.vs_previous evaluation); split; lra.
Qed.

(** [Math.round(x * 100) / 100] rounds to two decimals and stays in [0,1]. *)
Lemma round_two_decimals (x : Q) :
  rounded2 x (Num.round (x * 100) / 100) /\
  (in01 x -> in01 (Num.round (x * 100) / 100)).
Proof.
  unfold Num.round. set (k := Qfloor (x * 100 + (1 # 2))). split.
  - exists k. split; [reflexivity |]. split.
    + apply Qfloor_le.
    + pose proof (Qlt_floor (x * 100 + (1 # 2))) as H. fold k in H.
      rewrite inject_Z_plus in H. exact H.
  - intros [H0 H1].
    assert (Hk0 : (0 <= k)%Z).
    { change 0%Z with (Qfloor 0). apply Qfloor_resp_le. lra. }
    assert (Hk1 : (k <= 100)%Z).
    { change 100%Z with (Qfloor (100 + (1 # 2))). apply Qfloor_resp_le. lra. }
    rewrite Zle_Qle in Hk0, Hk1. split.
    + apply Qle_shift_div_l; [reflexivity | ]. change (inject_Z 0) with 0%Q in Hk0. lra.
    + apply Qle_shift_div_r; [reflexivity | ]. change (inject_Z 100) with 100%Q in Hk1. lra.
Qed.

End StabilityFacts.

(* ===================================================================== *)
(** ** Double precision: rounding is monotone and accurate *)
(* ===================================================================== *)

Section Float64Facts.
Import Float64.
Local Open Scope Q_scope.

Lemma pow2_pos (e : Z) : 0 < 2 ^ e.
Proof. apply Qpower_0_lt. reflexivity. Qed.

Lemma pow2_plus (a b : Z) : 2 ^ (a + b) == 2 ^ a * 2 ^ b.
Proof. apply Qpower_plus. discriminate. Qed.

Lemma pow2_le (a b : Z) : (a <= b)%Z -> 2 ^ a <= 2 ^ b.
Proof. intro H. apply Qpower_le_compat_l; [exact H | discriminate]. Qed.

Lemma pow2_lt_inv (a b : Z) : 2 ^ a < 2 ^ b -> (a < b)%Z.
Proof. intro H. apply (Qpower_lt_compat_l_inv 2); [exact H | reflexivity]. Qed.

(** *** The nearest integer *)

Lemma floor_int_le (n : Z) (q : Q) : inject_Z n <= q -> (n <= Qfloor q)%Z.
Proof. intro H. rewrite <- (Qfloor_Z n). apply Qfloor_resp_le. exact H. Qed.

Lemma rne_cases (q : Q) :
  (rne q = Qfloor q /\ q - inject_Z (Qfloor q) <= 1 # 2)
  \/ (rne q = (Qfloor q + 1)%Z /\ 1 # 2 <= q - inject_Z (Qfloor q)).
Proof.
  unfold rne. cbv zeta.
  destruct (Qcompare_spec (q - inject_Z (Qfloor q)) (1 # 2)) as [H | H | H].
  - destruct (Z.even (Qfloor q)); [left | right]; split; try reflexivity;
      rewrite H; apply Qle_refl.
  - left. split; [reflexivity | apply Qlt_le_weak, H].
  - right. split; [reflexivity | apply Qlt_le_weak, H].
Qed.

Lemma floor_bounds (q : Q) :
  inject_Z (Qfloor q) <= q /\ q < inject_Z (Qfloor q) + 1.
Proof.
  split; [apply Qfloor_le |].
  pose proof (Qlt_floor q) as H. rewrite inject_Z_plus in H. exact H.
Qed.

Lemma rne_near (q : Q) :
  q - (1 # 2) <= inject_Z (rne q) /\ inject_Z (rne q) <= q + (1 # 2).
Proof.
  destruct (floor_bounds q) as [H1 H2].
  destruct (rne_cases q) as [[-> H] | [-> H]].
  - split; lra.
  - rewrite inject_Z_plus. change (inject_Z 1) with 1. split; lra.
Qed.

Lemma rne_mono (x y : Q) : x <= y -> (rne x <= rne y)%Z.
Proof.
  intro Hxy.
  pose proof (Qfloor_resp_le x y Hxy) as Hf.
  destruct (Z.eq_dec (Qfloor x) (Qfloor y)) as [E | N].
  - unfold rne. cbv zeta. rewrite E.
    destruct (Qcompare_spec (x - inject_Z (Qfloor y)) (1 # 2)) as [H | H | H];
      destruct (Qcompare_spec (y - inject_Z (Qfloor y)) (1 # 2)) as [H' | H' | H'];
      try (destruct (Z.even (Qfloor y))); try lia; try lra.
  - destruct (rne_cases x) as [[-> _] | [-> _]];
      destruct (rne_cases y) as [[-> _] | [-> _]]; lia.
Qed.

Lemma rne_int (n : Z) : rne (inject_Z n) = n.
Proof.
  unfold rne. cbv zeta. rewrite Qfloor_Z.
  destruct (Qcompare_spec (inject_Z n - inject_Z n) (1 # 2)) as [H | H | H];
    try reflexivity; exfalso; lra.
Qed.

Lemma rne_ge_int (n : Z) (q : Q) : inject_Z n <= q -> (n <= rne q)%Z.
Proof. intro H. rewrite <- (rne_int n). apply rne_mono, H. Qed.

Lemma rne_le_int (n : Z) (q : Q) : q <= inject_Z n -> (rne q <= n)%Z.
Proof. intro H. rewrite <- (rne_int n). apply rne_mono, H. Qed.

(** *** The binary exponent *)

Lemma inject_pow2 (n : Z) : (0 <= n)%Z -> inject_Z (2 ^ n) == 2 ^ n.
Proof. intro H. rewrite Zpower_Qpower by exact H. reflexivity. Qed.

Lemma ilog2_spec (q : Q) :
  0 < q -> 2 ^ (ilog2 q) <= q /\ q < 2 ^ (ilog2 q + 1).
Proof.
  intro Hq. destruct q as [n d]. unfold ilog2. cbn [Qnum Qden].
  assert (Hn : (0 < n)%Z) by (unfold Qlt in Hq; simpl in Hq; lia).
  set (a := Z.log2 n). set (b := Z.log2 (Z.pos d)).
  assert (Ha : (0 <= a)%Z) by apply Z.log2_nonneg.
  assert (Hb : (0 <= b)%Z) by apply Z.log2_nonneg.
  destruct (Z.log2_spec n Hn) as [Ha1 Ha2]. fold a in Ha1, Ha2.
  destruct (Z.log2_spec (Z.pos d) (Pos2Z.is_pos d)) as [Hb1 Hb2]. fold b in Hb1, Hb2.
  (* as rationals *)
  assert (Qa1 : 2 ^ a <= inject_Z n).
  { rewrite <- inject_pow2 by exact Ha. rewrite <- Zle_Qle. exact Ha1. }
  assert (Qa2 : inject_Z n < 2 ^ (a + 1)).
  { rewrite <- inject_pow2 by lia. rewrite <- Zlt_Qlt.
    replace (a + 1)%Z with (Z.succ a) by lia. exact Ha2. }
  assert (Qb1 : 2 ^ b <= inject_Z (Z.pos d)).
  { rewrite <- inject_pow2 by exact Hb. rewrite <- Zle_Qle. exact Hb1. }
  assert (Qb2 : inject_Z (Z.pos d) < 2 ^ (b + 1)).
  { rewrite <- inject_pow2 by lia. rewrite <- Zlt_Qlt.
    replace (b + 1)%Z with (Z.succ b) by lia. exact Hb2. }
  assert (Hd : 0 < inject_Z (Z.pos d)) by reflexivity.
  assert (Hnd : n # d == inject_Z n / inject_Z (Z.pos d)) by apply Qmake_Qdiv.
  set (N := inject_Z n) in *. set (D := inject_Z (Z.pos d)) in *.
  (* lower bound: 2^(a-b-1) <= n/d;  upper: n/d < 2^(a-b+1) *)
  assert (Lo : 2 ^ (a - b - 1) <= n # d).
  { rewrite Hnd. apply Qle_shift_div_l; [exact Hd |].
    replace (a - b - 1)%Z with (a + - (b + 1))%Z by lia.
    rewrite pow2_plus, Qpower_opp.
    pose proof (pow2_pos (b + 1)) as Hp. pose proof (pow2_pos a) as Hpa.
    apply Qle_trans with (2 ^ a * / 2 ^ (b + 1) * 2 ^ (b + 1)).
    - apply Qmult_le_l.
      + apply Qmult_lt_0_compat; [exact Hpa | apply Qinv_lt_0_compat, Hp].
      + apply Qlt_le_weak, Qb2.
    - rewrite <- Qmult_assoc, (Qmult_comm (/ _)), Qmult_inv_r, Qmult_1_r; [exact Qa1 |].
      intro E. rewrite E in Hp. discriminate Hp. }
  assert (Hi : n # d < 2 ^ (a - b - 1 + 1 + 1)).
  { rewrite Hnd. apply Qlt_shift_div_r; [exact Hd |].
    replace (a - b - 1 + 1 + 1)%Z with ((a + 1) + - b)%Z by lia.
    rewrite pow2_plus, Qpower_opp.
    pose proof (pow2_pos b) as Hp. pose proof (pow2_pos (a + 1)) as Hpa.
    apply Qlt_le_trans with (2 ^ (a + 1)); [exact Qa2 |].
    apply Qle_trans with (2 ^ (a + 1) * / 2 ^ b * 2 ^ b).
    - rewrite <- Qmult_assoc, (Qmult_comm (/ _)), Qmult_inv_r, Qmult_1_r;
        [apply Qle_refl |].
      intro E. rewrite E in Hp. discriminate Hp.
    - apply Qmult_le_l.
      + apply Qmult_lt_0_compat; [exact Hpa | apply Qinv_lt_0_compat, Hp].
      + exact Qb1. }
  destruct (Qle_bool (2 ^ (a - b - 1 + 1)) (n # d)) eqn:E.
  - apply Qle_bool_iff in E. split; [exact E | exact Hi].
  - split; [exact Lo |]. apply Qnot_le_lt. intro H.
    apply Qle_bool_iff in H. congruence.
Qed.

Lemma ilog2_mono (x y : Q) : 0 < x -> x <= y -> (ilog2 x <= ilog2 y)%Z.
Proof.
  intros Hx Hxy.
  destruct (ilog2_spec x Hx) as [Lx _].
  destruct (ilog2_spec y (Qlt_le_trans _ _ _ Hx Hxy)) as [_ Uy].
  assert (H : 2 ^ ilog2 x < 2 ^ (ilog2 y + 1)) by lra.
  apply pow2_lt_inv in H. lia.
Qed.

Lemma exponent_mono (x y : Q) : 0 < x -> x <= y -> (exponent x <= exponent y)%Z.
Proof. intros Hx Hxy. unfold exponent. pose proof (ilog2_mono x y Hx Hxy). lia. Qed.

Lemma scale_le (x y : Q) (e : Z) : x <= y -> x / 2 ^ e <= y / 2 ^ e.
Proof.
  intro H. unfold Qdiv. apply Qmult_le_compat_r; [exact H |].
  apply Qlt_le_weak, Qinv_lt_0_compat, pow2_pos.
Qed.

Lemma scaled_lt (q : Q) (e k : Z) : q < 2 ^ (e + k) -> q / 2 ^ e < 2 ^ k.
Proof.
  intro H. apply Qlt_shift_div_r; [apply pow2_pos |].
  rewrite <- pow2_plus. replace (k + e)%Z with (e + k)%Z by lia. exact H.
Qed.

Lemma scaled_ge (q : Q) (e k : Z) : 2 ^ (e + k) <= q -> 2 ^ k <= q / 2 ^ e.
Proof.
  intro H. apply Qle_shift_div_l; [apply pow2_pos |].
  rewrite <- pow2_plus. replace (k + e)%Z with (e + k)%Z by lia. exact H.
Qed.

Lemma round_pos_upper (q : Q) (k : Z) :
  0 < q -> (0 <= k)%Z -> q <= 2 ^ (exponent q + k) ->
  round_pos q <= 2 ^ (exponent q + k).
Proof.
  intros Hq Hk H. unfold round_pos. cbv zeta.
  rewrite (Z.add_comm (exponent q) k), pow2_plus.
  apply Qmult_le_compat_r; [| apply Qlt_le_weak, pow2_pos].
  rewrite <- (inject_pow2 k Hk). rewrite <- Zle_Qle.
  apply rne_le_int. rewrite (inject_pow2 k Hk).
  apply Qle_shift_div_r; [apply pow2_pos |].
  rewrite <- pow2_plus. rewrite Z.add_comm. exact H.
Qed.

Lemma round_pos_lower (q : Q) (k : Z) :
  (0 <= k)%Z -> 2 ^ (exponent q + k) <= q ->
  2 ^ (exponent q + k) <= round_pos q.
Proof.
  intros Hk H. unfold round_pos. cbv zeta.
  rewrite (Z.add_comm (exponent q) k), pow2_plus.
  apply Qmult_le_compat_r; [| apply Qlt_le_weak, pow2_pos].
  rewrite <- (inject_pow2 k Hk). rewrite <- Zle_Qle.
  apply rne_ge_int. rewrite (inject_pow2 k Hk).
  apply scaled_ge. exact H.
Qed.

Lemma round_pos_nonneg (q : Q) : 0 < q -> 0 <= round_pos q.
Proof.
  intro Hq. unfold round_pos. cbv zeta.
  apply Qmult_le_0_compat; [| apply Qlt_le_weak, pow2_pos].
  change 0 with (inject_Z 0). rewrite <- Zle_Qle. apply rne_ge_int.
  change (inject_Z 0) with 0. apply Qle_shift_div_l; [apply pow2_pos |]. lra.
Qed.

Lemma round_pos_mono (x y : Q) : 0 < x -> x <= y -> round_pos x <= round_pos y.
Proof.
  intros Hx Hxy.
  assert (Hy : 0 < y) by lra.
  pose proof (exponent_mono x y Hx Hxy) as He.
  destruct (Z.eq_dec (exponent x) (exponent y)) as [E | N].
  - unfold round_pos. cbv zeta. rewrite E.
    apply Qmult_le_compat_r; [| apply Qlt_le_weak, pow2_pos].
    rewrite <- Zle_Qle. apply rne_mono, scale_le, Hxy.
  - assert (Hlt : (exponent x < exponent y)%Z) by lia.
    destruct (ilog2_spec x Hx) as [_ Ux]. destruct (ilog2_spec y Hy) as [Ly _].
    assert (Ey : exponent y = (ilog2 y - 52)%Z) by (unfold exponent in *; lia).
    assert (Ex : (ilog2 x - 52 <= exponent x)%Z) by (unfold exponent; lia).
    apply Qle_trans with (2 ^ (exponent x + 53)).
    + apply (round_pos_upper x 53 Hx); [lia |].
      apply Qle_trans with (2 ^ (ilog2 x + 1)); [lra | apply pow2_le; lia].
    + apply Qle_trans with (2 ^ (exponent y + 52)); [apply pow2_le; lia |].
      apply (round_pos_lower y 52); [lia |].
      replace (exponent y + 52)%Z with (ilog2 y) by lia. exact Ly.
Qed.

Lemma fl_pos (q : Q) : 0 < q -> fl q == round_pos q.
Proof.
  intro H. unfold fl. rewrite Qred_correct.
  destruct (Qcompare_spec q 0) as [E | E | E]; first [reflexivity | lra].
Qed.

Lemma fl_zero (q : Q) : q == 0 -> fl q == 0.
Proof.
  intro H. unfold fl. rewrite Qred_correct.
  destruct (Qcompare_spec q 0) as [E | E | E]; first [reflexivity | lra].
Qed.

Lemma fl_neg (q : Q) : q < 0 -> fl q == - round_pos (- q).
Proof.
  intro H. unfold fl. rewrite Qred_correct.
  destruct (Qcompare_spec q 0) as [E | E | E]; first [reflexivity | lra].
Qed.

(** Rounding is monotone. *)
Lemma fl_mono (x y : Q) : x <= y -> fl x <= fl y.
Proof.
  intro Hxy.
  destruct (Qlt_le_dec 0 x) as [Hx | Hx].
  - rewrite (fl_pos x Hx), (fl_pos y) by lra. apply round_pos_mono; assumption.
  - destruct (Qlt_le_dec 0 y) as [Hy | Hy].
    + rewrite (fl_pos y Hy). pose proof (round_pos_nonneg y Hy) as Hn.
      destruct (Qlt_le_dec x 0) as [Hx' | Hx'].
      * rewrite (fl_neg x Hx').
        pose proof (round_pos_nonneg (- x)) as Hm. lra.
      * rewrite (fl_zero x) by lra. exact Hn.
    + destruct (Qlt_le_dec y 0) as [Hy' | Hy'].
      * rewrite (fl_neg x), (fl_neg y) by lra.
        pose proof (round_pos_mono (- y) (- x)) as H. lra.
      * rewrite (fl_zero y) by lra.
        destruct (Qlt_le_dec x 0) as [Hx' | Hx'].
        -- rewrite (fl_neg x Hx'). pose proof (round_pos_nonneg (- x)) as Hm. lra.
        -- rewrite (fl_zero x) by lra. apply Qle_refl.
Qed.

(** The rounding error below [2 ^ k]. *)
Lemma fl_error (x : Q) (k : Z) :
  0 <= x -> x < 2 ^ k -> (emin + 53 <= k)%Z ->
  x - 2 ^ (k - 54) <= fl x /\ fl x <= x + 2 ^ (k - 54).
Proof.
  intros H0 Hk Hmin.
  pose proof (pow2_pos (k - 54)) as Hu.
  destruct (Qlt_le_dec 0 x) as [Hx | Hx].
  2: { rewrite (fl_zero x) by lra. split; lra. }
  rewrite (fl_pos x Hx). unfold round_pos. cbv zeta.
  set (e := exponent x).
  assert (He : (e <= k - 53)%Z).
  { destruct (ilog2_spec x Hx) as [Lx _].
    assert (H : 2 ^ ilog2 x < 2 ^ k) by lra.
    apply pow2_lt_inv in H. unfold e, exponent. lia. }
  pose proof (pow2_pos e) as Hp.
  destruct (rne_near (x / 2 ^ e)) as [N1 N2].
  assert (Hx' : x == x / 2 ^ e * 2 ^ e).
  { unfold Qdiv. rewrite <- Qmult_assoc, (Qmult_comm (/ _)), Qmult_inv_r, Qmult_1_r;
      [reflexivity |]. intro E. rewrite E in Hp. discriminate Hp. }
  assert (Hhalf : 2 ^ e * (1 # 2) <= 2 ^ (k - 54)).
  { apply Qle_trans with (2 ^ (k - 53) * (1 # 2)).
    - apply Qmult_le_compat_r; [apply pow2_le, He | discriminate].
    - replace (k - 53)%Z with ((k - 54) + 1)%Z by lia.
      rewrite pow2_plus. change (2 ^ 1) with 2. lra. }
  set (s := x / 2 ^ e) in *. set (r := inject_Z (rne s)) in *.
  set (p := 2 ^ e) in *.
  assert (A : (s - (1 # 2)) * p <= r * p)
    by (apply Qmult_le_compat_r; [exact N1 | lra]).
  assert (B : r * p <= (s + (1 # 2)) * p)
    by (apply Qmult_le_compat_r; [exact N2 | lra]).
  split; lra.
Qed.

End Float64Facts.

(* ===================================================================== *)
(** ** Stability tracker in double precision: bounds and rounding *)
(* ===================================================================== *)

Section StabilityDoubles.
Import Float64 SpecNum SpecFloat.
Local Open Scope Q_scope.

Lemma fl_0 : fl 0 == 0.
Proof. vm_compute. reflexivity. Qed.

Lemma fl_1 : fl 1 == 1.
Proof. vm_compute. reflexivity. Qed.

Lemma fl_nonneg (x : Q) : 0 <= x -> 0 <= fl x.
Proof.
  intro H. apply Qle_trans with (fl 0); [rewrite fl_0; apply Qle_refl |].
  apply fl_mono, H.
Qed.

Lemma fl_le_1 (x : Q) : x <= 1 -> fl x <= 1.
Proof.
  intro H. apply Qle_trans with (fl 1); [| rewrite fl_1; apply Qle_refl].
  apply fl_mono, H.
Qed.

Lemma fl_in01 (x : Q) : in01 x -> in01 (fl x).
Proof. intros [H0 H1]. split; [apply fl_nonneg, H0 | apply fl_le_1, H1]. Qed.

Lemma of_Z_mono (a b : Z) : (a <= b)%Z -> of_Z a <= of_Z b.
Proof. intro H. unfold of_Z. apply fl_mono. rewrite <- Zle_Qle. exact H. Qed.

Lemma of_Z_nonneg (a : Z) : (0 <= a)%Z -> 0 <= of_Z a.
Proof. intro H. unfold of_Z. apply fl_nonneg. change 0 with (inject_Z 0).
  rewrite <- Zle_Qle. exact H. Qed.

Lemma of_Z_ge_1 (a : Z) : (1 <= a)%Z -> 1 <= of_Z a.
Proof.
  intro H. apply Qle_trans with (of_Z 1); [| apply of_Z_mono, H].
  vm_compute. discriminate.
Qed.

(** A quotient of numbers [0 <= x <= y], [1 <= y], stays in [0,1]. *)
Lemma div_in01 (x y : Q) : 0 <= x -> x <= y -> 1 <= y -> in01 (div x y).
Proof.
  intros H0 Hxy Hy. unfold div. apply fl_in01. split.
  - apply Qle_shift_div_l; lra.
  - apply Qle_shift_div_r; lra.
Qed.

Lemma ratio_in01_double (a b : nat) :
  (a <= b)%nat -> (0 < b)%nat -> in01 (div (of_nat a) (of_nat b)).
Proof.
  intros Hab Hb. unfold of_nat. apply div_in01.
  - apply of_Z_nonneg. lia.
  - apply of_Z_mono. lia.
  - apply of_Z_ge_1. lia.
Qed.

Lemma min_in01_double (x : Q) : 0 <= x -> in01 (Float64.min x 1).
Proof.
  intro Hx. unfold Float64.min. destruct (Qle_bool x 1) eqn:E.
  - apply Qle_bool_iff in E. split; assumption.
  - split; lra.
Qed.

(** *** The four signals *)

Lemma intersection_le_union (setA setB : StrSet.t) :
  (StrSet.size (StrSet.of_list (filter (StrSet.has setB) setA))
   <= StrSet.size (StrSet.of_list (setA ++ setB)))%nat
  /\ (StrSet.size setA <> 0%nat ->
      (0 < StrSet.size (StrSet.of_list (setA ++ setB)))%nat).
Proof.
  split.
  - unfold StrSet.size. apply NoDup_incl_length; [apply StrSet_of_list_NoDup |].
    intros x Hx. apply (proj1 (StrSet_of_list_In _ _)) in Hx.
    apply filter_In in Hx.
    apply (proj2 (StrSet_of_list_In _ _)). apply in_or_app. left. tauto.
  - unfold StrSet.size. intro EA. destruct setA as [| a setA]; [simpl in EA; lia |].
    assert (Ha : In a (StrSet.of_list ((a :: setA) ++ setB))).
    { apply (proj2 (StrSet_of_list_In _ _)). left. reflexivity. }
    destruct (StrSet.of_list ((a :: setA) ++ setB)); [destruct Ha | simpl; lia].
Qed.

Lemma calculateSetSimilarity_double_in01 (setA setB : StrSet.t) :
  in01 (StabilityTracker64.calculateSetSimilarity setA setB).
Proof.
  unfold StabilityTracker64.calculateSetSimilarity.
  destruct ((StrSet.size setA =? 0)%nat && (StrSet.size setB =? 0)%nat); [split; lra |].
  destruct ((StrSet.size setA =? 0)%nat || (StrSet.size setB =? 0)%nat) eqn:E;
    [split; lra |].
  apply orb_false_iff in E. destruct E as [EA _]. apply Nat.eqb_neq in EA.
  destruct (intersection_le_union setA setB) as [Hle Hpos].
  cbv zeta. apply ratio_in01_double; [exact Hle | exact (Hpos EA)].
Qed.

Lemma taskCountSimilarity_double_in01 (n m : nat) :
  in01 (StabilityTracker64.taskCountSimilarity n m).
Proof.
  unfold StabilityTracker64.taskCountSimilarity, sub.
  destruct (div_in01 (of_Z (Z.abs (Z.of_nat n - Z.of_nat m)))
              (of_nat (Nat.max (Nat.max n m) 1))) as [H0 H1].
  - apply of_Z_nonneg. lia.
  - unfold of_nat. apply of_Z_mono. lia.
  - unfold of_nat. apply of_Z_ge_1. lia.
  - apply fl_in01. split; lra.
Qed.

Lemma calculatePlanSimilarity_double_in01 (currentPlan previousPlan : option Plan.t) :
  in01 (StabilityTracker64.calculatePlanSimilarity currentPlan previousPlan).
Proof.
  unfold StabilityTracker64.calculatePlanSimilarity.
  assert (Hhalf : in01 (lit 0.5)) by (split; vm_compute; discriminate).
  destruct currentPlan as [cp |], previousPlan as [pp |]; try exact Hhalf.
  pose proof (calculateSetSimilarity_double_in01 (StrSet.of_list (Plan.goals cp))
                (StrSet.of_list (Plan.goals pp))) as [G0 G1].
  pose proof (calculateSetSimilarity_double_in01 (StrSet.of_list (Plan.constraints cp))
                (StrSet.of_list (Plan.constraints pp))) as [C0 C1].
  pose proof (taskCountSimilarity_double_in01 (List.length (Plan.tasks cp))
                (List.length (Plan.tasks pp))) as [T0 T1].
  cbv zeta. cbn [fold_left List.length].
  set (g := StabilityTracker64.calculateSetSimilarity
              (StrSet.of_list (Plan.goals cp)) _) in *.
  set (c := StabilityTracker64.calculateSetSimilarity
              (StrSet.of_list (Plan.constraints cp)) _) in *.
  set (t := StabilityTracker64.taskCountSimilarity _ _) in *.
  unfold add, div.
  assert (H2 : fl 2 == 2) by (vm_compute; reflexivity).
  assert (H3 : fl 3 == 3) by (vm_compute; reflexivity).
  assert (N3 : of_nat 3 == 3) by (vm_compute; reflexivity).
  assert (A1 : in01 (fl (0 + g))) by (apply fl_in01; split; lra).
  destruct A1 as [A10 A11].
  assert (A20 : 0 <= fl (fl (0 + g) + t)) by (apply fl_nonneg; lra).
  assert (A21 : fl (fl (0 + g) + t) <= 2).
  { apply Qle_trans with (fl 2); [apply fl_mono; lra | rewrite H2; apply Qle_refl]. }
  assert (A30 : 0 <= fl (fl (fl (0 + g) + t) + c)) by (apply fl_nonneg; lra).
  assert (A31 : fl (fl (fl (0 + g) + t) + c) <= 3).
  { apply Qle_trans with (fl 3); [apply fl_mono; lra | rewrite H3; apply Qle_refl]. }
  apply fl_in01. unfold in01. rewrite N3. split.
  - apply Qle_shift_div_l; lra.
  - apply Qle_shift_div_r; lra.
Qed.

Lemma calculateDecisionReuseRate_double_in01 (currentPlan previousPlan : option Plan.t) :
  in01 (StabilityTracker64.calculateDecisionReuseRate currentPlan previousPlan).
Proof.
  unfold StabilityTracker64.calculateDecisionReuseRate.
  assert (Hhalf : in01 (lit 0.5)) by (split; vm_compute; discriminate).
  destruct currentPlan as [cp |], previousPlan as [pp |]; try exact Hhalf.
  cbv zeta.
  destruct (List.length (StabilityTracker.decisions cp) =? 0)%nat eqn:E; [split; lra |].
  apply Nat.eqb_neq in E. apply ratio_in01_double; [| lia].
  apply (reusedCount_le _ (StabilityTracker.decisions cp) 0).
Qed.

Lemma calculateGoalConvergence_double_in01 (evaluation : BlindEvaluation.t) :
  in01 (StabilityTracker64.calculateGoalConvergence evaluation).
Proof.
  unfold StabilityTracker64.calculateGoalConvergence,
    StabilityTracker64.vsGoalMap, StabilityTracker64.vsPreviousMap.
  destruct (BlindEvaluation.vs_goal evaluation),
           (BlindEvaluation.vs_previous evaluation);
    split; vm_compute; discriminate.
Qed.

Lemma contradictionRatio_double_in01 (n : nat) :
  in01 (Float64.min (div (of_nat n) (of_nat 5)) 1).
Proof.
  apply min_in01_double. unfold div. apply fl_nonneg.
  assert (N5 : of_nat 5 == 5) by (vm_compute; reflexivity). rewrite N5.
  pose proof (of_Z_nonneg (Z.of_nat n) (Nat2Z.is_nonneg n)) as H.
  fold (of_nat n) in H. apply Qle_shift_div_l; lra.
Qed.

(** *** The overall stability *)

(** Below 2 a rounding moves a value by at most [2 ^ -53]; below 128 by at
    most [2 ^ -47]. *)
Lemma fl_near_2 (x : Q) :
  0 <= x -> x < 2 ->
  x - (1 # 9007199254740992) <= fl x /\ fl x <= x + (1 # 9007199254740992).
Proof.
  intros H0 H2. apply (fl_error x 1 H0); [exact H2 | unfold emin; lia].
Qed.

Lemma fl_near_128 (x : Q) :
  0 <= x -> x < 128 ->
  x - (1 # 140737488355328) <= fl x /\ fl x <= x + (1 # 140737488355328).
Proof.
  intros H0 H2. apply (fl_error x 7 H0); [exact H2 | unfold emin; lia].
Qed.

Lemma floor_lt_int (q : Q) (n : Z) : q < inject_Z n -> (Qfloor q < n)%Z.
Proof.
  intro H. rewrite Zlt_Qlt. apply Qle_lt_trans with q; [apply Qfloor_le | exact H].
Qed.

(** The rounded weighted sum of four signals in [0,1], as the program
    computes it, against the exact sum with the decimal weights. *)
Lemma overall_stability_double (cr dr ps gc : Q) :
  in01 cr -> in01 dr -> in01 ps -> in01 gc ->
  rounded2_within slack
    ((1 - cr) * 0.30 + dr * 0.25 + ps * 0.25 + gc * 0.20)
    (div (round (mul (add (add (add (mul (sub 1 cr) (lit 0.30)) (mul dr (lit 0.25)))
                               (mul ps (lit 0.25)))
                          (mul gc (lit 0.20))) 100)) 100).
Proof.
  intros [C0 C1] [D0 D1] [P0 P1] [G0 G1].
  unfold add, mul, sub, div, round, lit.
  replace (fl 0.30) with (5404319552844595 # 18014398509481984)
    by (vm_compute; reflexivity).
  replace (fl 0.25) with (1 # 4) by (vm_compute; reflexivity).
  replace (fl 0.20) with (3602879701896397 # 18014398509481984)
    by (vm_compute; reflexivity).
  set (a := fl (1 - cr)).
  assert (Ha0 : 0 <= a) by (apply fl_nonneg; lra).
  destruct (fl_near_2 (1 - cr)) as [Ha1 Ha2]; [lra | lra |]. fold a in Ha1, Ha2.
  set (p1 := fl (a * (5404319552844595 # 18014398509481984))).
  assert (Hp10 : 0 <= p1) by (apply fl_nonneg; lra).
  destruct (fl_near_2 (a * (5404319552844595 # 18014398509481984))) as [Hp11 Hp12];
    [lra | lra |]. fold p1 in Hp11, Hp12.
  set (p2 := fl (dr * (1 # 4))).
  assert (Hp20 : 0 <= p2) by (apply fl_nonneg; lra).
  destruct (fl_near_2 (dr * (1 # 4))) as [Hp21 Hp22]; [lra | lra |].
  fold p2 in Hp21, Hp22.
  set (p3 := fl (ps * (1 # 4))).
  assert (Hp30 : 0 <= p3) by (apply fl_nonneg; lra).
  destruct (fl_near_2 (ps * (1 # 4))) as [Hp31 Hp32]; [lra | lra |].
  fold p3 in Hp31, Hp32.
  set (p4 := fl (gc * (3602879701896397 # 18014398509481984))).
  assert (Hp40 : 0 <= p4) by (apply fl_nonneg; lra).
  destruct (fl_near_2 (gc * (3602879701896397 # 18014398509481984))) as [Hp41 Hp42];
    [lra | lra |]. fold p4 in Hp41, Hp42.
  set (s1 := fl (p1 + p2)).
  assert (Hs10 : 0 <= s1) by (apply fl_nonneg; lra).
  destruct (fl_near_2 (p1 + p2)) as [Hs11 Hs12]; [lra | lra |]. fold s1 in Hs11, Hs12.
  set (s2 := fl (s1 + p3)).
  assert (Hs20 : 0 <= s2) by (apply fl_nonneg; lra).
  destruct (fl_near_2 (s1 + p3)) as [Hs21 Hs22]; [lra | lra |]. fold s2 in Hs21, Hs22.
  set (s3 := fl (s2 + p4)).
  assert (Hs30 : 0 <= s3) by (apply fl_nonneg; lra).
  destruct (fl_near_2 (s2 + p4)) as [Hs31 Hs32]; [lra | lra |]. fold s3 in Hs31, Hs32.
  set (t := fl (s3 * 100)).
  assert (Ht0 : 0 <= t) by (apply fl_nonneg; lra).
  destruct (fl_near_128 (s3 * 100)) as [Ht1 Ht2]; [lra | lra |]. fold t in Ht1, Ht2.
  destruct (floor_bounds (t + (1 # 2))) as [F1 F2].
  set (k := Qfloor (t + (1 # 2))) in *.
  exists k. unfold slack. refine (conj _ (conj (Qeq_refl _) (conj _ _))).
  - split.
    + change 0%Z with (Qfloor 0). apply Qfloor_resp_le. lra.
    + assert (H : (k < 101)%Z) by (apply floor_lt_int; change (inject_Z 101) with 101; lra).
      lia.
  - lra.
  - lra.
Qed.

(** C5 (as amended).  In the arithmetic of the program, every metric that
    [calculateStability] computes under the default weights lies in [0,1].
    The overall stability is the double nearest to a two-decimal value
    [k / 100], where [k] is a nearest integer of one hundred times the
    convex combination (1 - contradiction_ratio) * 0.30
    + decision_reuse_rate * 0.25 + plan_similarity * 0.25
    + goal_convergence * 0.20 of the returned signals, up to the
    accumulated rounding error (at most [2 ^ -40] hundredths): it is the
    double nearest to that combination rounded to two decimals whenever
    the combination is farther than that error from every tie, and near a
    tie either neighbour can come out.  The four weights sum to 1, as
    decimals and as the doubles they denote. *)
Theorem calculateStability_in_doubles
    (currentRound : RoundState.t) (previousRound : option RoundState.t)
    (evaluation : BlindEvaluation.t) :
  let m := StabilityTracker64.calculateStability currentRound previousRound evaluation
             StabilityTracker64.defaultConfig in
  let w := StabilityTracker.weights StabilityTracker64.defaultConfig in
  in01 (StabilityMetrics.contradiction_ratio m)
  /\ in01 (StabilityMetrics.decision_reuse_rate m)
  /\ in01 (StabilityMetrics.plan_similarity m)
  /\ in01 (StabilityMetrics.goal_convergence m)
  /\ in01 (StabilityMetrics.overall_stability m)
  /\ rounded2_within slack (convex_combination m) (StabilityMetrics.overall_stability m)
  /\ (forall k : Z,
        inject_Z k - (1 # 2) + slack < convex_combination m * 100 ->
        convex_combination m * 100 < inject_Z k + (1 # 2) - slack ->
        StabilityMetrics.overall_stability m == Float64.fl (inject_Z k / 100))
  /\ 0.30 + 0.25 + 0.25 + 0.20 == 1
  /\ Float64.add
       (Float64.add
          (Float64.add (StabilityTracker.contradictionRatio w)
                       (StabilityTracker.decisionReuseRate w))
          (StabilityTracker.planSimilarity w))
       (StabilityTracker.goalConvergence w) == 1.
Proof.
  cbv zeta. unfold StabilityTracker64.calculateStability, convex_combination.
  cbn [StabilityMetrics.contradiction_ratio StabilityMetrics.decision_reuse_rate
       StabilityMetrics.plan_similarity StabilityMetrics.goal_convergence
       StabilityMetrics.overall_stability].
  cbn [StabilityTracker.weights StabilityTracker64.defaultConfig
       StabilityTracker.contradictionRatio StabilityTracker.decisionReuseRate
       StabilityTracker.planSimilarity StabilityTracker.goalConvergence].
  set (cr := Float64.min _ 1).
  set (dr := StabilityTracker64.calculateDecisionReuseRate _ _).
  set (ps := StabilityTracker64.calculatePlanSimilarity _ _).
  set (gc := StabilityTracker64.calculateGoalConvergence _).
  assert (Hcr : in01 cr) by apply contradictionRatio_double_in01.
  assert (Hdr : in01 dr) by apply calculateDecisionReuseRate_double_in01.
  assert (Hps : in01 ps) by apply calculatePlanSimilarity_double_in01.
  assert (Hgc : in01 gc) by apply calculateGoalConvergence_double_in01.
  pose proof (overall_stability_double cr dr ps gc Hcr Hdr Hps Hgc) as Hov.
  refine (conj Hcr (conj Hdr (conj Hps (conj Hgc (conj _ (conj Hov (conj _ (conj _ _)))))))).
  - destruct Hov as (k & [K0 K1] & Hy & _). unfold in01. rewrite Hy.
    apply fl_in01.
    rewrite Zle_Qle in K0, K1.
    change (inject_Z 0) with 0 in K0. change (inject_Z 100) with 100 in K1. split.
    + apply Qle_shift_div_l; lra.
    + apply Qle_shift_div_r; lra.
  - intros k0 L U. destruct Hov as (k & _ & Hy & B1 & B2).
    assert (H1 : (k < k0 + 1)%Z).
    { rewrite Zlt_Qlt, inject_Z_plus. change (inject_Z 1) with 1. lra. }
    assert (H2 : (k0 < k + 1)%Z).
    { rewrite Zlt_Qlt, inject_Z_plus. change (inject_Z 1) with 1. lra. }
    replace k0 with k by lia. exact Hy.
  - reflexivity.
  - vm_compute. reflexivity.
Qed.

(** C5 (counterexample).  The plan repeats the previous goal in another
    case and keeps one of two constraints; the evaluation has five
    contradictions and is [closer] and [better].  The program computes the
    signals 1, 1, 0.5 and 1, all exact, whose convex combination is
    exactly 0.575: rounded to two decimals that is 0.58, under rounding
    halves up as under rounding halves to even.  The program returns 0.57:
    its sum of the products is the double just below 0.575, and one
    hundred times it the double just below 57.5. *)
Lemma exact_rounding_not_what_is_computed :
  let m := StabilityTracker64.calculateStability TieExample.current_round
             (Some TieExample.previous_round) TieExample.evaluation
             StabilityTracker64.defaultConfig in
  StabilityMetrics.contradiction_ratio m == 1
  /\ StabilityMetrics.decision_reuse_rate m == 1
  /\ StabilityMetrics.plan_similarity m == 0.5
  /\ StabilityMetrics.goal_convergence m == 1
  /\ convex_combination m == 0.575
  /\ rounded2 (convex_combination m) 0.58
  /\ Float64.rne (convex_combination m * 100) = 58%Z
  /\ StabilityMetrics.overall_stability m == Float64.fl 0.57
  /\ StabilityMetrics.overall_stability m < Float64.fl 0.58.
Proof.
  cbv zeta. refine (conj _ (conj _ (conj _ (conj _ (conj _ (conj _ (conj _ (conj _ _)))))))).
  - vm_compute. reflexivity.
  - vm_compute. reflexivity.
  - vm_compute. reflexivity.
  - vm_compute. reflexivity.
  - vm_compute. reflexivity.
  - exists 58%Z. vm_compute. repeat split; discriminate.
  - vm_compute. reflexivity.
  - vm_compute. reflexivity.
  - vm_compute. reflexivity.
Qed.

End StabilityDoubles.

(* ===================================================================== *)
(** ** Parsers: what text they consume, when they throw *)
(* ===================================================================== *)

Section BraceMatch.

Lemma greedy_to_close_none (s : string) :
  Spec.occurs "}" s = false -> JS.greedy_to_close s = None.
Proof.
  induction s as [| c s IH]; simpl; [reflexivity |].
  intro H. apply orb_false_iff in H. destruct H as [Hc Hs].
  rewrite (IH Hs), Hc. reflexivity.
Qed.

Lemma greedy_to_close_last (body after : string) :
  Spec.occurs "}" after = false ->
  JS.greedy_to_close (body ++ "}" ++ after) = Some (body ++ "}").
Proof.
  intro H. induction body as [| c body IH]; simpl.
  - rewrite (greedy_to_close_none after H). reflexivity.
  - simpl in IH. rewrite IH. reflexivity.
Qed.

Lemma match_braces_first (before rest : string) :
  Spec.occurs "{" before = false ->
  JS.match_braces (before ++ "{" ++ rest) = JS.match_braces ("{" ++ rest).
Proof.
  intro H. induction before as [| c before IH]; [reflexivity |].
  simpl in H. apply orb_false_iff in H. destruct H as [Hc Hb].
  change ((String c before ++ "{" ++ rest)) with (String c (before ++ "{" ++ rest)).
  cbn [JS.match_braces]. rewrite Hc. exact (IH Hb).
Qed.

(** The match runs from the first [{] to the last [}]. *)
Lemma match_braces_span (before body after : string) :
  Spec.occurs "{" before = false -> Spec.occurs "}" after = false ->
  JS.match_braces (before ++ ("{" ++ body ++ "}") ++ after) = Some ("{" ++ body ++ "}").
Proof.
  intros Hb Ha.
  replace (before ++ ("{" ++ body ++ "}") ++ after)
    with (before ++ "{" ++ (body ++ "}" ++ after)).
  - rewrite (match_braces_first _ _ Hb). simpl.
    pose proof (greedy_to_close_last body after Ha) as H. simpl in H. rewrite H.
    reflexivity.
  - simpl. f_equal. f_equal. induction body as [| c body IH]; simpl; congruence.
Qed.

End BraceMatch.

Section ParserFacts.
Context {host : Host}.

Lemma parseBlindEvaluation_by_match (r1 r2 : string) :
  JS.match_braces r1 = JS.match_braces r2 ->
  BlindJudge.parseBlindEvaluation r1 = BlindJudge.parseBlindEvaluation r2.
Proof.
  intro H. unfold BlindJudge.parseBlindEvaluation, BlindJudge.parseBlindEvaluation_try.
  rewrite H. reflexivity.
Qed.

Lemma parsePlanResponse_by_match (r1 r2 : string) (w : World) :
  JS.match_braces r1 = JS.match_braces r2 ->
  Planner.parsePlanResponse r1 w = Planner.parsePlanResponse r2 w.
Proof.
  intro H. unfold Planner.parsePlanResponse, Planner.parsePlanResponse_try, M.catch.
  rewrite H. reflexivity.
Qed.

(** C7 (as amended).  Both parsers consume the text from the first [{] of
    the response to its last [}]: text before that holds no [{] and text
    after that holds no [}] do not change what [parsePlanResponse] and
    [parseBlindEvaluation] return. *)
Theorem parsers_consume_first_open_to_last_close (before body after : string) :
  Spec.occurs "{" before = false ->
  Spec.occurs "}" after = false ->
  let block := "{" ++ body ++ "}" in
  let response := before ++ block ++ after in
  JS.match_braces response = Some block
  /\ BlindJudge.parseBlindEvaluation response = BlindJudge.parseBlindEvaluation block
  /\ (forall w, Planner.parsePlanResponse response w = Planner.parsePlanResponse block w).
Proof.
  intros Hb Ha block response.
  assert (Hr : JS.match_braces response = Some block)
    by exact (match_braces_span before body after Hb Ha).
  assert (Hk : JS.match_braces block = Some block).
  { pose proof (match_braces_span EmptyString body EmptyString eq_refl eq_refl) as H.
    simpl in H. replace ((body ++ "}") ++ EmptyString) with (body ++ "}") in H; [exact H |].
    clear. induction (body ++ "}") as [| c s IH]; simpl; congruence. }
  split; [exact Hr |]. split.
  - apply parseBlindEvaluation_by_match. congruence.
  - intro w. apply parsePlanResponse_by_match. congruence.
Qed.

(** *** The evaluation parser *)

Lemma filter_strings_entries (l : list JS.JSON) :
  JS.filter_strings l = Spec.string_entries (Some (JS.JArray l)).
Proof.
  simpl. induction l as [| e l IH]; simpl; [reflexivity |].
  destruct e; simpl; congruence.
Qed.

Lemma BlindJudge_validateStringArray_spec (v : option JS.JSON) :
  BlindJudge.validateStringArray v = firstn 10 (Spec.string_entries v)
  /\ List.length (BlindJudge.validateStringArray v) <= 10.
Proof.
  unfold BlindJudge.validateStringArray, JS.slice0.
  destruct v as [[| | | | l |] |];
    try (split; [reflexivity | apply Nat.le_0_l]).
  rewrite (filter_strings_entries l). split; [reflexivity |].
  apply firstn_le_length.
Qed.

Lemma JSON_eq_null (parsed : JS.JSON) : parsed = JS.JNull \/ parsed <> JS.JNull.
Proof. destruct parsed; [left; reflexivity | right; discriminate ..]. Qed.

Lemma get_not_null (parsed : JS.JSON) :
  parsed <> JS.JNull ->
  exists field, forall k, JS.get parsed k = inr (field k).
Proof.
  intro H. destruct parsed; try contradiction;
    try (exists (fun _ => None); reflexivity).
  exists (fun k => JS.lookup k members). reflexivity.
Qed.

Lemma validateComparison_previous (v : option JS.JSON) :
  let r := BlindJudge.validateComparison VsPrevious.name v
             [VsPrevious.better; VsPrevious.same; VsPrevious.worse] VsPrevious.same in
  (forall x, v = Some (JS.JString (VsPrevious.name x)) -> r = x)
  /\ ((forall x, v <> Some (JS.JString (VsPrevious.name x))) -> r = VsPrevious.same).
Proof.
  cbv zeta. split.
  - intros x ->. destruct x; reflexivity.
  - intro H. unfold BlindJudge.validateComparison.
    destruct v as [[| | | s | |] |]; try reflexivity. cbn -[String.eqb].
    destruct (String.eqb_spec "better" s) as [<- | _];
      [exfalso; exact (H VsPrevious.better eq_refl) |].
    destruct (String.eqb_spec "same" s) as [<- | _]; [reflexivity |].
    destruct (String.eqb_spec "worse" s) as [<- | _];
      [exfalso; exact (H VsPrevious.worse eq_refl) | reflexivity].
Qed.

Lemma validateComparison_goal (v : option JS.JSON) :
  let r := BlindJudge.validateComparison VsGoal.name v
             [VsGoal.closer; VsGoal.same; VsGoal.farther] VsGoal.same in
  (forall x, v = Some (JS.JString (VsGoal.name x)) -> r = x)
  /\ ((forall x, v <> Some (JS.JString (VsGoal.name x))) -> r = VsGoal.same).
Proof.
  cbv zeta. split.
  - intros x ->. destruct x; reflexivity.
  - intro H. unfold BlindJudge.validateComparison.
    destruct v as [[| | | s | |] |]; try reflexivity. cbn -[String.eqb].
    destruct (String.eqb_spec "closer" s) as [<- | _];
      [exfalso; exact (H VsGoal.closer eq_refl) |].
    destruct (String.eqb_spec "same" s) as [<- | _]; [reflexivity |].
    destruct (String.eqb_spec "farther" s) as [<- | _];
      [exfalso; exact (H VsGoal.farther eq_refl) | reflexivity].
Qed.

(** The four ways the [try] block of [parseBlindEvaluation] can go. *)
Lemma parseBlindEvaluation_try_cases (response : string) :
  (JS.match_braces response = None
   /\ exists error, BlindJudge.parseBlindEvaluation_try response = inl error)
  \/ (exists block error,
        JS.match_braces response = Some block /\ JSON_parse block = inl error
        /\ BlindJudge.parseBlindEvaluation_try response = inl error)
  \/ (exists block error,
        JS.match_braces response = Some block /\ JSON_parse block = inr JS.JNull
        /\ BlindJudge.parseBlindEvaluation_try response = inl error)
  \/ (exists block parsed field,
        JS.match_braces response = Some block /\ JSON_parse block = inr parsed
        /\ parsed <> JS.JNull
        /\ (forall k, JS.get parsed k = inr (field k))
        /\ BlindJudge.parseBlindEvaluation_try response
           = inr {| BlindEvaluation.vs_previous :=
                      BlindJudge.validateComparison VsPrevious.name (field "vs_previous")
                        [VsPrevious.better; VsPrevious.same; VsPrevious.worse]
                        VsPrevious.same;
                    BlindEvaluation.vs_goal :=
                      BlindJudge.validateComparison VsGoal.name (field "vs_goal")
                        [VsGoal.closer; VsGoal.same; VsGoal.farther] VsGoal.same;
                    BlindEvaluation.contradictions :=
                      BlindJudge.validateStringArray (field "contradictions");
                    BlindEvaluation.missing :=
                      BlindJudge.validateStringArray (field "missing");
                    BlindEvaluation.risks :=
                      BlindJudge.validateStringArray (field "risks") |}).
Proof.
  unfold BlindJudge.parseBlindEvaluation_try.
  destruct (JS.match_braces response) as [block |].
  2:{ left. split; [reflexivity | eexists; reflexivity]. }
  right. destruct (JSON_parse block) as [err | parsed] eqn:Hparse.
  { left. exists block, err. auto. }
  right. destruct (JSON_eq_null parsed) as [-> | Hn].
  { left. exists block. eexists. split; [reflexivity |]. split; [exact Hparse | reflexivity]. }
  right. destruct (get_not_null parsed Hn) as [field Hfield].
  exists block, parsed, field. repeat split; try assumption.
  unfold R.bind. rewrite !Hfield. reflexivity.
Qed.

(** C2.  [parseBlindEvaluation] returns an evaluation for every input and
    never throws.  When extraction or parsing throws, the result is exactly
    the conservative default; a throw can only come from a missing brace
    block, from [JSON.parse], or from reading a field of [null].  Otherwise
    each comparison field is the parsed value when that is one of the
    permitted names and [same] if not, and each list field holds the string
    entries of the parsed array (none if it is not an array), cut to the
    first 10. *)
Theorem parseBlindEvaluation_never_raises (response : string) :
  let e := BlindJudge.parseBlindEvaluation response in
  List.length (BlindEvaluation.contradictions e) <= 10
  /\ List.length (BlindEvaluation.missing e) <= 10
  /\ List.length (BlindEvaluation.risks e) <= 10
  /\ (forall error,
        BlindJudge.parseBlindEvaluation_try response = inl error ->
        e = {| BlindEvaluation.vs_previous := VsPrevious.same;
               BlindEvaluation.vs_goal := VsGoal.same;
               BlindEvaluation.contradictions := ["Evaluation parsing failed"];
               BlindEvaluation.missing := [];
               BlindEvaluation.risks := ["Unable to properly evaluate plan"] |})
  /\ (forall error,
        BlindJudge.parseBlindEvaluation_try response = inl error ->
        JS.match_braces response = None
        \/ exists block,
             JS.match_braces response = Some block
             /\ (JSON_parse block = inl error \/ JSON_parse block = inr JS.JNull))
  /\ (forall block parsed,
        JS.match_braces response = Some block ->
        JSON_parse block = inr parsed ->
        parsed <> JS.JNull ->
        exists field,
          (forall k, JS.get parsed k = inr (field k))
          /\ (forall x, field "vs_previous" = Some (JS.JString (VsPrevious.name x)) ->
                        BlindEvaluation.vs_previous e = x)
          /\ ((forall x, field "vs_previous" <> Some (JS.JString (VsPrevious.name x))) ->
              BlindEvaluation.vs_previous e = VsPrevious.same)
          /\ (forall x, field "vs_goal" = Some (JS.JString (VsGoal.name x)) ->
                        BlindEvaluation.vs_goal e = x)
          /\ ((forall x, field "vs_goal" <> Some (JS.JString (VsGoal.name x))) ->
              BlindEvaluation.vs_goal e = VsGoal.same)
          /\ BlindEvaluation.contradictions e
             = firstn 10 (Spec.string_entries (field "contradictions"))
          /\ BlindEvaluation.missing e
             = firstn 10 (Spec.string_entries (field "missing"))
          /\ BlindEvaluation.risks e
             = firstn 10 (Spec.string_entries (field "risks"))).
Proof.
  cbv zeta. unfold BlindJudge.parseBlindEvaluation.
  destruct (parseBlindEvaluation_try_cases response)
    as [(Hm & e & Ht) | [(block & e & Hm & Hp & Ht) | [(block & e & Hm & Hp & Ht)
        | (block & parsed & field & Hm & Hp & Hn & Hfield & Ht)]]];
    rewrite Ht.
  - cbn. repeat split; try lia.
    + intros; left; exact Hm.
    + intros ? ? H; congruence.
  - cbn. repeat split; try lia.
    + intros error H. injection H as <-. right. exists block. auto.
    + intros ? ? H H'. congruence.
  - cbn. repeat split; try lia.
    + intros error H. right. exists block. auto.
    + intros ? ? H H' N. congruence.
  - cbn [BlindEvaluation.vs_previous BlindEvaluation.vs_goal
         BlindEvaluation.contradictions BlindEvaluation.missing BlindEvaluation.risks].
    split; [apply BlindJudge_validateStringArray_spec |].
    split; [apply BlindJudge_validateStringArray_spec |].
    split; [apply BlindJudge_validateStringArray_spec |].
    split; [intros ? H; discriminate H |].
    split; [intros ? H; discriminate H |].
    intros block' parsed' Hb Hp' _.
    assert (parsed' = parsed) as -> by congruence.
    exists field. split; [exact Hfield |].
    split; [apply validateComparison_previous |].
    split; [apply validateComparison_previous |].
    split; [apply validateComparison_goal |].
    split; [apply validateComparison_goal |].
    repeat split; apply BlindJudge_validateStringArray_spec.
Qed.

(** *** The plan parser *)

Lemma Planner_validateStringArray_spec (v : option JS.JSON) :
  Planner.validateStringArray v = Spec.string_entries v.
Proof.
  unfold Planner.validateStringArray.
  destruct v as [[| | | | l |] |]; try reflexivity. apply filter_strings_entries.
Qed.

Lemma parseTask_returns (index : nat) (task : JS.JSON) (w : World) :
  task <> JS.JNull ->
  (forall v, JS.get task "description" = inr (Some v) ->
             exists s, Planner.String_of v = inr s) ->
  exists t w', Planner.parseTask index task w = (inr t, w').
Proof.
  intros Hn Hd. destruct (get_not_null task Hn) as [field Hfield].
  unfold Planner.parseTask, M.bind, M.lift, M.ret.
  destruct (Date_now w) as [now w']. rewrite !Hfield.
  destruct (field "description") as [v |] eqn:E.
  - destruct (JS.truthy (Some v)).
    + destruct (Hd v) as [s ->]; [rewrite Hfield, E; reflexivity |].
      eexists. eexists. reflexivity.
    + eexists. eexists. reflexivity.
  - eexists. eexists. reflexivity.
Qed.

Lemma mapTasks_returns (tasks : list JS.JSON) :
  Forall (fun task =>
            task <> JS.JNull
            /\ forall v, JS.get task "description" = inr (Some v) ->
                         exists s, Planner.String_of v = inr s) tasks ->
  forall (index : nat) (w : World),
  exists ts w',
    Planner.mapTasks index tasks w = (inr ts, w')
    /\ List.length ts = List.length tasks.
Proof.
  induction 1 as [| task tasks [Htask Hdesc] _ IH]; intros index w.
  - exists [], w. split; reflexivity.
  - destruct (parseTask_returns index task w Htask Hdesc) as (t & w1 & Ht).
    destruct (IH (S index) w1) as (ts & w2 & Hts & Hlen).
    exists (t :: ts), w2. cbn [Planner.mapTasks]. unfold M.bind at 1. rewrite Ht.
    unfold M.bind at 1. rewrite Hts. split; [reflexivity |]. simpl. congruence.
Qed.

(** When the brace block parses to a value other than [null], no entry of
    its [tasks] array is [null] and every description given can be
    converted to a string (it is no object with a [toString] member of its
    own, nor an array that holds one), [parsePlanResponse] returns a plan:
    its goals and constraints are the string entries of the parsed arrays
    (none when the key is absent or not an array), with one task for each
    entry of [tasks]. *)
Lemma parsePlanResponse_returns_plan (response block : string) (parsed : JS.JSON)
    (w : World) :
  JS.match_braces response = Some block ->
  JSON_parse block = inr parsed ->
  parsed <> JS.JNull ->
  (forall tasks, JS.get parsed "tasks" = inr (Some (JS.JArray tasks)) ->
                 ~ In JS.JNull tasks) ->
  (forall tasks task v,
     JS.get parsed "tasks" = inr (Some (JS.JArray tasks)) -> In task tasks ->
     JS.get task "description" = inr (Some v) ->
     exists s, Planner.String_of v = inr s) ->
  exists field plan w',
    (forall k, JS.get parsed k = inr (field k))
    /\ Planner.parsePlanResponse response w = (inr plan, w')
    /\ Plan.goals plan = Spec.string_entries (field "goals")
    /\ Plan.constraints plan = Spec.string_entries (field "constraints")
    /\ List.length (Plan.tasks plan)
       = match field "tasks" with
         | Some (JS.JArray tasks) => List.length tasks
         | _ => 0
         end.
Proof.
  intros Hm Hp Hn Htasks Hdescs. destruct (get_not_null parsed Hn) as [field Hfield].
  exists field.
  assert (Hts : exists ts w1 w2,
            w1 = snd (Date_now w)
            /\ Planner.parseTasks (field "tasks") w1 = (inr ts, w2)
            /\ List.length ts = match field "tasks" with
                                | Some (JS.JArray tasks) => List.length tasks
                                | _ => 0
                                end).
  { unfold Planner.parseTasks.
    destruct (field "tasks") as [[| | | | tasks |] |] eqn:E;
      try solve [exists []; exists (snd (Date_now w)); exists (snd (Date_now w));
                 repeat split].
    assert (Hall : Forall (fun task =>
                     task <> JS.JNull
                     /\ forall v, JS.get task "description" = inr (Some v) ->
                                  exists s, Planner.String_of v = inr s) tasks).
    { apply Forall_forall. intros task Hin. split.
      - intros ->. apply (Htasks tasks); [rewrite Hfield, E; reflexivity | exact Hin].
      - intros v Hv. apply (Hdescs tasks task v); [rewrite Hfield, E; reflexivity | |];
          assumption. }
    destruct (mapTasks_returns tasks Hall 0 (snd (Date_now w))) as (ts & w2 & H1 & H2).
    exists ts. exists (snd (Date_now w)). exists w2. auto. }
  destruct Hts as (ts & w1 & w2 & -> & Hts & Hlen).
  unfold Planner.parsePlanResponse, Planner.parsePlanResponse_try, M.catch.
  rewrite Hm. unfold M.bind, M.lift, M.ret. rewrite Hp.
  destruct (Date_now w) as [now w1] eqn:Hnow. rewrite !Hfield.
  cbn [snd] in Hts. rewrite Hts.
  destruct (Date_now w2) as [created w3].
  eexists. eexists. split; [exact Hfield |]. split; [reflexivity |].
  cbn [Plan.goals Plan.constraints Plan.tasks].
  rewrite !Planner_validateStringArray_spec. auto.
Qed.

End ParserFacts.

(** C10 (the failing input).  On the response [{"tasks":[null]}] the brace
    block is valid JSON, and [parsePlanResponse] throws: reading
    [description] of the [null] task raises a [TypeError], rethrown as a
    plan parsing failure. *)
Theorem parsePlanResponse_null_task_raises :
  JS.match_braces Examples.null_task_response = Some Examples.null_task_response
  /\ JsonText.parse Examples.null_task_response
     = inr (JS.JObject [("tasks", JS.JArray [JS.JNull])])
  /\ fst (Planner.parsePlanResponse (host := Scripted.host)
            Examples.null_task_response Examples.world0)
     = inl (JS.Error
              ("Plan parsing failed: TypeError: "
               ++ "Cannot read properties of null (reading 'description')")).
Proof. vm_compute. repeat split. Qed.

(** C7 (counterexample).  In [{"goals":["a"]} then {"goals":["b"]}] the
    first balanced block [{"goals":["a"]}] is valid JSON, yet the parser
    consumes the whole text and throws where the block alone gives a plan;
    likewise an evaluation followed by [ (see {notes})] parses to the
    conservative default instead of the evaluation of its first block. *)
Lemma first_balanced_block_not_what_is_consumed :
  Spec.first_balanced_block Examples.plan_response = Some Examples.plan_block
  /\ (exists v, JsonText.parse Examples.plan_block = inr v)
  /\ JS.match_braces Examples.plan_response <> Some Examples.plan_block
  /\ (exists e p,
        fst (Planner.parsePlanResponse (host := Scripted.host)
               Examples.plan_response Examples.world0) = inl e
        /\ fst (Planner.parsePlanResponse (host := Scripted.host)
                  Examples.plan_block Examples.world0) = inr p)
  /\ Spec.first_balanced_block Examples.evaluation_response
     = Some Examples.evaluation_block
  /\ (exists v, JsonText.parse Examples.evaluation_block = inr v)
  /\ BlindJudge.parseBlindEvaluation (host := Scripted.host) Examples.evaluation_response
     <> BlindJudge.parseBlindEvaluation (host := Scripted.host) Examples.evaluation_block.
Proof.
  split; [vm_compute; reflexivity |].
  split; [eexists; vm_compute; reflexivity |].
  split; [vm_compute; discriminate |].
  split; [eexists; eexists; split; vm_compute; reflexivity |].
  split; [vm_compute; reflexivity |].
  split; [eexists; vm_compute; reflexivity |].
  vm_compute. discriminate.
Qed.

(* ===================================================================== *)
(** ** Planner: validation against the locked structure *)
(* ===================================================================== *)

Section ValidatorFacts.
Import Planner.

Lemma lower_ascii_idem (c : ascii) : JS.lower_ascii (JS.lower_ascii c) = JS.lower_ascii c.
Proof.
  destruct c as [[] [] [] [] [] [] [] []]; vm_compute; reflexivity.
Qed.

Lemma toLowerCase_idem (s : string) : JS.toLowerCase (JS.toLowerCase s) = JS.toLowerCase s.
Proof.
  induction s as [| c s IH]; simpl; [reflexivity |].
  rewrite lower_ascii_idem, IH. reflexivity.
Qed.

(** The pieces of a lower-case string are lower-case. *)
Lemma split_lower (sep : ascii) (s : string) :
  JS.toLowerCase s = s ->
  Forall (fun t => JS.toLowerCase t = t) (JS.split sep s).
Proof.
  induction s as [| c s IH]; simpl; intro H.
  - constructor; [reflexivity | constructor].
  - injection H as Hc Hs. specialize (IH Hs).
    destruct (Ascii.eqb c sep).
    + constructor; [reflexivity | exact IH].
    + destruct (JS.split sep s) as [| w ws].
      * constructor; [simpl; rewrite Hc; reflexivity | constructor].
      * inversion IH as [| ? ? Hw Hws]; subst.
        constructor; [simpl; rewrite Hc, Hw; reflexivity | exact Hws].
Qed.

Lemma existsb_map {A B} (f : B -> bool) (g : A -> B) (l : list A) :
  existsb f (map g l) = existsb (fun a => f (g a)) l.
Proof. induction l as [| a l IH]; simpl; congruence. Qed.

(** Membership in the set of lower-cased plan goals. *)
Lemma planGoalsSet_has (plan : Plan.t) (lockedGoal : string) :
  negb (StrSet.has (StrSet.of_list (map JS.toLowerCase (Plan.goals plan)))
                   (JS.toLowerCase lockedGoal))
  = Spec.goal_missing plan lockedGoal.
Proof.
  unfold Spec.goal_missing. f_equal.
  rewrite <- (existsb_map (String.eqb (JS.toLowerCase lockedGoal)) JS.toLowerCase).
  apply eq_true_iff_eq. rewrite StrSet_has_In, StrSet_of_list_In.
  change (existsb (String.eqb (JS.toLowerCase lockedGoal))
            (map JS.toLowerCase (Plan.goals plan)))
    with (StrSet.has (map JS.toLowerCase (Plan.goals plan)) (JS.toLowerCase lockedGoal)).
  rewrite StrSet_has_In. reflexivity.
Qed.

(** [m < n * 0.5] on numbers is [2 * m < n] on the integers. *)
Lemma less_than_half (m n : nat) :
  Num.ltb (Num.of_nat m) (Num.of_nat n * 0.5)%Q = (2 * m <? n).
Proof.
  unfold Num.ltb, Num.of_nat. apply eq_true_iff_eq.
  rewrite negb_true_iff, Nat.ltb_lt, <- not_true_iff_false, Qle_bool_iff.
  unfold Qle. cbn [Qnum Qden Qmult inject_Z]. lia.
Qed.

Lemma keywords_under_half (plan : Plan.t) (decision : string) :
  (2 * matchCount (JS.toLowerCase (stringify_plan plan)) (keywords decision)
   <? List.length (keywords decision))
  = Spec.decision_uncovered plan decision.
Proof.
  unfold Spec.decision_uncovered, Spec.under_half, matchCount, keywords.
  f_equal. f_equal. f_equal. apply filter_ext_in.
  intros t Ht. apply filter_In in Ht. destruct Ht as [Ht _].
  unfold Spec.appears.
  pose proof (split_lower " " _ (toLowerCase_idem decision)) as Hall.
  rewrite Forall_forall in Hall. rewrite (Hall t Ht). reflexivity.
Qed.

Lemma goals_loop (plan : Plan.t) (lockedGoals acc : list string) :
  fold_left (check_goal (StrSet.of_list (map JS.toLowerCase (Plan.goals plan))))
    lockedGoals acc
  = (acc ++ map goal_violation (filter (Spec.goal_missing plan) lockedGoals))%list.
Proof.
  revert acc. induction lockedGoals as [| g gs IH]; intro acc; cbn [fold_left filter map].
  - rewrite app_nil_r. reflexivity.
  - rewrite IH. unfold check_goal. rewrite planGoalsSet_has.
    destruct (Spec.goal_missing plan g); cbn [map];
      [rewrite <- app_assoc |]; reflexivity.
Qed.

Lemma decisions_loop (plan : Plan.t) (decisions acc : list string) :
  fold_left (check_decision (JS.toLowerCase (stringify_plan plan))) decisions acc
  = (acc ++ map decision_violation (filter (Spec.decision_uncovered plan) decisions))%list.
Proof.
  revert acc. induction decisions as [| d ds IH]; intro acc; cbn [fold_left filter map].
  - rewrite app_nil_r. reflexivity.
  - rewrite IH. unfold check_decision. cbv zeta.
    rewrite less_than_half, keywords_under_half.
    destruct (Spec.decision_uncovered plan d); cbn [map];
      [rewrite <- app_assoc |]; reflexivity.
Qed.

(** C8 (as amended).  [validateAgainstLockedStructure] reports, in order,
    [Locked goal removed: "<goal>"] for exactly the locked goals that equal
    no plan goal up to case, then [Core decision may be violated:
    "<decision>"] for exactly the locked core decisions of which, after
    lower-casing the decision, splitting it at every space character and
    keeping the tokens longer than 4, fewer than half occur in the
    lower-cased serialized plan; [valid] is true iff no violation is
    reported.  The function is total: it never throws. *)
Theorem validateAgainstLockedStructure_violations
    (plan : Plan.t) (lockedStructure : LockedStructure.t) :
  let r := validateAgainstLockedStructure plan lockedStructure in
  violations r
  = (map (fun goal =>
            ("Locked goal removed: " ++ JS.str JS.dquote ++ goal ++ JS.str JS.dquote)%string)
       (filter (Spec.goal_missing plan) (LockedStructure.goals lockedStructure))
     ++ map (fun decision =>
               ("Core decision may be violated: "
                ++ JS.str JS.dquote ++ decision ++ JS.str JS.dquote)%string)
          (filter (Spec.decision_uncovered plan)
             (LockedStructure.core_decisions lockedStructure)))%list
  /\ (valid r = true <-> violations r = []).
Proof.
  cbv zeta. unfold validateAgainstLockedStructure.
  cbn [violations valid]. rewrite goals_loop, decisions_loop. split.
  - reflexivity.
  - rewrite Nat.eqb_eq. apply length_zero_iff_nil.
Qed.

(** C8 (counterexample).  For the locked decision [alpha<TAB>bravo] and a
    plan whose goals are [alpha] and [bravo], splitting on white space
    gives two tokens that both occur in the serialized plan, so by the
    wording of the claim no violation is due; the code, which splits at
    space characters only, reports the decision. *)
Lemma whitespace_split_not_what_is_checked :
  Spec.split_whitespace Examples.tab_decision = ["alpha"; "bravo"]
  /\ Spec.decision_uncovered_whitespace Examples.alpha_bravo_plan Examples.tab_decision
     = false
  /\ violations (validateAgainstLockedStructure Examples.alpha_bravo_plan
                   Examples.tab_locked)
     = [decision_violation Examples.tab_decision].
Proof. vm_compute. repeat split. Qed.

End ValidatorFacts.

(* ===================================================================== *)
(** ** Orchestrator: reasoning rules for stateful code *)
(* ===================================================================== *)

Section WpRules.
Context {S : Type}.

Lemma wp_ret {A} (a : A) (Q : JS.exn + A -> S -> Prop) (s : S) :
  Q (inr a) s -> M.wp (M.ret a) Q s.
Proof. exact (fun H => H). Qed.

Lemma wp_throw {A} (e : JS.exn) (Q : JS.exn + A -> S -> Prop) (s : S) :
  Q (inl e) s -> M.wp (M.throw e) Q s.
Proof. exact (fun H => H). Qed.

Lemma wp_lift {A} (r : JS.exn + A) (Q : JS.exn + A -> S -> Prop) (s : S) :
  Q r s -> M.wp (M.lift r) Q s.
Proof. exact (fun H => H). Qed.

Lemma wp_gets {A} (f : S -> A) (Q : JS.exn + A -> S -> Prop) (s : S) :
  Q (inr (f s)) s -> M.wp (M.gets f) Q s.
Proof. exact (fun H => H). Qed.

Lemma wp_modify (f : S -> S) (Q : JS.exn + unit -> S -> Prop) (s : S) :
  Q (inr tt) (f s) -> M.wp (M.modify f) Q s.
Proof. exact (fun H => H). Qed.

Lemma wp_bind {A B} (m : M.t S A) (k : A -> M.t S B)
    (Q : JS.exn + B -> S -> Prop) (s : S) :
  M.wp m (fun r s' => match r with
                      | inr a => M.wp (k a) Q s'
                      | inl e => Q (inl e) s'
                      end) s ->
  M.wp (M.bind m k) Q s.
Proof.
  unfold M.wp, M.bind. destruct (m s) as [[e | a] s']; simpl; exact (fun H => H).
Qed.

Lemma wp_catch {A} (m : M.t S A) (h : JS.exn -> M.t S A)
    (Q : JS.exn + A -> S -> Prop) (s : S) :
  M.wp m (fun r s' => match r with
                      | inr a => Q (inr a) s'
                      | inl e => M.wp (h e) Q s'
                      end) s ->
  M.wp (M.catch m h) Q s.
Proof.
  unfold M.wp, M.catch. destruct (m s) as [[e | a] s']; simpl; exact (fun H => H).
Qed.

Lemma wp_mono {A} (m : M.t S A) (Q Q' : JS.exn + A -> S -> Prop) (s : S) :
  M.wp m Q s -> (forall r s', Q r s' -> Q' r s') -> M.wp m Q' s.
Proof. unfold M.wp. intros H HQ. apply HQ, H. Qed.

Lemma wp_zoom {T A} (get : T -> S) (put : S -> T -> T) (m : M.t S A)
    (Q : JS.exn + A -> T -> Prop) (t : T) :
  (forall r s', Q r (put s' t)) -> M.wp (M.zoom get put m) Q t.
Proof.
  unfold M.wp, M.zoom. intro H. destruct (m (get t)) as [r s']. simpl. apply H.
Qed.

End WpRules.

(** One step of weakest-precondition reasoning on the head of a program. *)
Ltac wp_step :=
  lazymatch goal with
  | |- M.wp (M.bind _ _) _ _ => apply wp_bind
  | |- M.wp (M.ret _) _ _ => apply wp_ret
  | |- M.wp (M.throw _) _ _ => apply wp_throw
  | |- M.wp (M.lift _) _ _ => apply wp_lift
  | |- M.wp (M.gets _) _ _ => apply wp_gets
  | |- M.wp (M.modify _) _ _ => apply wp_modify
  | |- M.wp (M.zoom _ _ _) _ _ => apply wp_zoom; intros ? ?
  | |- M.wp (M.catch _ _) _ _ => apply wp_catch
  end.

(* ===================================================================== *)
(** ** Orchestrator: rounds, the locked structure, failures *)
(* ===================================================================== *)

Section OrchestratorFacts.
Context {host : Host} {wording : Wording}.
Variable config : Orchestrator.OrchestratorConfig.
Import Orchestrator Runs.

Lemma rounds_started_app (a b : list HookCall) :
  rounds_started (a ++ b) = rounds_started a + rounds_started b.
Proof.
  induction a as [| h a IH]; simpl; [reflexivity |].
  destruct h; simpl; rewrite IH; reflexivity.
Qed.

Lemma rounds_started_log (calls : list HookCall) (t : LogType) (m : string) :
  rounds_started (calls ++ [onLog t m]) = rounds_started calls.
Proof. rewrite rounds_started_app. simpl. lia. Qed.

Lemma quiet_log (t : LogType) (m : string) : quiet (log t m).
Proof.
  intros Q o H. unfold log, call. wp_step. apply H; cbn [state hooks].
  - reflexivity.
  - apply rounds_started_log.
Qed.

Lemma quiet_ret {A} (a : A) : quiet (M.ret a : Op A).
Proof. intros Q o H. wp_step. apply H; reflexivity. Qed.

Lemma quiet_aiProvider (prompt : string) : quiet (aiProvider prompt).
Proof.
  intros Q o H. unfold aiProvider, on_world. wp_step. apply H; reflexivity.
Qed.

Lemma quiet_bind {A B} (m : Op A) (k : A -> Op B) :
  quiet m -> (forall a, quiet (k a)) -> quiet (M.bind m k).
Proof.
  intros Hm Hk Q o H. wp_step. apply Hm. intros r o1 Hs Hh.
  destruct r as [e | a].
  - apply H; assumption.
  - apply Hk. intros r o2 Hs2 Hh2. apply H; congruence.
Qed.

Lemma quiet_gets {A} (f : Run -> A) : quiet (M.gets f).
Proof. intros Q o H. wp_step. apply H; reflexivity. Qed.

Lemma quiet_lift {A} (r : JS.exn + A) : quiet (M.lift r : Op A).
Proof. intros Q o H. wp_step. apply H; reflexivity. Qed.

Lemma quiet_on_world {A} (m : M.t World A) : quiet (on_world m).
Proof. intros Q o H. unfold on_world. wp_step. apply H; reflexivity. Qed.

Ltac quiet_step :=
  lazymatch goal with
  | |- quiet (M.bind _ _) => apply quiet_bind; [| intro]
  | |- quiet (M.ret _) => apply quiet_ret
  | |- quiet (M.lift _) => apply quiet_lift
  | |- quiet (M.gets _) => apply quiet_gets
  | |- quiet (log _ _) => apply quiet_log
  | |- quiet (aiProvider _) => apply quiet_aiProvider
  | |- quiet (on_world _) => apply quiet_on_world
  | |- quiet (match ?x with _ => _ end) => destruct x
  | |- quiet (if ?b then _ else _) => destruct b
  end.

Lemma quiet_generatePlan : quiet generatePlan.
Proof. unfold generatePlan, getState. repeat quiet_step. Qed.

Lemma quiet_evaluatePlan (plan : Plan.t) : quiet (evaluatePlan plan).
Proof. unfold evaluatePlan, getState. repeat quiet_step. Qed.


Ltac wp_next := wp_step; cbv beta iota; cbn [state hooks world].

Ltac fields :=
  cbn [state hooks world currentRound roundHistory goal context isRunning lastResult
       set_currentRound set_roundHistory set_goal set_context set_isRunning
       set_lastResult set_plan set_evaluation set_stability set_locked_structure
       RoundState.number RoundState.phase RoundState.plan RoundState.evaluation
       RoundState.stability RoundState.locked_structure
       RoundResult.round RoundResult.plan RoundResult.evaluation
       RoundResult.stability RoundResult.decision] in *.

(** The state at the start of a round, as [startNewRound] leaves it. *)
Lemma startNewRound_state (s : OrchestratorState) :
  let n := RoundState.number (currentRound s) in
  exists s1,
    (if 0 <? n then set_roundHistory (roundHistory s ++ [currentRound s]) s else s) = s1
    /\ goal s1 = goal s /\ context s1 = context s
    /\ isRunning s1 = isRunning s /\ lastResult s1 = lastResult s
    /\ roundHistory s1 = (if 0 <? n then (roundHistory s ++ [currentRound s])%list
                          else roundHistory s)
    /\ currentRound s1 = currentRound s.
Proof.
  cbv zeta. eexists. split; [reflexivity |].
  destruct (0 <? RoundState.number (currentRound s)); repeat split.
Qed.

Lemma executeRound_effect (o : Run) :
  M.wp (executeRound config) (round_effect config o) o.
Proof.
  destruct o as [w s h]. unfold round_effect. cbv zeta. fields.
  unfold executeRound. wp_next. unfold startNewRound, update. wp_next. cbv zeta.
  destruct (startNewRound_state s) as (s1 & -> & Hg & Hc & Hr & Hl & Hh & Hcur).
  rewrite Hcur. rewrite <- Hg, <- Hc, <- Hr, <- Hl, <- Hh. clear Hg Hc Hr Hl Hh Hcur.
  set (n := RoundState.number (currentRound s)). clearbody n. 
  unfold getState. wp_next. wp_next. cbv zeta. fields.
  unfold call. wp_next. wp_next. wp_next. unfold log, call. wp_next. wp_next.
  apply quiet_generatePlan. intros r [w1 s2 h1] Hs Hh. fields. subst s2.
  assert (Hstart : rounds_started h1 = S (rounds_started h)).
  { rewrite Hh, rounds_started_log, rounds_started_app. simpl. lia. }
  clear Hh.
  destruct r as [e | plan].
  { fields. repeat split; try assumption. left. split; reflexivity. }
  unfold update_round, update. wp_next. wp_next. fields.
  unfold log, call. wp_next. wp_next. fields.
  wp_next.
  assert (Hlock :
    M.wp (if n + 1 =? 1
          then M.bind
                 (M.modify (fun r : Run =>
                    {| world := world r;
                       state := set_currentRound
                                  (set_locked_structure
                                     (Some (Planner.createLockedStructure plan (n + 1)))
                                     (currentRound (state r))) (state r);
                       hooks := hooks r |}))
                 (fun _ => M.modify (fun r : Run =>
                    {| world := world r; state := state r;
                       hooks := (hooks r ++ [onLog log_decision
                          "Structure LOCKED - future rounds can only refine"])%list |}))
          else M.ret tt)
      (fun r o' =>
         r = inr tt /\ world o' = w1
         /\ rounds_started (hooks o') = S (rounds_started h)
         /\ state o' =
            set_currentRound
              {| RoundState.number := n + 1;
                 RoundState.phase := if n + 1 =? 1 then ARCHITECT else REFINER;
                 RoundState.plan := Some plan;
                 RoundState.evaluation := None;
                 RoundState.stability := None;
                 RoundState.locked_structure :=
                   if n + 1 =? 1
                   then Some (Planner.createLockedStructure plan (n + 1))
                   else RoundState.locked_structure (currentRound s) |} s1)
      {| world := w1;
         state := set_currentRound
                    {| RoundState.number := n + 1;
                       RoundState.phase := if n + 1 =? 1 then ARCHITECT else REFINER;
                       RoundState.plan := Some plan;
                       RoundState.evaluation := None;
                       RoundState.stability := None;
                       RoundState.locked_structure :=
                         if n + 1 =? 1 then None
                         else RoundState.locked_structure (currentRound s) |} s1;
         hooks := (h1 ++ [onLog log_decision
                            ("Plan generated with "
                             ++ JS.of_nat (List.length (Plan.tasks plan)) ++ " tasks")])%list |}).
  { destruct (n + 1 =? 1).
    - wp_next. wp_next. wp_next. fields.
      rewrite !rounds_started_log. auto.
    - wp_next. rewrite rounds_started_log. auto. }
  eapply wp_mono; [exact Hlock |]. clear Hlock.
  intros r [w2 s2 h2] (-> & Hw & Hst & Hs). fields. subst w2 s2.
  wp_next. apply quiet_evaluatePlan. intros r [w3 s3 h3] Hs Hh. fields. subst s3.
  rewrite Hst in Hh. clear Hst h2. 
  destruct r as [e | evaluation].
  { fields. repeat split; try assumption. right. exists plan. split; reflexivity. }
  wp_next. wp_next. fields. wp_next. wp_next. wp_next. cbv zeta. fields.
  wp_next. wp_next. wp_next. wp_next. wp_next. cbv zeta. fields.
  wp_next. cbv zeta. fields.
  repeat first
    [ wp_next
    | match goal with |- M.wp (if ?b then _ else _) _ _ => destruct b end ];
    fields; rewrite ?rounds_started_app; cbn [rounds_started];
    rewrite ?Nat.add_0_r.
  all: repeat split; try assumption; try reflexivity.
Qed.


(** *** Rounds and the locked structure *)

Lemma rounds_from_snoc (plan1 : Plan.t) (l : list RoundState.t) (r : RoundState.t) (i : nat) :
  rounds_from plan1 i (l ++ [r])
  <-> rounds_from plan1 i l
      /\ RoundState.number r = S (i + List.length l)
      /\ RoundState.phase r = (if i + List.length l =? 0 then ARCHITECT else REFINER)
      /\ RoundState.locked_structure r = Some (locked_from plan1)
      /\ (i + List.length l = 0 -> RoundState.plan r = Some plan1).
Proof.
  revert i. induction l as [| x l IH]; intro i; simpl.
  - rewrite Nat.add_0_r. tauto.
  - rewrite (IH (S i)). replace (S i + List.length l) with (i + S (List.length l)) by lia.
    tauto.
Qed.

Lemma rounds_from_nth (plan1 : Plan.t) (rs : list RoundState.t) (i j : nat) (r : RoundState.t) :
  rounds_from plan1 i rs -> nth_error rs j = Some r ->
  RoundState.number r = S (i + j)
  /\ RoundState.phase r = (if i + j =? 0 then ARCHITECT else REFINER)
  /\ RoundState.locked_structure r = Some (locked_from plan1)
  /\ (i + j = 0 -> RoundState.plan r = Some plan1).
Proof.
  revert i j. induction rs as [| x rs IH]; intros i j H Hn.
  - destruct j; discriminate Hn.
  - destruct H as (H1 & H2 & H3 & H4 & Hrest). destruct j as [| j]; simpl in Hn.
    + injection Hn as <-. rewrite Nat.add_0_r. auto.
    + replace (i + S j) with (S i + j) by lia. exact (IH (S i) j Hrest Hn).
Qed.

Lemma rounds_from_locked (plan1 : Plan.t) (rs : list RoundState.t) :
  rounds_from plan1 0 rs -> later_rounds_locked rs.
Proof.
  intros H i r Hn Hi.
  destruct (rounds_from_nth plan1 rs 0 i r H Hn) as (N & P & L & _).
  simpl in N, P. split; [exact N |]. split.
  - destruct i; [lia | exact P].
  - destruct rs as [| round1 rest]; [destruct i; discriminate Hn |].
    exists round1, plan1. split; [reflexivity |]. split; [| exact L].
    destruct H as (_ & _ & _ & Hp & _). exact (Hp eq_refl).
Qed.

Lemma single_round_locked (r : RoundState.t) : later_rounds_locked [r].
Proof.
  intros i x Hn Hi. destruct i as [| [| i]]; [lia | discriminate Hn | discriminate Hn].
Qed.

Lemma in_round_locked (s : OrchestratorState) :
  in_round s -> later_rounds_locked (rounds s).
Proof.
  intros (_ & _ & _ & [Hnil | (p & Hp)]).
  - unfold rounds. rewrite Hnil. apply single_round_locked.
  - exact (rounds_from_locked p _ Hp).
Qed.

Lemma settled_in_round (s : OrchestratorState) : settled s -> in_round s.
Proof. intros (H1 & H2 & H3 & H4). repeat split; auto. Qed.

Lemma initial_locked (s : OrchestratorState) :
  initial s -> later_rounds_locked (rounds s).
Proof.
  intros (_ & _ & Hnil & _). unfold rounds. rewrite Hnil. apply single_round_locked.
Qed.

(** A round that ends with a decision leaves the orchestrator settled. *)
Lemma round_settles (o o' : Run) (result : RoundResult.t) :
  initial (state o) \/ settled (state o) ->
  round_effect config o (inr result) o' ->
  settled (state o').
Proof.
  unfold round_effect. cbv zeta.
  intros Pre (_ & _ & Hr & Hl & Hh & Hn & Hp & _ & _ & Hplan & _ & _ & Hlock & _).
  destruct Pre as [(I1 & I2 & I3 & I4) | (S1 & S2 & S3 & p1 & S4)].
  - rewrite I4 in *. rewrite I3 in *. simpl in Hh, Hn, Hp, Hlock.
    repeat split; try congruence.
    + rewrite Hh. simpl. exact Hn.
    + exists (RoundResult.plan result). unfold rounds. rewrite Hh. simpl.
      repeat split; auto.
  - rewrite S3 in *. simpl in Hh.
    replace (S (List.length (roundHistory (state o))) + 1 =? 1) with false in *
      by (symmetry; apply Nat.eqb_neq; lia).
    repeat split; try congruence.
    + rewrite Hh, length_app, Hn. simpl. lia.
    + exists p1. unfold rounds. rewrite Hh. apply rounds_from_snoc.
      split; [exact S4 |]. rewrite length_app. simpl.
      destruct (proj1 (rounds_from_snoc _ _ _ _) S4) as (_ & _ & _ & L & _).
      repeat split.
      * rewrite Hn. lia.
      * rewrite Hp. replace (List.length (roundHistory (state o)) + 1)
          with (S (List.length (roundHistory (state o)))) by lia. reflexivity.
      * rewrite Hlock. exact L.
      * lia.
Qed.

(** A round abandoned by a throw leaves the orchestrator in a round. *)
Lemma round_abandoned (o o' : Run) (e : JS.exn) :
  initial (state o) \/ settled (state o) ->
  round_effect config o (inl e) o' ->
  in_round (state o').
Proof.
  unfold round_effect. cbv zeta.
  intros Pre (_ & _ & Hr & Hl & Hh & Hn & Hp & _ & _ & Hlock).
  destruct Pre as [(I1 & I2 & I3 & I4) | (S1 & S2 & S3 & p1 & S4)].
  - rewrite I4 in *. rewrite I3 in *. simpl in Hh, Hn.
    repeat split; try congruence.
    + rewrite Hh. simpl. exact Hn.
    + left. exact Hh.
  - rewrite S3 in *. simpl in Hh.
    replace (S (List.length (roundHistory (state o))) + 1 =? 1) with false in *
      by (symmetry; apply Nat.eqb_neq; lia).
    repeat split; try congruence.
    + rewrite Hh, length_app, Hn. simpl. lia.
    + right. exists p1. unfold rounds. rewrite Hh. apply rounds_from_snoc.
      split; [exact S4 |]. rewrite length_app. simpl.
      destruct (proj1 (rounds_from_snoc _ _ _ _) S4) as (_ & _ & _ & L & _).
      repeat split.
      * rewrite Hn. lia.
      * rewrite Hp. replace (List.length (roundHistory (state o)) + 1)
          with (S (List.length (roundHistory (state o)))) by lia. reflexivity.
      * destruct Hlock as [(_ & ->) | (p & _ & ->)]; exact L.
      * lia.
Qed.


(** *** Termination, the loop, [execute] *)

Lemma terminate_effect (roundResult : RoundResult.t) (o : Run) :
  M.wp (terminate roundResult)
    (fun r o' =>
       exists result,
         r = inr result
         /\ ExecutionResult.round result = RoundResult.round roundResult
         /\ ExecutionResult.terminated result = true
         /\ state o' = set_lastResult (Some result) (set_isRunning false (state o))
         /\ rounds_started (hooks o') = rounds_started (hooks o)) o.
Proof.
  destruct o as [w s h]. unfold terminate, update, log, call.
  repeat wp_next. cbv zeta. repeat wp_next.
  eexists. split; [reflexivity |]. fields.
  rewrite !rounds_started_app. cbn [rounds_started ExecutionResult.round
    ExecutionResult.terminated]. repeat split. lia.
Qed.

Lemma loop_spec (fuel : nat) :
  forall o : Run,
    initial (state o) \/ settled (state o) ->
    M.wp (loop config fuel) (loop_outcome config o fuel) o.
Proof.
  induction fuel as [| fuel IH]; intros o Pre.
  - cbn [loop]. wp_next. unfold loop_outcome. cbv zeta.
    refine (conj _ (conj _ (conj _ _))).
    + destruct Pre as [I | St]; [apply initial_locked, I |].
      apply in_round_locked, settled_in_round, St.
    + lia.
    + lia.
    + simpl. lia.
  - cbn [loop]. wp_next. unfold getState. wp_next.
    assert (Run : isRunning (state o) = true).
    { destruct Pre as [(H & _) | (H & _)]; exact H. }
    rewrite Run. wp_next.
    eapply wp_mono; [apply executeRound_effect |].
    intros r o1 Eff. destruct r as [e | roundResult].
    + (* the round threw *)
      pose proof (round_abandoned o o1 e Pre Eff) as Hin.
      unfold round_effect in Eff. cbv zeta in Eff.
      destruct Eff as (_ & _ & _ & _ & _ & Hn & _ & Hst & Hnone & _).
      unfold loop_outcome. cbv zeta.
      refine (conj _ (conj _ (conj _ (conj Hin Hnone)))).
      * apply in_round_locked, Hin.
      * lia.
      * lia.
    + (* the round ended with a decision *)
      pose proof (round_settles o o1 roundResult Pre Eff) as Hset.
      unfold round_effect in Eff. cbv zeta in Eff.
      destruct Eff as (_ & _ & _ & _ & _ & Hn & _ & Hst & Hround & _ & _ & _ & _ & Hdec).
      destruct (TerminationDecision.should_terminate (RoundResult.decision roundResult))
        eqn:Hterm.
      * wp_next. eapply wp_mono; [apply terminate_effect |].
        intros r o2 (result & -> & Hr & Ht & Hs2 & Hh2). wp_next.
        unfold loop_outcome. cbv zeta. rewrite Hs2. fields.
        assert (Hrounds : rounds (set_lastResult (Some result)
                                    (set_isRunning false (state o1))) = rounds (state o1))
          by reflexivity.
        rewrite Hrounds.
        refine (conj _ (conj _ (conj _ (conj _ (conj Ht (conj eq_refl eq_refl)))))).
        -- apply in_round_locked, settled_in_round, Hset.
        -- lia.
        -- lia.
        -- congruence.
      * (* not terminating: the round number is below [maxRounds] *)
        assert (Hbelow :
          (Z.of_nat (RoundState.number (currentRound (state o1))) < maxRounds config)%Z).
        { destruct (Z_lt_le_dec (Z.of_nat (RoundState.number (currentRound (state o1))))
                      (maxRounds config)) as [Hlt | Hge]; [exact Hlt |].
          rewrite Hdec in Hterm.
          rewrite max_rounds_terminates in Hterm; [discriminate Hterm | exact Hge]. }
        eapply wp_mono; [apply (IH o1); right; exact Hset |].
        intros r o2. unfold loop_outcome. cbv zeta.
        intros (Hlocked & Hcount & Hbound & Hcase).
        refine (conj Hlocked (conj _ (conj _ _))).
        -- lia.
        -- intros _. apply Hbound, Hbelow.
        -- destruct r as [e | [result |]]; try exact Hcase.
           intros _. specialize (Hcase Hbelow). lia.
Qed.

Lemma on_error_effect (e : JS.exn) (o : Run) :
  RoundState.stability (currentRound (state o)) = None ->
  M.wp (on_error e)
    (fun r o' =>
       r = inr (Some (failure_result e (RoundState.number (currentRound (state o)))))
       /\ state o' = state o
       /\ rounds_started (hooks o') = rounds_started (hooks o)) o.
Proof.
  intro Hnone. destruct o as [w s h]. unfold on_error, log, call, getState.
  repeat wp_next. fields. rewrite Hnone, rounds_started_log. repeat split.
Qed.

(** Every way [execute] can end. *)
Lemma execute_outcomes (fuel : nat) (goal context : string) (o : Run) :
  M.wp (execute config fuel goal context) (execute_outcome config o fuel) o.
Proof.
  destruct o as [w s h]. unfold execute, update, log, call.
  repeat wp_next.
  set (o0 := {| world := w;
                state := set_isRunning true (set_context context
                           (set_goal goal createInitialState));
                hooks := (h ++ [onLog log_round_start
                                  ("Starting orchestration for: " ++ goal)])%list |}).
  assert (Pre : initial (state o0) \/ settled (state o0)).
  { left. repeat split. }
  eapply wp_mono; [apply (loop_spec fuel o0 Pre) |].
  intros r o1. unfold loop_outcome. cbv zeta.
  change (RoundState.number (currentRound (state o0))) with 0.
  replace (rounds_started (hooks o0)) with (rounds_started h)
    by (unfold o0; cbn [hooks]; rewrite rounds_started_log; reflexivity).
  intros (Hlocked & Hcount & Hbound & Hcase).
  destruct r as [e | [result |]].
  - destruct Hcase as [Hin Hnone].
    eapply wp_mono; [apply (on_error_effect e o1 Hnone) |].
    intros r o2 (-> & Hs & Hh). unfold execute_outcome. cbv zeta.
    rewrite Hs, Hh. cbn [hooks].
    refine (conj Hlocked (conj _ (conj Hbound (conj eq_refl (conj eq_refl _))))).
    + lia.
    + right. exists e. destruct Hin as (R & L & _). auto.
  - unfold execute_outcome. cbv zeta. cbn [hooks].
    destruct Hcase as (Hr & Ht & Hl & Hrun).
    refine (conj Hlocked (conj _ (conj Hbound (conj Hr (conj Ht _))))); [lia | auto].
  - unfold execute_outcome. cbv zeta. cbn [hooks].
    refine (conj Hlocked (conj _ (conj Hbound _))); [lia |].
    intro Hpos. specialize (Hcase Hpos). lia.
Qed.

(** C3.  With a positive [maxRounds], no run of [execute] goes beyond
    [maxRounds] rounds, whatever the model answers: at a round number
    [>= maxRounds] the decision of [makeTerminationDecision] is always to
    terminate, so the loop stops; the rounds started, the final round
    number and the round of the returned result are all at most
    [maxRounds], and [maxRounds] iterations of the loop are enough for
    [execute] to return a result. *)
Theorem execute_round_bound (fuel : nat) (goal context : string) (o : Run) :
  (0 < maxRounds config)%Z ->
  (forall c cfg,
     (DecisionEngine.maxRounds cfg
      <= Z.of_nat (RoundState.number (DecisionEngine.currentRound c)))%Z ->
     TerminationDecision.should_terminate
       (DecisionEngine.makeTerminationDecision c cfg) = true)
  /\ (let r := fst (execute config fuel goal context o) in
      let o' := snd (execute config fuel goal context o) in
      (Z.of_nat (RoundState.number (currentRound (state o'))) <= maxRounds config)%Z
      /\ (Z.of_nat (rounds_started (hooks o') - rounds_started (hooks o))
          <= maxRounds config)%Z
      /\ rounds_started (hooks o') - rounds_started (hooks o)
         = RoundState.number (currentRound (state o'))
      /\ (forall result,
            r = inr (Some result) ->
            (Z.of_nat (ExecutionResult.round result) <= maxRounds config)%Z)
      /\ (Z.to_nat (maxRounds config) <= fuel -> exists result, r = inr (Some result))).
Proof.
  intro Hpos. split; [intros c cfg; apply max_rounds_terminates |].
  pose proof (execute_outcomes fuel goal context o) as H.
  unfold M.wp, execute_outcome in H. cbv zeta in *.
  destruct H as (_ & Hcount & Hbound & Hcase). specialize (Hbound Hpos).
  refine (conj Hbound (conj _ (conj _ (conj _ _)))).
  - lia.
  - lia.
  - intros result Hr. rewrite Hr in Hcase. destruct Hcase as (-> & _). exact Hbound.
  - intro Hfuel.
    destruct (fst (execute config fuel goal context o)) as [e | [result |]].
    + destruct Hcase.
    + exists result. reflexivity.
    + specialize (Hcase Hpos). lia.
Qed.

(** C6.  After [execute], every round after the first (archived or
    current) is a REFINER round and carries a locked structure equal to the
    one created from the plan of round 1: its goals are that plan's goals,
    its core decisions that plan's constraints, and it is marked locked at
    round 1.  [startNewRound] keeps it so: from round 1 on it archives the
    current round and hands its locked structure to the next, a REFINER
    round. *)
Theorem later_rounds_keep_locked_structure (fuel : nat) (goal context : string) (o : Run) :
  (let o' := snd (execute config fuel goal context o) in
   let all := (roundHistory (state o') ++ [currentRound (state o')])%list in
   forall i r,
     nth_error all i = Some r -> 1 <= i ->
     RoundState.number r = S i
     /\ RoundState.phase r = REFINER
     /\ exists round1 plan1,
          nth_error all 0 = Some round1
          /\ RoundState.plan round1 = Some plan1
          /\ RoundState.locked_structure r
             = Some {| LockedStructure.goals := Plan.goals plan1;
                       LockedStructure.core_decisions := Plan.constraints plan1;
                       LockedStructure.locked_at_round := 1 |})
  /\ (forall o1 : Run,
        1 <= RoundState.number (currentRound (state o1)) ->
        let o2 := snd (startNewRound o1) in
        roundHistory (state o2)
        = (roundHistory (state o1) ++ [currentRound (state o1)])%list
        /\ RoundState.number (currentRound (state o2))
           = RoundState.number (currentRound (state o1)) + 1
        /\ RoundState.phase (currentRound (state o2)) = REFINER
        /\ RoundState.locked_structure (currentRound (state o2))
           = RoundState.locked_structure (currentRound (state o1))).
Proof.
  split.
  - pose proof (execute_outcomes fuel goal context o) as H.
    unfold M.wp, execute_outcome in H. cbv zeta in *.
    destruct H as (Hlocked & _). exact Hlocked.
  - intros [w s h] Hn. cbv zeta. unfold startNewRound, update, M.modify.
    cbn [snd state] in *.
    destruct (startNewRound_state s) as (s1 & -> & _ & _ & _ & _ & Hh & Hcur).
    fields. rewrite Hh, Hcur.
    replace (0 <? RoundState.number (currentRound s)) with true
      by (symmetry; apply Nat.ltb_lt; lia).
    replace (RoundState.number (currentRound s) + 1 =? 1) with false
      by (symmetry; apply Nat.eqb_neq; lia).
    repeat split.
Qed.

End OrchestratorFacts.

(** C4 (the failing input).  Round 1 runs to a decision with stability 0.58,
    then the model function rejects with [Error("boom")] in round 2.
    [execute] resolves with the failure result (no success, terminated,
    [max_rounds_reached] as reason, the error text in the output, stability
    0), but the orchestrator's [lastResult] stays empty and [isRunning]
    stays true: only [terminate] updates them. *)
Theorem execute_failure_leaves_lastResult_unset :
  let run := Orchestrator.execute (host := Scripted.host) (wording := Scripted.wording)
               Orchestrator.defaultConfig 3 "Ship X" EmptyString
               (Orchestrator.new (host := Scripted.host) Examples.failing_world) in
  fst run
  = inr (Some {| ExecutionResult.success := false;
                 ExecutionResult.output := "Orchestration failed: Error: boom";
                 ExecutionResult.round := 2;
                 ExecutionResult.stability := 0%Q;
                 ExecutionResult.terminated := true;
                 ExecutionResult.termination_reason := Some max_rounds_reached |})
  /\ Orchestrator.lastResult (Orchestrator.state (snd run)) = None
  /\ Orchestrator.isRunning (Orchestrator.state (snd run)) = true
  /\ map (fun r => match RoundState.stability r with
                   | Some m => Some (StabilityMetrics.overall_stability m)
                   | None => None
                   end)
         (Orchestrator.roundHistory (Orchestrator.state (snd run)))
     = [Some 0.58%Q].
Proof. vm_compute. repeat split. Qed.

(* ===================================================================== *)
(** ** The statements at concrete inputs *)
(* ===================================================================== *)

Section Instances.
Import DecisionEngine Examples.

Ltac not_rule :=
  first
    [ intros [H _]; discriminate H
    | unfold Rules.stabilityAchieved, Qle; simpl; lia
    | unfold Rules.maxRoundsReached; simpl; lia
    | rewrite <- goalDiverging_iff; vm_compute; discriminate
    | rewrite <- isContradictionTrendUp_iff; vm_compute; discriminate ].

(** Each rule of the decision engine, fired on a context of its own. *)
Lemma makeTerminationDecision_priority_witness :
  makeTerminationDecision complete_context five_rounds
  = decision true task_complete 0.95
  /\ makeTerminationDecision stable_context five_rounds
     = decision true stability_achieved 0.9
  /\ makeTerminationDecision limit_context five_rounds
     = decision true max_rounds_reached 1.0
  /\ makeTerminationDecision diverging_context five_rounds
     = decision true goal_diverging 0.85
  /\ makeTerminationDecision trend_context five_rounds
     = decision true contradiction_trend_up 0.75
  /\ makeTerminationDecision early_context five_rounds
     = decision false continue (1 - 0.5)%Q.
Proof.
  split; [| split; [| split; [| split; [| split]]]].
  - apply (makeTerminationDecision_priority complete_context five_rounds).
    split; reflexivity.
  - apply (makeTerminationDecision_priority stable_context five_rounds).
    + not_rule.
    + unfold Rules.stabilityAchieved, Qle; simpl; lia.
  - apply (makeTerminationDecision_priority limit_context five_rounds).
    + not_rule.
    + not_rule.
    + unfold Rules.maxRoundsReached; simpl; lia.
  - apply (makeTerminationDecision_priority diverging_context five_rounds).
    + not_rule.
    + not_rule.
    + not_rule.
    + apply goalDiverging_iff. reflexivity.
  - apply (makeTerminationDecision_priority trend_context five_rounds).
    + not_rule.
    + not_rule.
    + not_rule.
    + not_rule.
    + apply isContradictionTrendUp_iff. reflexivity.
  - apply (makeTerminationDecision_priority early_context five_rounds); not_rule.
Defined.

(** The trend rule fired with two archived rounds: counts 0, 1, then 2. *)
Lemma contradiction_trend_up_only_when_witness :
  TerminationDecision.reason (makeTerminationDecision trend_context five_rounds)
  = contradiction_trend_up
  /\ 2 <= List.length (roundHistory trend_context)
  /\ exists older a b,
       roundHistory trend_context = (older ++ [a; b])%list
       /\ contradiction_count a <= contradiction_count b
       /\ contradiction_count b < contradiction_count (currentRound trend_context).
Proof.
  split; [reflexivity |].
  apply (proj1 (contradiction_trend_up_only_when trend_context five_rounds)).
  reflexivity.
Defined.

(** A text without braces gives the conservative default; the evaluation
    block of the examples gives its [vs_goal]. *)
Lemma parseBlindEvaluation_never_raises_witness :
  BlindJudge.parseBlindEvaluation (host := Scripted.host) "no json here"
  = {| BlindEvaluation.vs_previous := VsPrevious.same;
       BlindEvaluation.vs_goal := VsGoal.same;
       BlindEvaluation.contradictions := ["Evaluation parsing failed"];
       BlindEvaluation.missing := [];
       BlindEvaluation.risks := ["Unable to properly evaluate plan"] |}
  /\ List.length
       (BlindEvaluation.contradictions
          (BlindJudge.parseBlindEvaluation (host := Scripted.host) evaluation_block))
     <= 10.
Proof.
  split.
  - apply (proj1 (proj2 (proj2 (proj2
             (parseBlindEvaluation_never_raises (host := Scripted.host) "no json here")))))
      with (error := JS.Error "No JSON found in response").
    reflexivity.
  - apply (parseBlindEvaluation_never_raises (host := Scripted.host) evaluation_block).
Defined.

(** Text around a plan: [Here is the plan: {"goals":["a"]} Let me know.] *)
Lemma parsers_consume_first_open_to_last_close_witness :
  Spec.occurs "{" before_text = false
  /\ Spec.occurs "}" after_text = false
  /\ JS.match_braces (before_text ++ ("{" ++ body_text ++ "}") ++ after_text)
     = Some ("{" ++ body_text ++ "}")
  /\ BlindJudge.parseBlindEvaluation (host := Scripted.host)
       (before_text ++ ("{" ++ body_text ++ "}") ++ after_text)
     = BlindJudge.parseBlindEvaluation (host := Scripted.host) ("{" ++ body_text ++ "}").
Proof.
  split; [reflexivity |]. split; [reflexivity |].
  destruct (parsers_consume_first_open_to_last_close (host := Scripted.host)
              before_text body_text after_text eq_refl eq_refl) as (Hm & He & _).
  split; [exact Hm | exact He].
Defined.

(** A two-round run under the default configuration ([maxRounds] = 3). *)
Lemma execute_round_bound_witness :
  (0 < Orchestrator.maxRounds Orchestrator.defaultConfig)%Z
  /\ (Z.of_nat
        (RoundState.number
           (Orchestrator.currentRound
              (Orchestrator.state
                 (snd (Orchestrator.execute (host := Scripted.host)
                         (wording := Scripted.wording) Orchestrator.defaultConfig 3
                         "Ship X" EmptyString
                         (Orchestrator.new (host := Scripted.host) two_round_world))))))
      <= Orchestrator.maxRounds Orchestrator.defaultConfig)%Z
  /\ exists result,
       fst (Orchestrator.execute (host := Scripted.host) (wording := Scripted.wording)
              Orchestrator.defaultConfig 3 "Ship X" EmptyString
              (Orchestrator.new (host := Scripted.host) two_round_world))
       = inr (Some result).
Proof.
  assert (Hpos : (0 < Orchestrator.maxRounds Orchestrator.defaultConfig)%Z)
    by (simpl; lia).
  destruct (execute_round_bound (host := Scripted.host) (wording := Scripted.wording)
              Orchestrator.defaultConfig 3 "Ship X" EmptyString
              (Orchestrator.new (host := Scripted.host) two_round_world) Hpos)
    as (_ & Hb & _ & _ & _ & Hres).
  split; [exact Hpos |]. split; [exact Hb |]. apply Hres. simpl. lia.
Defined.

(** Round 2 of a two-round run. *)
Lemma later_rounds_keep_locked_structure_witness :
  let o' := snd (Orchestrator.execute (host := Scripted.host)
                   (wording := Scripted.wording) Orchestrator.defaultConfig 3
                   "Ship X" EmptyString
                   (Orchestrator.new (host := Scripted.host) two_round_world)) in
  let all := (Orchestrator.roundHistory (Orchestrator.state o')
              ++ [Orchestrator.currentRound (Orchestrator.state o')])%list in
  nth_error all 1 = Some (Orchestrator.currentRound (Orchestrator.state o'))
  /\ RoundState.number (Orchestrator.currentRound (Orchestrator.state o')) = 2
  /\ RoundState.phase (Orchestrator.currentRound (Orchestrator.state o')) = REFINER
  /\ exists round1 plan1,
       nth_error all 0 = Some round1
       /\ RoundState.plan round1 = Some plan1
       /\ RoundState.locked_structure (Orchestrator.currentRound (Orchestrator.state o'))
          = Some {| LockedStructure.goals := Plan.goals plan1;
                    LockedStructure.core_decisions := Plan.constraints plan1;
                    LockedStructure.locked_at_round := 1 |}.
Proof.
  cbv zeta.
  assert (Hnth : nth_error
            (Orchestrator.roundHistory
               (Orchestrator.state
                  (snd (Orchestrator.execute (host := Scripted.host)
                          (wording := Scripted.wording) Orchestrator.defaultConfig 3
                          "Ship X" EmptyString
                          (Orchestrator.new (host := Scripted.host) two_round_world))))
             ++ [Orchestrator.currentRound
                   (Orchestrator.state
                      (snd (Orchestrator.execute (host := Scripted.host)
                              (wording := Scripted.wording) Orchestrator.defaultConfig 3
                              "Ship X" EmptyString
                              (Orchestrator.new (host := Scripted.host)
                                 two_round_world))))])%list 1
          = Some (Orchestrator.currentRound
                    (Orchestrator.state
                       (snd (Orchestrator.execute (host := Scripted.host)
                               (wording := Scripted.wording) Orchestrator.defaultConfig 3
                               "Ship X" EmptyString
                               (Orchestrator.new (host := Scripted.host)
                                  two_round_world)))))).
  { vm_compute. reflexivity. }
  split; [exact Hnth |].
  exact (proj1 (later_rounds_keep_locked_structure (host := Scripted.host)
                  (wording := Scripted.wording) Orchestrator.defaultConfig 3
                  "Ship X" EmptyString
                  (Orchestrator.new (host := Scripted.host) two_round_world))
           1 _ Hnth (le_n 1)).
Defined.

End Instances.

(* ===================================================================== *)
(** ** Further properties: decision engine *)
(* ===================================================================== *)

Section DecisionEngineMore.
Import DecisionEngine.

(** Case analysis of [makeTerminationDecision], one case for each rule. *)
Ltac engine_cases c cfg :=
  unfold makeTerminationDecision;
  destruct ((List.length (BlindEvaluation.missing (latestEvaluation c)) =? 0)
            && (List.length (BlindEvaluation.contradictions (latestEvaluation c)) =? 0))
    eqn:T1;
  [ apply taskComplete_iff in T1
  | apply not_true_iff_false in T1; rewrite taskComplete_iff in T1;
    destruct (Num.geb (StabilityMetrics.overall_stability (latestStability c))
                      (stabilityThreshold cfg)) eqn:T2;
    [ apply stabilityAchieved_iff in T2
    | apply not_true_iff_false in T2; rewrite stabilityAchieved_iff in T2;
      destruct (maxRounds cfg <=? Z.of_nat (RoundState.number (currentRound c)))%Z eqn:T3;
      [ apply maxRoundsReached_iff in T3
      | apply not_true_iff_false in T3; rewrite maxRoundsReached_iff in T3;
        cbv zeta;
        destruct (goalDivergenceLimit cfg <=?
                    Z.of_nat (countConsecutiveGoalDivergence
                      (evaluations_of (roundHistory c ++ [currentRound c]))))%Z eqn:T4;
        [ apply goalDiverging_iff in T4
        | apply not_true_iff_false in T4; rewrite goalDiverging_iff in T4;
          destruct (isContradictionTrendUp (roundHistory c) (currentRound c)) eqn:T5;
          [ apply isContradictionTrendUp_iff in T5
          | apply not_true_iff_false in T5;
            rewrite isContradictionTrendUp_iff in T5 ] ] ] ] ].

(** A rendered count starts with a digit. *)
Lemma of_nat_starts_with_digit (n : nat) :
  exists c rest, JS.of_nat n = String c rest /\ JsonText.is_digit c = true.
Proof.
  unfold JS.of_nat, JS.of_Z.
  destruct (Z.of_nat n) as [| p | p] eqn:E; [| | lia].
  - exists "0"%char, EmptyString. split; reflexivity.
  - cbn [Z.to_int NilZero.string_of_int].
    destruct (Pos.to_uint p) eqn:U; cbn [NilZero.string_of_uint];
      eexists; eexists; split; reflexivity.
Qed.

Lemma low_confidence_not_count (n : nat) (suffix : string) :
  JS.of_nat n ++ suffix = Texts.low_confidence_warning -> False.
Proof.
  destruct (of_nat_starts_with_digit n) as (c & rest & -> & Hd).
  unfold Texts.low_confidence_warning. cbn [String.append].
  intro H. injection H as -> _. discriminate Hd.
Qed.

(** X1.  [countConsecutiveGoalDivergence] returns the length of the run of
    [farther] evaluations that ends the list: the last [n] evaluations are
    [farther], the one before them (if any) is not, and [n] is the only
    number with that property; in particular it is 0 when the list is empty
    or its last evaluation is not [farther]. *)
Theorem countConsecutiveGoalDivergence_is_farther_tail
    (evaluations : list BlindEvaluation.t) :
  let n := countConsecutiveGoalDivergence evaluations in
  Rules.farther_tail evaluations n
  /\ (forall m, Rules.farther_tail evaluations m -> m = n)
  /\ n <= List.length evaluations
  /\ (forall before last,
        evaluations = (before ++ [last])%list ->
        BlindEvaluation.vs_goal last <> VsGoal.farther -> n = 0).
Proof.
  cbv zeta. pose proof (countConsecutiveGoalDivergence_tail evaluations) as Htail.
  split; [exact Htail |]. split; [| split].
  - intros m Hm. exact (farther_tail_unique _ _ _ Hm Htail).
  - destruct Htail as (before & tail & -> & <- & _). rewrite length_app. lia.
  - intros before last -> Hlast. rewrite count_farther_snoc.
    destruct (VsGoal.eqb (BlindEvaluation.vs_goal last) VsGoal.farther) eqn:E;
      [| reflexivity].
    apply VsGoal_eqb_farther in E. contradiction.
Qed.

(** X2.  The decision of [makeTerminationDecision] terminates exactly when
    its reason is not [continue], and its confidence lies in [0,1] whenever
    the overall stability does. *)
Theorem makeTerminationDecision_reason_and_confidence
    (c : DecisionContext) (cfg : DecisionEngineConfig) :
  let d := makeTerminationDecision c cfg in
  (TerminationDecision.should_terminate d = false
   <-> TerminationDecision.reason d = continue)
  /\ (SpecNum.in01 (StabilityMetrics.overall_stability (latestStability c)) ->
      SpecNum.in01 (TerminationDecision.confidence d)).
Proof.
  cbv zeta. split.
  - engine_cases c cfg; simpl; split; intro H; try reflexivity; discriminate H.
  - intros [H0 H1]. engine_cases c cfg; simpl; split; lra.
Qed.

Lemma makeTerminationDecision_continue
    (c : DecisionContext) (cfg : DecisionEngineConfig) :
  TerminationDecision.reason (makeTerminationDecision c cfg) = continue ->
  TerminationDecision.should_terminate (makeTerminationDecision c cfg) = false.
Proof.
  engine_cases c cfg; simpl; intro H; try reflexivity; discriminate H.
Qed.

(** Only rule 2 gives [stability_achieved]. *)
Lemma reason_stability_achieved (c : DecisionContext) (cfg : DecisionEngineConfig) :
  TerminationDecision.reason (makeTerminationDecision c cfg) = stability_achieved ->
  Rules.stabilityAchieved c cfg.
Proof.
  engine_cases c cfg; simpl; intro H; try discriminate H. exact T2.
Qed.

Lemma low_confidence_warned (d : TerminationDecision.t) (c : DecisionContext) :
  In Texts.low_confidence_warning (validateTerminationDecision d c)
  <-> TerminationDecision.should_terminate d = true
      /\ Num.ltb (TerminationDecision.confidence d) 0.7 = true.
Proof.
  unfold validateTerminationDecision.
  destruct (TerminationDecision.should_terminate d); [| simpl; split; [tauto | intros [H _]; discriminate H]].
  destruct (Num.ltb (TerminationDecision.confidence d) 0.7).
  - split; [auto |]. intros _. left. reflexivity.
  - split; [| intros [_ H]; discriminate H]. cbn [app]. intro H. exfalso.
    apply in_app_or in H. destruct H as [H | H].
    + destruct ((0 <? List.length (BlindEvaluation.missing (latestEvaluation c)))
                && negb match TerminationDecision.reason d with
                        | max_rounds_reached => true
                        | _ => false
                        end); [| destruct H].
      destruct H as [H | []]. exact (low_confidence_not_count _ _ H).
    + destruct (0 <? List.length (BlindEvaluation.risks (latestEvaluation c)));
        [| destruct H].
      destruct H as [H | []]. exact (low_confidence_not_count _ _ H).
Qed.

(** X3.  The warnings of [validateTerminationDecision] on a decision made
    by [makeTerminationDecision] for the same context: none when the
    decision is to continue; the low-confidence warning only for a
    [stability_achieved] decision under a threshold below 0.7; and for a
    [task_complete] decision at most the count of risks. *)
Theorem validateTerminationDecision_on_engine_decision
    (c : DecisionContext) (cfg : DecisionEngineConfig) :
  let d := makeTerminationDecision c cfg in
  let warnings := validateTerminationDecision d c in
  (TerminationDecision.reason d = continue -> warnings = [])
  /\ (In Texts.low_confidence_warning warnings ->
      TerminationDecision.reason d = stability_achieved
      /\ (stabilityThreshold cfg < 0.7)%Q)
  /\ (TerminationDecision.reason d = task_complete ->
      warnings
      = if 0 <? List.length (BlindEvaluation.risks (latestEvaluation c))
        then [JS.of_nat (List.length (BlindEvaluation.risks (latestEvaluation c)))
              ++ " risks identified"]
        else []).
Proof.
  cbv zeta. split; [| split].
  - intro H. unfold validateTerminationDecision.
    rewrite (makeTerminationDecision_continue c cfg H).
    reflexivity.
  - intro H. apply low_confidence_warned in H. destruct H as [Ht H].
    revert Ht H. engine_cases c cfg;
      cbn [TerminationDecision.reason TerminationDecision.confidence
           TerminationDecision.should_terminate decision];
      intros Ht H; try discriminate H; try discriminate Ht.
    split; [reflexivity |].
    unfold Num.ltb in H. apply negb_true_iff in H.
    apply not_true_iff_false in H. rewrite Qle_bool_iff in H.
    unfold Rules.stabilityAchieved in T2. lra.
  - unfold validateTerminationDecision.
    engine_cases c cfg;
      cbn [TerminationDecision.reason TerminationDecision.confidence
           TerminationDecision.should_terminate decision];
      intro H; try discriminate H.
    destruct T1 as [Hm _]. rewrite Hm. reflexivity.
Qed.

Lemma evaluations_of_length (rounds : list RoundState.t) :
  List.length (evaluations_of rounds) <= List.length rounds.
Proof.
  induction rounds as [| r rounds IH]; simpl; [lia |].
  destruct (RoundState.evaluation r); simpl; lia.
Qed.

(** Rule 4 needs as many rounds as the divergence limit. *)
Lemma reason_goal_diverging (c : DecisionContext) (cfg : DecisionEngineConfig) :
  TerminationDecision.reason (makeTerminationDecision c cfg) = goal_diverging ->
  (goalDivergenceLimit cfg <= Z.of_nat (List.length (roundHistory c) + 1))%Z.
Proof.
  engine_cases c cfg; simpl; intro H; try discriminate H.
  destruct T4 as (n & (before & tail & Heq & Hlen & _) & Hn).
  pose proof (evaluations_of_length (roundHistory c ++ [currentRound c])) as Hle.
  rewrite Heq in Hle. rewrite !length_app in Hle. simpl in Hle. lia.
Qed.

(** Rule 5 needs two archived rounds, in a round below [maxRounds]. *)
Lemma reason_contradiction_trend_up (c : DecisionContext) (cfg : DecisionEngineConfig) :
  TerminationDecision.reason (makeTerminationDecision c cfg) = contradiction_trend_up ->
  2 <= List.length (roundHistory c)
  /\ (Z.of_nat (RoundState.number (currentRound c)) < maxRounds cfg)%Z.
Proof.
  engine_cases c cfg; simpl; intro H; try discriminate H.
  destruct T5 as (older & a & b & Heq & _). rewrite Heq, length_app. simpl.
  unfold Rules.maxRoundsReached in T3. split; lia.
Qed.

End DecisionEngineMore.

(* ===================================================================== *)
(** ** Further properties: stability tracker *)
(* ===================================================================== *)

Section StabilityMore.
Import StabilityTracker SpecNum.

(** Two duplicate-free lists with the same elements have the same length. *)
Lemma same_elements_same_size (a b : list string) :
  (forall x, In x a <-> In x b) ->
  StrSet.size (StrSet.of_list a) = StrSet.size (StrSet.of_list b).
Proof.
  intro H. unfold StrSet.size. apply Nat.le_antisymm;
    (apply NoDup_incl_length; [apply StrSet_of_list_NoDup |]);
    intros x Hx; apply (proj2 (StrSet_of_list_In _ _));
    apply (proj1 (StrSet_of_list_In _ _)) in Hx; apply H; exact Hx.
Qed.

Lemma size_of_NoDup (s : StrSet.t) :
  NoDup s -> StrSet.size (StrSet.of_list s) = StrSet.size s.
Proof.
  intro H. unfold StrSet.size. apply Nat.le_antisymm.
  - apply NoDup_incl_length; [apply StrSet_of_list_NoDup |].
    intros x Hx. apply (proj1 (StrSet_of_list_In _ _)) in Hx. exact Hx.
  - apply NoDup_incl_length; [exact H |].
    intros x Hx. apply (proj2 (StrSet_of_list_In _ _)). exact Hx.
Qed.

Lemma size_zero_iff (s : StrSet.t) : (StrSet.size s =? 0) = true <-> s = [].
Proof. unfold StrSet.size. rewrite Nat.eqb_eq. apply length_zero_iff_nil. Qed.

(** A set compared with itself. *)
Lemma calculateSetSimilarity_self (l : list string) :
  (calculateSetSimilarity (StrSet.of_list l) (StrSet.of_list l) == 1)%Q.
Proof.
  unfold calculateSetSimilarity.
  destruct (StrSet.size (StrSet.of_list l) =? 0) eqn:E; [reflexivity |].
  cbn [andb orb].
  assert (Hsame : StrSet.size
                    (StrSet.of_list
                       (filter (StrSet.has (StrSet.of_list l)) (StrSet.of_list l)))
                  = StrSet.size
                      (StrSet.of_list (StrSet.of_list l ++ StrSet.of_list l))).
  { apply same_elements_same_size. intro x.
    rewrite filter_In, StrSet_has_In, in_app_iff. tauto. }
  rewrite Hsame. apply Qmult_inv_r.
  apply Nat.eqb_neq in E.
  assert (Hpos : 0 < StrSet.size (StrSet.of_list (StrSet.of_list l ++ StrSet.of_list l))).
  { assert (Hle : StrSet.size (StrSet.of_list (StrSet.of_list l))
                  <= StrSet.size (StrSet.of_list (StrSet.of_list l ++ StrSet.of_list l))).
    { unfold StrSet.size. apply NoDup_incl_length; [apply StrSet_of_list_NoDup |].
      intros x Hx. apply (proj2 (StrSet_of_list_In _ _)).
      apply (proj1 (StrSet_of_list_In _ _)) in Hx. apply in_or_app. left. exact Hx. }
    rewrite (size_of_NoDup _ (StrSet_of_list_NoDup l)) in Hle. lia. }
  pose proof (of_nat_pos _ Hpos) as HQ. intro Heq. rewrite Heq in HQ.
  exact (Qlt_irrefl 0 HQ).
Qed.

(** X4.  The Jaccard similarity of [calculateSetSimilarity] does not depend
    on the order of its arguments; a set compared with itself scores 1
    (also when it is empty); two non-empty sets without a common element
    score 0. *)
Theorem calculateSetSimilarity_symmetric_reflexive :
  (forall setA setB : StrSet.t,
     calculateSetSimilarity setA setB = calculateSetSimilarity setB setA)
  /\ (forall l : list string,
        (calculateSetSimilarity (StrSet.of_list l) (StrSet.of_list l) == 1)%Q)
  /\ (forall setA setB : StrSet.t,
        setA <> [] -> setB <> [] ->
        (forall x, In x setA -> ~ In x setB) ->
        (calculateSetSimilarity setA setB == 0)%Q).
Proof.
  split; [| split].
  - intros setA setB. unfold calculateSetSimilarity.
    rewrite (andb_comm (StrSet.size setA =? 0)), (orb_comm (StrSet.size setA =? 0)).
    destruct ((StrSet.size setB =? 0) && (StrSet.size setA =? 0)); [reflexivity |].
    destruct ((StrSet.size setB =? 0) || (StrSet.size setA =? 0)); [reflexivity |].
    f_equal; f_equal.
    + apply same_elements_same_size. intro x. rewrite !filter_In, !StrSet_has_In. tauto.
    + apply same_elements_same_size. intro x. rewrite !in_app_iff. tauto.
  - exact calculateSetSimilarity_self.
  - intros setA setB HA HB Hdisj. unfold calculateSetSimilarity.
    replace (StrSet.size setA =? 0) with false
      by (symmetry; apply not_true_iff_false; rewrite size_zero_iff; exact HA).
    replace (StrSet.size setB =? 0) with false
      by (symmetry; apply not_true_iff_false; rewrite size_zero_iff; exact HB).
    cbn [andb orb].
    replace (filter (StrSet.has setB) setA) with (@nil string).
    + reflexivity.
    + symmetry. induction setA as [| a setA IH]; [reflexivity |].
      cbn [filter]. destruct (StrSet.has setB a) eqn:E.
      * apply StrSet_has_In in E. exfalso. exact (Hdisj a (or_introl eq_refl) E).
      * destruct setA as [| a' rest]; [reflexivity |].
        apply IH; [discriminate |]. intros x Hx. apply Hdisj. right. exact Hx.
Qed.

Lemma similarity_with_itself (s : string) : (calculateStringSimilarity s s == 1)%Q.
Proof. unfold calculateStringSimilarity. rewrite String.eqb_refl. reflexivity. Qed.

Lemma reused_in_own_set (p : Plan.t) (d : string) :
  In d (decisions p) -> reused (StrSet.of_list (decisions p)) d = true.
Proof.
  intro H. unfold reused. apply existsb_exists. exists d. split.
  - apply (proj2 (StrSet_of_list_In _ _)). exact H.
  - unfold calculateStringSimilarity. rewrite String.eqb_refl. reflexivity.
Qed.

Lemma reusedCount_all (f : string -> bool) (l : list string) (count : nat) :
  (forall d, In d l -> f d = true) ->
  fold_left (fun count decision => if f decision then count + 1 else count) l count
  = count + List.length l.
Proof.
  revert count. induction l as [| d l IH]; intros count H; simpl; [lia |].
  rewrite (H d (or_introl eq_refl)). rewrite IH; [lia |].
  intros x Hx. apply H. right. exact Hx.
Qed.

(** X5.  A plan compared with itself: [calculatePlanSimilarity] gives 1,
    and [calculateDecisionReuseRate] gives 1 when the plan has at least one
    goal, constraint or task, but 0 when it has none. *)
Theorem unchanged_plan_signals (p : Plan.t) :
  (calculatePlanSimilarity (Some p) (Some p) == 1)%Q
  /\ (decisions p <> [] -> (calculateDecisionReuseRate (Some p) (Some p) == 1)%Q)
  /\ (Plan.goals p = [] -> Plan.constraints p = [] -> Plan.tasks p = [] ->
      calculateDecisionReuseRate (Some p) (Some p) = 0%Q).
Proof.
  split; [| split].
  - unfold calculatePlanSimilarity. cbv zeta.
    pose proof (calculateSetSimilarity_self (Plan.goals p)) as G.
    pose proof (calculateSetSimilarity_self (Plan.constraints p)) as C.
    assert (T : (taskCountSimilarity (List.length (Plan.tasks p))
                   (List.length (Plan.tasks p)) == 1)%Q).
    { unfold taskCountSimilarity. rewrite Z.sub_diag. simpl Z.abs.
      unfold Qdiv. rewrite Qmult_0_l. reflexivity. }
    cbn [fold_left List.length]. change (Num.of_nat 3) with 3%Q.
    rewrite G, C, T. reflexivity.
  - intro Hne. unfold calculateDecisionReuseRate.
    destruct (List.length (decisions p) =? 0) eqn:E.
    + apply Nat.eqb_eq, length_zero_iff_nil in E. contradiction.
    + rewrite (reusedCount_all _ (decisions p) 0 (reused_in_own_set p)).
      cbn [Nat.add]. apply Qmult_inv_r. apply Nat.eqb_neq in E.
      assert (Hpos : 0 < List.length (decisions p)) by lia.
      pose proof (of_nat_pos _ Hpos) as HQ. intro Heq. rewrite Heq in HQ.
      exact (Qlt_irrefl 0 HQ).
  - intros Hg Hc Ht. unfold calculateDecisionReuseRate, decisions.
    rewrite Hg, Hc, Ht. reflexivity.
Qed.

(** Without a previous plan the overall stability is at most 0.75. *)
Lemma overall_stability_without_previous
    (currentRound : RoundState.t) (previousRound : option RoundState.t)
    (evaluation : BlindEvaluation.t) :
  plan_of previousRound = None ->
  (StabilityMetrics.overall_stability
     (calculateStability currentRound previousRound evaluation defaultConfig)
   <= 0.75)%Q.
Proof.
  intro Hprev.
  unfold calculateStability. cbn [StabilityMetrics.overall_stability]. rewrite Hprev.
  set (cr := Num.min _ 1).
  assert (Hcr : in01 cr).
  { apply min_in01. apply Qle_shift_div_l; [reflexivity |].
    rewrite Qmult_0_l. apply of_nat_nonneg. }
  pose proof (calculateGoalConvergence_in01 evaluation) as Hgc.
  replace (calculateDecisionReuseRate (RoundState.plan currentRound) None) with 0.5%Q
    by (unfold calculateDecisionReuseRate; destruct (RoundState.plan currentRound);
        reflexivity).
  replace (calculatePlanSimilarity (RoundState.plan currentRound) None) with 0.5%Q
    by (unfold calculatePlanSimilarity; destruct (RoundState.plan currentRound);
        reflexivity).
  cbn [weights defaultConfig contradictionRatio decisionReuseRate planSimilarity
       goalConvergence].
  set (x := ((1 - cr) * 0.30 + 0.5 * 0.25 + 0.5 * 0.25
             + calculateGoalConvergence evaluation * 0.20)%Q).
  assert (Hx : (x <= 0.75)%Q) by (unfold x; destruct Hcr, Hgc; lra).
  unfold Num.round.
  assert (Hk : (Qfloor (x * 100 + (1 # 2)) <= 75)%Z).
  { change 75%Z with (Qfloor (75 + (1 # 2))). apply Qfloor_resp_le. lra. }
  rewrite Zle_Qle in Hk. apply Qle_shift_div_r; [reflexivity |].
  change (inject_Z 75) with 75%Q in Hk. lra.
Qed.

(** X6.  Without a previous plan (the first round) the decision reuse rate
    and the plan similarity are both 0.5 and the overall stability is at
    most 0.75: under a stability threshold above 0.75, such as the default
    0.85, the decision engine cannot give [stability_achieved] for it. *)
Theorem first_round_stability_cap
    (currentRound : RoundState.t) (previousRound : option RoundState.t)
    (evaluation : BlindEvaluation.t) :
  plan_of previousRound = None ->
  let m := calculateStability currentRound previousRound evaluation defaultConfig in
  StabilityMetrics.decision_reuse_rate m = 0.5%Q
  /\ StabilityMetrics.plan_similarity m = 0.5%Q
  /\ (StabilityMetrics.overall_stability m <= 0.75)%Q
  /\ (forall c cfg,
        DecisionEngine.latestStability c = m ->
        (0.75 < DecisionEngine.stabilityThreshold cfg)%Q ->
        TerminationDecision.reason (DecisionEngine.makeTerminationDecision c cfg)
        <> stability_achieved).
Proof.
  intros Hprev. cbv zeta.
  pose proof (overall_stability_without_previous currentRound previousRound evaluation
                Hprev) as Hcap.
  split; [| split; [| split]].
  - unfold calculateStability. cbn [StabilityMetrics.decision_reuse_rate].
    rewrite Hprev. unfold calculateDecisionReuseRate.
    destruct (RoundState.plan currentRound); reflexivity.
  - unfold calculateStability. cbn [StabilityMetrics.plan_similarity].
    rewrite Hprev. unfold calculatePlanSimilarity.
    destruct (RoundState.plan currentRound); reflexivity.
  - exact Hcap.
  - intros c cfg Hm Hthr Hreason. apply reason_stability_achieved in Hreason.
    unfold Rules.stabilityAchieved in Hreason. rewrite Hm in Hreason. lra.
Qed.

End StabilityMore.

(* ===================================================================== *)
(** ** Further properties: bigram similarity *)
(* ===================================================================== *)

Section BigramFacts.
Import StabilityTracker SpecNum Counts.


Lemma bigrams_get_absent (m : Bigrams) (k : string) :
  ~ In k (keys m) -> bigrams_get m k = None.
Proof.
  induction m as [| [k' n] m IH]; simpl; intro H; [reflexivity |].
  destruct (String.eqb_spec k k') as [-> | _]; [exfalso; apply H; left; reflexivity |].
  apply IH. intro Hin. apply H. right. exact Hin.
Qed.

Lemma bigrams_get_entry (m : Bigrams) (k : string) (n : nat) :
  NoDup (keys m) -> In (k, n) m -> bigrams_get m k = Some n.
Proof.
  induction m as [| [k' n'] m IH]; simpl; intros Hnd Hin; [destruct Hin |].
  inversion Hnd as [| ? ? Hnotin Hnd']; subst.
  destruct Hin as [Heq | Hin].
  - injection Heq as -> ->. rewrite String.eqb_refl. reflexivity.
  - destruct (String.eqb_spec k k') as [-> | _]; [| exact (IH Hnd' Hin)].
    exfalso. apply Hnotin. change k' with (fst (k', n)). apply in_map. exact Hin.
Qed.

Lemma bigrams_set_keys (m : Bigrams) (k : string) (n : nat) :
  NoDup (keys m) ->
  NoDup (keys (bigrams_set m k n))
  /\ (forall x, In x (keys (bigrams_set m k n)) <-> x = k \/ In x (keys m)).
Proof.
  induction m as [| [k' n'] m IH]; simpl; intro Hnd.
  - split; [repeat constructor; intros [] |]. intro x. split; intros [H | H]; auto.
  - inversion Hnd as [| ? ? Hnotin Hnd']; subst.
    destruct (String.eqb_spec k k') as [-> | Hne]; simpl.
    + split; [exact Hnd |]. intro x. split; [tauto | intros [-> | H]; auto].
    + destruct (IH Hnd') as [IH1 IH2]. split.
      * constructor; [| exact IH1]. intro Hin. apply IH2 in Hin.
        destruct Hin as [-> | Hin]; [apply Hne; reflexivity | exact (Hnotin Hin)].
      * intro x. rewrite IH2. split; [intros [H | [H | H]] | intros [H | [H | H]]]; auto.
Qed.

Lemma bigrams_set_total (m : Bigrams) (k : string) :
  total (bigrams_set m k (or_zero (bigrams_get m k) + 1)) = total m + 1.
Proof.
  unfold total. induction m as [| [k' n'] m IH]; simpl; [reflexivity |].
  destruct (String.eqb_spec k k') as [-> | Hne]; simpl; [lia |].
  rewrite IH. lia.
Qed.

Lemma getBigrams_loop_facts (s : string) (count i : nat) (m : Bigrams) :
  NoDup (keys m) ->
  NoDup (keys (getBigrams_loop s i count m))
  /\ total (getBigrams_loop s i count m) = total m + count.
Proof.
  revert i m. induction count as [| count IH]; intros i m Hnd; simpl.
  - split; [exact Hnd | lia].
  - destruct (bigrams_set_keys m (JS.str_slice i 2 s)
                (or_zero (bigrams_get m (JS.str_slice i 2 s)) + 1) Hnd) as [Hnd' _].
    destruct (IH (S i) _ Hnd') as [H1 H2]. split; [exact H1 |].
    rewrite H2, bigrams_set_total. lia.
Qed.

Lemma getBigrams_facts (s : string) :
  NoDup (keys (getBigrams s)) /\ total (getBigrams s) = String.length s - 1.
Proof.
  unfold getBigrams.
  destruct (getBigrams_loop_facts s (String.length s - 1) 0 [] (NoDup_nil _)) as [H1 H2].
  split; [exact H1 | exact H2].
Qed.

(** The loop of [intersectionSize] as a sum over the entries. *)
Lemma intersectionSize_sum (m1 m2 : Bigrams) :
  intersectionSize m1 m2
  = list_sum (map (fun e : string * nat => Nat.min (snd e) (cnt m2 (fst e))) m1).
Proof.
  unfold intersectionSize, cnt.
  assert (H : forall acc,
    fold_left (fun acc (entry : string * nat) =>
                 acc + Nat.min (snd entry) (or_zero (bigrams_get m2 (fst entry)))) m1 acc
    = acc + list_sum (map (fun e : string * nat =>
                             Nat.min (snd e) (or_zero (bigrams_get m2 (fst e)))) m1)).
  { induction m1 as [| e m1 IH]; intro acc; simpl; [lia |]. rewrite IH. lia. }
  rewrite H. reflexivity.
Qed.

Lemma intersectionSize_by_keys (m1 m2 : Bigrams) :
  NoDup (keys m1) ->
  intersectionSize m1 m2
  = list_sum (map (fun b => Nat.min (cnt m1 b) (cnt m2 b)) (keys m1)).
Proof.
  intro Hnd. rewrite intersectionSize_sum. unfold keys. rewrite map_map.
  f_equal. apply map_ext_in. intros [b c] Hin. simpl.
  unfold cnt at 2. rewrite (bigrams_get_entry m1 b c Hnd Hin). reflexivity.
Qed.

Lemma list_sum_perm (l l' : list nat) : Permutation l l' -> list_sum l = list_sum l'.
Proof. induction 1; simpl; lia. Qed.

Lemma sum_filter_zero (f : string -> nat) (g : string -> bool) (l : list string) :
  (forall b, In b l -> g b = false -> f b = 0) ->
  list_sum (map f l) = list_sum (map f (filter g l)).
Proof.
  induction l as [| a l IH]; intro H; simpl; [reflexivity |].
  rewrite IH by (intros b Hb; apply H; right; exact Hb).
  destruct (g a) eqn:E; simpl; [reflexivity |].
  rewrite (H a (or_introl eq_refl) E). reflexivity.
Qed.

Lemma cnt_absent (m : Bigrams) (b : string) : ~ In b (keys m) -> cnt m b = 0.
Proof. intro H. unfold cnt. rewrite (bigrams_get_absent m b H). reflexivity. Qed.


Lemma mem_In (l : list string) (b : string) : mem l b = true <-> In b l.
Proof. exact (StrSet_has_In l b). Qed.

Lemma intersectionSize_comm (m1 m2 : Bigrams) :
  NoDup (keys m1) -> NoDup (keys m2) ->
  intersectionSize m1 m2 = intersectionSize m2 m1.
Proof.
  intros H1 H2. rewrite (intersectionSize_by_keys m1 m2 H1), (intersectionSize_by_keys m2 m1 H2).
  set (f := fun b => Nat.min (cnt m1 b) (cnt m2 b)).
  replace (map (fun b => Nat.min (cnt m2 b) (cnt m1 b)) (keys m2)) with (map f (keys m2))
    by (apply map_ext; intro b; unfold f; apply Nat.min_comm).
  rewrite (sum_filter_zero f (mem (keys m2)) (keys m1)).
  2:{ intros b _ Hb. unfold f. rewrite (cnt_absent m2 b); [lia |].
      intro Hin. apply mem_In in Hin. congruence. }
  rewrite (sum_filter_zero f (mem (keys m1)) (keys m2)).
  2:{ intros b _ Hb. unfold f. rewrite (cnt_absent m1 b); [lia |].
      intro Hin. apply mem_In in Hin. congruence. }
  apply list_sum_perm, Permutation_map. apply NoDup_Permutation.
  - apply NoDup_filter, H1.
  - apply NoDup_filter, H2.
  - intro b. rewrite !filter_In, !mem_In. tauto.
Qed.

Lemma intersectionSize_le_left (m1 m2 : Bigrams) : intersectionSize m1 m2 <= total m1.
Proof.
  rewrite intersectionSize_sum. unfold total.
  induction m1 as [| e m1 IH]; simpl; lia.
Qed.

Lemma toLowerCase_length (s : string) :
  String.length (JS.toLowerCase s) = String.length s.
Proof. induction s as [| c s IH]; simpl; congruence. Qed.

(** X7.  The bigram similarity of [calculateStringSimilarity] lies in
    [0,1], does not depend on the order of its arguments, is 1 for two
    strings equal up to case, and is 0 for two strings that differ up to
    case when one of them is shorter than 2 characters. *)
Theorem calculateStringSimilarity_properties :
  (forall a b, in01 (calculateStringSimilarity a b))
  /\ (forall a b, calculateStringSimilarity a b = calculateStringSimilarity b a)
  /\ (forall a b, Spec.same_ignoring_case a b = true ->
                  calculateStringSimilarity a b = 1%Q)
  /\ (forall a b, Spec.same_ignoring_case a b = false ->
                  String.length a < 2 \/ String.length b < 2 ->
                  calculateStringSimilarity a b = 0%Q).
Proof.
  split; [| split; [| split]].
  - intros a b. unfold calculateStringSimilarity. cbv zeta.
    destruct (String.eqb (JS.toLowerCase a) (JS.toLowerCase b)); [split; lra |].
    destruct ((String.length (JS.toLowerCase a) <? 2)
              || (String.length (JS.toLowerCase b) <? 2)) eqn:E; [split; lra |].
    apply orb_false_iff in E. destruct E as [Ea Eb].
    apply Nat.ltb_ge in Ea, Eb.
    destruct (getBigrams_facts (JS.toLowerCase a)) as [Na Ta].
    destruct (getBigrams_facts (JS.toLowerCase b)) as [Nb Tb].
    pose proof (intersectionSize_le_left (getBigrams (JS.toLowerCase a))
                  (getBigrams (JS.toLowerCase b))) as L1.
    pose proof (intersectionSize_le_left (getBigrams (JS.toLowerCase b))
                  (getBigrams (JS.toLowerCase a))) as L2.
    rewrite (intersectionSize_comm _ _ Nb Na) in L2.
    apply ratio_in01; lia.
  - intros a b. unfold calculateStringSimilarity. cbv zeta.
    rewrite (String.eqb_sym (JS.toLowerCase a)).
    destruct (String.eqb (JS.toLowerCase b) (JS.toLowerCase a)); [reflexivity |].
    rewrite (orb_comm (String.length (JS.toLowerCase a) <? 2)).
    destruct ((String.length (JS.toLowerCase b) <? 2)
              || (String.length (JS.toLowerCase a) <? 2)); [reflexivity |].
    rewrite (intersectionSize_comm _ _ (proj1 (getBigrams_facts (JS.toLowerCase a)))
               (proj1 (getBigrams_facts (JS.toLowerCase b)))).
    rewrite (Nat.add_comm (String.length (JS.toLowerCase a))). reflexivity.
  - intros a b H. unfold calculateStringSimilarity. cbv zeta.
    unfold Spec.same_ignoring_case in H. rewrite H. reflexivity.
  - intros a b H Hshort. unfold calculateStringSimilarity. cbv zeta.
    unfold Spec.same_ignoring_case in H. rewrite H, !toLowerCase_length.
    replace ((String.length a <? 2) || (String.length b <? 2)) with true; [reflexivity |].
    symmetry. apply orb_true_iff. rewrite !Nat.ltb_lt. exact Hshort.
Qed.

End BigramFacts.

(* ===================================================================== *)
(** ** Further properties: concerning patterns of the blind judge *)
(* ===================================================================== *)

Section ConcernsFacts.
Import Concerns.

Lemma concerns_of_length (latest previous : BlindEvaluation.t) (config : BlindJudgeConfig) :
  List.length (concerns_of latest previous config) <= 6.
Proof.
  unfold concerns_of. cbv zeta. rewrite !length_app.
  destruct (BlindEvaluation.vs_previous latest);
    repeat match goal with
    | |- context [if ?b then _ else _] => destruct b
    end; simpl; lia.
Qed.

Lemma concerns_of_high (latest previous : BlindEvaluation.t) (config : BlindJudgeConfig) :
  (exists c, In c (concerns_of latest previous config) /\ severity c = high)
  <-> BlindEvaluation.vs_goal latest = VsGoal.farther
      \/ (maxContradictions config
          <= Z.of_nat (List.length (BlindEvaluation.contradictions latest)))%Z.
Proof.
  unfold concerns_of. cbv zeta. split.
  - intros (c & Hin & Hhigh).
    repeat (apply in_app_or in Hin; destruct Hin as [Hin | Hin]).
    + destruct (BlindEvaluation.vs_previous latest); simpl in Hin;
        try contradiction; destruct Hin as [<- | []]; discriminate Hhigh.
    + left. destruct (BlindEvaluation.vs_goal latest); simpl in Hin;
        try contradiction; reflexivity.
    + destruct (_ <? _); simpl in Hin; try contradiction.
      destruct Hin as [<- | []]. discriminate Hhigh.
    + right. destruct (_ <=? _)%Z eqn:E; simpl in Hin; try contradiction.
      apply Z.leb_le, E.
    + destruct (_ <=? _)%Z; simpl in Hin; try contradiction.
      destruct Hin as [<- | []]. discriminate Hhigh.
    + destruct (_ <=? _)%Z; simpl in Hin; try contradiction.
      destruct Hin as [<- | []]. discriminate Hhigh.
  - intros [Hf | Hc].
    + exists {| concern := "Plan is moving away from the goal"; severity := high |}.
      split; [| reflexivity]. apply in_or_app. right. apply in_or_app. left.
      rewrite Hf. left. reflexivity.
    + eexists. split.
      * apply in_or_app. right. apply in_or_app. right. apply in_or_app. right.
        apply in_or_app. left. apply Z.leb_le in Hc. rewrite Hc. left. reflexivity.
      * reflexivity.
Qed.

(** X8.  [detectConcerningPatterns] reports nothing for fewer than two
    evaluations, however alarming the only one is; with two or more it
    looks at the last two only; it reports at most six concerns; and a
    concern of severity [high] is among them exactly when the latest
    evaluation is [farther] from the goal or has at least
    [maxContradictions] contradictions. *)
Theorem detectConcerningPatterns_properties (config : BlindJudgeConfig) :
  (forall evaluations,
     List.length evaluations < 2 -> detectConcerningPatterns evaluations config = [])
  /\ (forall older previous latest,
        detectConcerningPatterns (older ++ [previous; latest]) config
        = detectConcerningPatterns [previous; latest] config)
  /\ (forall evaluations,
        List.length (detectConcerningPatterns evaluations config) <= 6)
  /\ (forall older previous latest,
        (exists c,
           In c (detectConcerningPatterns (older ++ [previous; latest]) config)
           /\ severity c = high)
        <-> BlindEvaluation.vs_goal latest = VsGoal.farther
            \/ (maxContradictions config
                <= Z.of_nat (List.length (BlindEvaluation.contradictions latest)))%Z).
Proof.
  assert (Hlast : forall older previous latest,
            detectConcerningPatterns (older ++ [previous; latest]) config
            = concerns_of latest previous config).
  { intros older previous latest. unfold detectConcerningPatterns.
    replace (List.length (older ++ [previous; latest]) <? 2) with false
      by (symmetry; apply Nat.ltb_ge; rewrite length_app; simpl; lia).
    rewrite rev_app_distr. reflexivity. }
  split; [| split; [| split]].
  - intros evaluations H. unfold detectConcerningPatterns.
    apply Nat.ltb_lt in H. rewrite H. reflexivity.
  - intros older previous latest. rewrite Hlast. symmetry. exact (Hlast [] previous latest).
  - intro evaluations. unfold detectConcerningPatterns.
    destruct (List.length evaluations <? 2); [simpl; lia |].
    destruct (rev evaluations) as [| latest [| previous rest]]; try (simpl; lia).
    apply concerns_of_length.
  - intros older previous latest. rewrite Hlast. apply concerns_of_high.
Qed.

End ConcernsFacts.

(* ===================================================================== *)
(** ** Further properties: the brace match and the plan parser *)
(* ===================================================================== *)

Section BraceMatchMore.

Lemma greedy_to_close_none_occurs (s : string) :
  JS.greedy_to_close s = None -> Spec.occurs "}" s = false.
Proof.
  induction s as [| c s IH]; [reflexivity |].
  cbn [JS.greedy_to_close Spec.occurs].
  destruct (JS.greedy_to_close s); [discriminate |].
  destruct (Ascii.eqb c "}"); [discriminate |].
  intros _. exact (IH eq_refl).
Qed.

Lemma greedy_to_close_some (s m : string) :
  JS.greedy_to_close s = Some m ->
  exists body after,
    m = body ++ "}" /\ s = m ++ after /\ Spec.occurs "}" after = false.
Proof.
  revert m. induction s as [| c s IH]; intros m; [discriminate |].
  cbn [JS.greedy_to_close].
  destruct (JS.greedy_to_close s) as [m' |] eqn:E.
  - intro H. injection H as <-.
    destruct (IH m' eq_refl) as (body & after & -> & Hs & Ha).
    exists (String c body), after. rewrite Hs at 1. auto.
  - destruct (Ascii.eqb c "}") eqn:Ec; [| discriminate].
    intro H. injection H as <-. apply Ascii.eqb_eq in Ec. subst c.
    exists EmptyString, s. split; [reflexivity |]. split; [reflexivity |].
    exact (greedy_to_close_none_occurs s E).
Qed.

Lemma match_braces_no_close (s : string) :
  Spec.occurs "}" s = false -> JS.match_braces s = None.
Proof.
  induction s as [| c s IH]; [reflexivity |].
  cbn [Spec.occurs JS.match_braces]. intro H.
  apply orb_false_iff in H. destruct H as [_ Hs].
  rewrite (greedy_to_close_none s Hs), (IH Hs).
  destruct (Ascii.eqb c "{"); reflexivity.
Qed.

Lemma match_braces_some (s block : string) :
  JS.match_braces s = Some block ->
  exists before body after,
    s = before ++ block ++ after /\ block = "{" ++ body ++ "}"
    /\ Spec.occurs "{" before = false /\ Spec.occurs "}" after = false.
Proof.
  revert block. induction s as [| c s IH]; intros block; [discriminate |].
  cbn [JS.match_braces].
  destruct (Ascii.eqb c "{") eqn:Ec.
  - apply Ascii.eqb_eq in Ec. subst c.
    destruct (JS.greedy_to_close s) as [m |] eqn:E.
    + intro H. injection H as <-.
      destruct (greedy_to_close_some s m E) as (body & after & -> & Hs & Ha).
      exists EmptyString, body, after. rewrite Hs at 1. auto.
    + rewrite (match_braces_no_close s (greedy_to_close_none_occurs s E)).
      discriminate.
  - intro H. destruct (IH block H) as (before & body & after & -> & Hb & Hbefore & Ha).
    exists (String c before), body, after.
    split; [reflexivity |]. split; [exact Hb |]. split; [| exact Ha].
    cbn [Spec.occurs]. rewrite Ec, Hbefore. reflexivity.
Qed.

Lemma match_braces_none_iff (s : string) :
  JS.match_braces s = None
  <-> (forall before after, s = before ++ "{" ++ after -> Spec.occurs "}" after = false).
Proof.
  induction s as [| c s IH].
  - split; [| reflexivity]. intros _ [| x before] after H; discriminate H.
  - cbn [JS.match_braces]. split.
    + intros Hm [| x before] after H.
      * simpl in H. injection H as -> ->. simpl in Hm.
        destruct (JS.greedy_to_close after) eqn:E; [discriminate |].
        exact (greedy_to_close_none_occurs _ E).
      * simpl in H. injection H as -> Hs.
        apply (proj1 IH) with (before := before); [| exact Hs].
        destruct (Ascii.eqb x "{"); [| exact Hm].
        destruct (JS.greedy_to_close s); [discriminate | exact Hm].
    + intro H.
      assert (Hs : JS.match_braces s = None).
      { apply (proj2 IH). intros before after E.
        apply (H (String c before) after). simpl. rewrite E. reflexivity. }
      rewrite Hs. destruct (Ascii.eqb c "{") eqn:Ec; [| reflexivity].
      apply Ascii.eqb_eq in Ec. subst c.
      rewrite (greedy_to_close_none s (H EmptyString s eq_refl)). reflexivity.
Qed.

End BraceMatchMore.

Section ParserMore.
Context {host : Host}.

(** X9.  What the pattern [/\{[\s\S]*\}/] matches, in full: a match is a
    block that opens with the first [{] of the response and closes with
    its last [}]; there is no match exactly when no [{] of the response
    has a [}] after it (no brace at all, or only [}] before [{]).  Without
    a match [parseBlindEvaluation] returns the conservative default and
    [parsePlanResponse] throws the wrapped "No JSON found" error without
    reading the clock. *)
Theorem brace_match_and_no_json_found (response : string) :
  (forall block,
     JS.match_braces response = Some block ->
     exists before body after,
       response = before ++ block ++ after /\ block = "{" ++ body ++ "}"
       /\ Spec.occurs "{" before = false /\ Spec.occurs "}" after = false)
  /\ (JS.match_braces response = None
      <-> (forall before after,
             response = before ++ "{" ++ after -> Spec.occurs "}" after = false))
  /\ (JS.match_braces response = None ->
      BlindJudge.parseBlindEvaluation response = BlindJudge.conservative_default
      /\ forall w,
           Planner.parsePlanResponse response w
           = (inl (JS.Error "Plan parsing failed: Error: No JSON found in response"), w)).
Proof.
  split; [exact (match_braces_some response) |].
  split; [exact (match_braces_none_iff response) |].
  intro H. split.
  - unfold BlindJudge.parseBlindEvaluation, BlindJudge.parseBlindEvaluation_try.
    rewrite H. reflexivity.
  - intro w.
    unfold Planner.parsePlanResponse, Planner.parsePlanResponse_try, M.catch.
    rewrite H. reflexivity.
Qed.

Lemma parseTask_shape (index : nat) (task : JS.JSON) (w w' : World) (t : PlanTask.t) :
  Planner.parseTask index task w = (inr t, w') ->
  PlanTask.status t = Status.pending
  /\ exists now, PlanTask.id t = "task_" ++ JS.of_nat index ++ "_" ++ JS.of_Z now.
Proof.
  unfold Planner.parseTask, M.bind, M.lift, M.ret.
  destruct (Date_now w) as [now w1].
  destruct (JS.get task "description") as [e | d]; [discriminate |].
  destruct (match d with
            | Some v => if JS.truthy d then Planner.String_of v else inr "Unknown task"
            | None => inr "Unknown task"
            end); [discriminate |].
  destruct (JS.get task "priority"); [discriminate |].
  destruct (JS.get task "dependencies"); [discriminate |].
  intro H. injection H as <- _. split; [reflexivity |]. exists now. reflexivity.
Qed.

Lemma mapTasks_shape (tasks : list JS.JSON) :
  forall (index : nat) (w w' : World) (ts : list PlanTask.t),
  Planner.mapTasks index tasks w = (inr ts, w') ->
  List.length ts = List.length tasks
  /\ forall i t, nth_error ts i = Some t ->
       PlanTask.status t = Status.pending
       /\ exists now, PlanTask.id t = "task_" ++ JS.of_nat (index + i) ++ "_" ++ JS.of_Z now.
Proof.
  induction tasks as [| task tasks IH]; intros index w w' ts.
  - cbn [Planner.mapTasks]. unfold M.ret. intro H. injection H as <- _.
    split; [reflexivity |]. intros [| i] t H; discriminate H.
  - cbn [Planner.mapTasks]. unfold M.bind at 1.
    destruct (Planner.parseTask index task w) as [[e | t0] w1] eqn:Et; [discriminate |].
    unfold M.bind at 1.
    destruct (Planner.mapTasks (S index) tasks w1) as [[e | ts0] w2] eqn:Ets;
      [discriminate |].
    unfold M.ret. intro H. injection H as <- _.
    destruct (IH _ _ _ _ Ets) as [Hlen Hts].
    split; [simpl; congruence |].
    intros [| i] t H.
    + injection H as <-. rewrite Nat.add_0_r. exact (parseTask_shape _ _ _ _ _ Et).
    + rewrite Nat.add_succ_r. exact (Hts i t H).
Qed.

(** X10.  [parsePlanResponse] has two outcomes only.  An error is always
    an [Error] whose message is "Plan parsing failed: " followed by the
    text of the cause, whatever was thrown inside.  A returned plan has an
    id "plan_<time>", every task is [pending] with the id
    "task_<index>_<time>" of its position, and goals, constraints and
    dependencies hold the string entries of the parsed arrays only (so the
    task count is the length of the parsed [tasks] array, zero when it is
    no array). *)
Theorem parsePlanResponse_outcomes (response : string) (w : World) :
  match fst (Planner.parsePlanResponse response w) with
  | inl error =>
      exists cause,
        error = JS.Error ("Plan parsing failed: " ++ JS.String_of_exn cause)
  | inr plan =>
      exists block parsed field,
        JS.match_braces response = Some block
        /\ JSON_parse block = inr parsed
        /\ (forall k, JS.get parsed k = inr (field k))
        /\ (exists now, Plan.id plan = "plan_" ++ JS.of_Z now)
        /\ Plan.goals plan = Spec.string_entries (field "goals")
        /\ Plan.constraints plan = Spec.string_entries (field "constraints")
        /\ List.length (Plan.tasks plan)
           = match field "tasks" with
             | Some (JS.JArray tasks) => List.length tasks
             | _ => 0
             end
        /\ (forall i t,
              nth_error (Plan.tasks plan) i = Some t ->
              PlanTask.status t = Status.pending
              /\ exists now,
                   PlanTask.id t = "task_" ++ JS.of_nat i ++ "_" ++ JS.of_Z now)
  end.
Proof.
  unfold Planner.parsePlanResponse, M.catch.
  destruct (Planner.parsePlanResponse_try response w) as [[e | plan] w'] eqn:E.
  - exists e. reflexivity.
  - cbn [fst]. revert E. unfold Planner.parsePlanResponse_try.
    destruct (JS.match_braces response) as [block |]; [| discriminate].
    unfold M.bind, M.lift, M.ret.
    destruct (JSON_parse block) as [e | parsed] eqn:Hp; [discriminate |].
    destruct (Date_now w) as [now w1].
    destruct (JSON_eq_null parsed) as [-> | Hn]; [discriminate |].
    destruct (get_not_null parsed Hn) as [field Hfield]. rewrite !Hfield.
    destruct (Planner.parseTasks (field "tasks") w1) as [[e | ts] w2] eqn:Ets;
      [discriminate |].
    destruct (Date_now w2) as [created w3].
    intro H. injection H as <- _.
    exists block, parsed, field.
    cbn [Plan.id Plan.goals Plan.constraints Plan.tasks].
    rewrite !Planner_validateStringArray_spec.
    refine (conj eq_refl (conj Hp (conj Hfield (conj _ (conj eq_refl (conj eq_refl _)))))).
    + exists now. reflexivity.
    + revert Ets. unfold Planner.parseTasks.
      destruct (field "tasks") as [[| | | | tasks |] |];
        try (unfold M.ret; intro H; injection H as <- _;
             split; [reflexivity | intros [| i] t H; discriminate H]).
      intro Ets. exact (mapTasks_shape tasks 0 w1 w2 ts Ets).
Qed.

End ParserMore.

(* ===================================================================== *)
(** ** Further properties: a plan against the structure locked from it *)
(* ===================================================================== *)

Section OwnLock.
Import Planner Plain.

Lemma string_app_assoc (a b c : string) : (a ++ b) ++ c = a ++ b ++ c.
Proof. induction a as [| x a IH]; simpl; congruence. Qed.

Lemma string_app_nil_r (a : string) : a ++ EmptyString = a.
Proof. induction a as [| x a IH]; simpl; congruence. Qed.

Lemma piece_refl (s : string) : piece s s.
Proof. exists EmptyString, EmptyString. simpl. rewrite string_app_nil_r. reflexivity. Qed.

Lemma piece_app_r (part x whole : string) : piece part whole -> piece part (x ++ whole).
Proof.
  intros (a & b & ->). exists (x ++ a), b. rewrite string_app_assoc. reflexivity.
Qed.

Lemma piece_app_l (part whole y : string) : piece part whole -> piece part (whole ++ y).
Proof.
  intros (a & b & ->). exists a, (b ++ y). rewrite !string_app_assoc. reflexivity.
Qed.

Lemma piece_trans (a b c : string) : piece a b -> piece b c -> piece a c.
Proof.
  intros Hab (u & v & ->). apply piece_app_r, piece_app_l, Hab.
Qed.

Lemma prefix_app (needle rest : string) : prefix needle (needle ++ rest) = true.
Proof.
  induction needle as [| c needle IH]; simpl; [destruct rest; reflexivity |].
  destruct (ascii_dec c c) as [_ | Hc]; [exact IH | contradiction Hc; reflexivity].
Qed.

Lemma includes_piece (haystack needle : string) :
  piece needle haystack -> JS.includes haystack needle = true.
Proof.
  intros (a & b & ->). induction a as [| c a IH].
  - cbn [append]. destruct (needle ++ b) eqn:E; cbn [JS.includes];
      rewrite <- E, prefix_app; reflexivity.
  - change (String c a ++ needle ++ b) with (String c (a ++ needle ++ b)).
    cbn [JS.includes]. rewrite IH. apply orb_true_r.
Qed.

Lemma toLowerCase_app (a b : string) :
  JS.toLowerCase (a ++ b) = JS.toLowerCase a ++ JS.toLowerCase b.
Proof. induction a as [| c a IH]; simpl; congruence. Qed.

Lemma toLowerCase_piece (a b : string) :
  piece a b -> piece (JS.toLowerCase a) (JS.toLowerCase b).
Proof.
  intros (u & v & ->). exists (JS.toLowerCase u), (JS.toLowerCase v).
  rewrite !toLowerCase_app. reflexivity.
Qed.

(** The first piece that [split] returns starts the string. *)
Lemma split_head (sep : ascii) (s : string) :
  exists w ws rest, JS.split sep s = w :: ws /\ s = w ++ rest.
Proof.
  induction s as [| c s IH]; cbn [JS.split].
  - exists EmptyString, [], EmptyString. split; reflexivity.
  - destruct (Ascii.eqb c sep).
    + exists EmptyString, (JS.split sep s), (String c s). split; reflexivity.
    + destruct IH as (w & ws & rest & -> & E).
      exists (String c w), ws, rest. split; [reflexivity |]. simpl. congruence.
Qed.

(** Every piece that [split] returns is a piece of the string. *)
Lemma split_piece (sep : ascii) (s w : string) :
  In w (JS.split sep s) -> piece w s.
Proof.
  revert w. induction s as [| c s IH]; intros w; cbn [JS.split].
  - intros [<- | []]. apply piece_refl.
  - destruct (Ascii.eqb c sep).
    + intros [<- | H].
      * exists EmptyString, (String c s). reflexivity.
      * apply (piece_app_r w (JS.str c) s), IH, H.
    + destruct (split_head sep s) as (w0 & ws & rest & E & Hs).
      rewrite E in *. intros [<- | H].
      * exists EmptyString, rest. simpl. congruence.
      * apply (piece_app_r w (JS.str c) s), IH. right. exact H.
Qed.

Lemma escape_char_plain (c : ascii) : escaped c = false -> JS.escape_char c = JS.str c.
Proof.
  destruct c as [[] [] [] [] [] [] [] []]; vm_compute; intro H;
    first [reflexivity | discriminate H].
Qed.

Lemma escape_plain (s : string) : plain s = true -> JS.escape s = s.
Proof.
  induction s as [| c s IH]; [reflexivity |].
  cbn [plain JS.escape]. intro H. apply andb_true_iff in H. destruct H as [Hc Hs].
  apply negb_true_iff in Hc. rewrite (escape_char_plain c Hc), (IH Hs). reflexivity.
Qed.

Lemma join_piece (sep : string) (f : string -> string) (l : list string) (x : string) :
  In x l -> piece (f x) (JS.join sep (map f l)).
Proof.
  unfold JS.join. induction l as [| y l IH]; [intros [] |].
  intros [-> | H].
  - cbn [map String.concat]. destruct (map f l); [apply piece_refl |].
    apply piece_app_l, piece_refl.
  - cbn [map String.concat]. specialize (IH H).
    destruct l as [| z l]; [destruct H |].
    cbn [map] in *. apply piece_app_r, piece_app_r, IH.
Qed.

(** A plain constraint is written as is into the serialized plan. *)
Lemma constraint_in_stringify_plan (plan : Plan.t) (decision : string) :
  In decision (Plan.constraints plan) -> plain decision = true ->
  piece decision (stringify_plan plan).
Proof.
  intros Hin Hplain.
  apply piece_trans with (b := JS.quote decision).
  { unfold JS.quote. rewrite (escape_plain _ Hplain).
    apply piece_app_r, piece_app_l, piece_refl. }
  apply piece_trans with (b := JS.stringify_strings (Plan.constraints plan)).
  { unfold JS.stringify_strings. apply piece_app_r, piece_app_l.
    apply join_piece, Hin. }
  unfold stringify_plan.
  do 17 apply piece_app_r. apply piece_app_l, piece_refl.
Qed.

Lemma filter_all {A} (f : A -> bool) (l : list A) :
  (forall x, In x l -> f x = true) -> filter f l = l.
Proof.
  induction l as [| a l IH]; intro H; [reflexivity |].
  cbn [filter]. rewrite (H a (or_introl eq_refl)), IH; [reflexivity |].
  intros x Hx. apply H. right. exact Hx.
Qed.

Lemma own_goal_kept (plan : Plan.t) (goal : string) :
  In goal (Plan.goals plan) -> Spec.goal_missing plan goal = false.
Proof.
  intro H. unfold Spec.goal_missing. apply negb_false_iff, existsb_exists.
  exists goal. split; [exact H |]. apply String.eqb_refl.
Qed.

Lemma plain_decision_covered (plan : Plan.t) (decision : string) :
  In decision (Plan.constraints plan) -> plain decision = true ->
  Spec.decision_uncovered plan decision = false.
Proof.
  intros Hin Hplain. unfold Spec.decision_uncovered, Spec.under_half. cbv zeta.
  rewrite filter_all; [apply Nat.ltb_ge; lia |].
  intros t Ht. apply filter_In in Ht. destruct Ht as [Ht _].
  unfold Spec.appears. apply includes_piece.
  pose proof (split_lower " " _ (toLowerCase_idem decision)) as Hall.
  rewrite Forall_forall in Hall. rewrite (Hall t Ht).
  apply piece_trans with (b := JS.toLowerCase decision).
  - apply (split_piece " "). exact Ht.
  - apply toLowerCase_piece, constraint_in_stringify_plan; assumption.
Qed.

Lemma filter_none {A} (f : A -> bool) (l : list A) :
  (forall x, In x l -> f x = false) -> filter f l = [].
Proof.
  induction l as [| a l IH]; intro H; [reflexivity |].
  cbn [filter]. rewrite (H a (or_introl eq_refl)). apply IH.
  intros x Hx. apply H. right. exact Hx.
Qed.

(** X11.  A plan checked against the structure locked from it
    ([createLockedStructure] of the same plan, at any round) never loses a
    goal: every reported violation is about a constraint, and only about
    one that holds a character [JSON.stringify] escapes (a double quote, a
    backslash or a control character).  When no constraint holds such a
    character the plan is valid against its own lock. *)
Theorem plan_against_its_own_lock (plan : Plan.t) (round : nat) :
  let r := validateAgainstLockedStructure plan (createLockedStructure plan round) in
  (forall violation,
     In violation (violations r) ->
     exists decision,
       In decision (Plan.constraints plan)
       /\ plain decision = false
       /\ violation = decision_violation decision)
  /\ (forallb plain (Plan.constraints plan) = true ->
      r = {| valid := true; violations := [] |}).
Proof.
  cbv zeta. unfold validateAgainstLockedStructure, createLockedStructure.
  cbn [LockedStructure.goals LockedStructure.core_decisions violations].
  rewrite goals_loop, decisions_loop.
  rewrite (filter_none (Spec.goal_missing plan) (Plan.goals plan) (own_goal_kept plan)).
  cbn [map app]. split.
  - intros violation H. apply in_map_iff in H. destruct H as (decision & <- & H).
    apply filter_In in H. destruct H as [Hin Hun].
    exists decision. split; [exact Hin |]. split; [| reflexivity].
    destruct (plain decision) eqn:Hp; [| reflexivity].
    rewrite (plain_decision_covered plan decision Hin Hp) in Hun. discriminate Hun.
  - intro H. rewrite forallb_forall in H.
    rewrite filter_none; [reflexivity |].
    intros decision Hin. apply plain_decision_covered; [exact Hin | exact (H _ Hin)].
Qed.

End OwnLock.

(* ===================================================================== *)
(** ** Further properties: the hook calls and the result of a run *)
(* ===================================================================== *)

Section OrchestratorProtocol.
Context {host : Host} {wording : Wording}.
Variable config : Orchestrator.OrchestratorConfig.
Import Orchestrator Runs Protocol.

Ltac wp_go := wp_step; cbv beta iota; cbn [state hooks world].

Ltac flds :=
  cbn [state hooks world currentRound roundHistory goal context isRunning lastResult
       set_currentRound set_roundHistory set_goal set_context set_isRunning
       set_lastResult set_plan set_evaluation set_stability set_locked_structure
       RoundState.number RoundState.phase RoundState.plan RoundState.evaluation
       RoundState.stability RoundState.locked_structure
       RoundResult.round RoundResult.plan RoundResult.evaluation
       RoundResult.stability RoundResult.decision] in *.

Lemma wp_conj {S A} (m : M.t S A) (Q1 Q2 : JS.exn + A -> S -> Prop) (s : S) :
  M.wp m Q1 s -> M.wp m Q2 s -> M.wp m (fun r s' => Q1 r s' /\ Q2 r s') s.
Proof. unfold M.wp. auto. Qed.

Lemma events_app (a b : list HookCall) : events (a ++ b) = (events a ++ events b)%list.
Proof. apply filter_app. Qed.

Lemma events_log (calls : list HookCall) (t : LogType) (m : string) :
  events (calls ++ [onLog t m]) = events calls.
Proof. rewrite events_app. cbn. apply app_nil_r. Qed.

Lemma silent_log (t : LogType) (m : string) : silent (log t m).
Proof.
  intros Q o H. unfold log, call. wp_step. apply H; cbn [state hooks].
  - reflexivity.
  - apply events_log.
Qed.

Lemma silent_ret {A} (a : A) : silent (M.ret a : Op A).
Proof. intros Q o H. wp_step. apply H; reflexivity. Qed.

Lemma silent_bind {A B} (m : Op A) (k : A -> Op B) :
  silent m -> (forall a, silent (k a)) -> silent (M.bind m k).
Proof.
  intros Hm Hk Q o H. wp_step. apply Hm. intros r o1 Hs Hh.
  destruct r as [e | a].
  - apply H; assumption.
  - apply Hk. intros r o2 Hs2 Hh2. apply H; congruence.
Qed.

Lemma silent_gets {A} (f : Run -> A) : silent (M.gets f).
Proof. intros Q o H. wp_step. apply H; reflexivity. Qed.

Lemma silent_lift {A} (r : JS.exn + A) : silent (M.lift r : Op A).
Proof. intros Q o H. wp_step. apply H; reflexivity. Qed.

Lemma silent_on_world {A} (m : M.t World A) : silent (on_world m).
Proof. intros Q o H. unfold on_world. wp_step. apply H; reflexivity. Qed.

Ltac silent_step :=
  lazymatch goal with
  | |- silent (M.bind _ _) => apply silent_bind; [| intro]
  | |- silent (M.ret _) => apply silent_ret
  | |- silent (M.lift _) => apply silent_lift
  | |- silent (M.gets _) => apply silent_gets
  | |- silent (log _ _) => apply silent_log
  | |- silent (aiProvider _) => apply silent_on_world
  | |- silent (on_world _) => apply silent_on_world
  | |- silent (match ?x with _ => _ end) => destruct x
  | |- silent (if ?b then _ else _) => destruct b
  end.

Lemma silent_generatePlan : silent generatePlan.
Proof. unfold generatePlan, getState. repeat silent_step. Qed.

Lemma silent_evaluatePlan (plan : Plan.t) : silent (evaluatePlan plan).
Proof. unfold evaluatePlan, getState. repeat silent_step. Qed.

Lemma executeRound_trace (o : Run) :
  M.wp (executeRound config) (round_trace o) o.
Proof.
  destruct o as [w s h]. unfold round_trace. cbv zeta. flds.
  unfold executeRound. wp_go. unfold startNewRound, update. wp_go. cbv zeta.
  destruct (startNewRound_state s) as (s1 & -> & _ & _ & _ & _ & _ & Hcur).
  rewrite Hcur. clear Hcur.
  set (n := RoundState.number (currentRound s)). clearbody n.
  unfold getState. wp_go. wp_go. cbv zeta. flds.
  unfold call. wp_go. wp_go. wp_go. unfold log, call. wp_go. wp_go.
  apply silent_generatePlan. intros r [w1 s2 h1] Hs Hh. flds. subst s2.
  rewrite events_log, events_app in Hh. cbn [events filter is_log negb app] in Hh.
  destruct r as [e | plan].
  { split; [exact Hh | exact I]. }
  unfold update_round, update. wp_go. wp_go. flds.
  unfold log, call. wp_go. wp_go. flds. wp_go.
  assert (Hh1 : events (h1 ++ [onLog log_decision
                                 ("Plan generated with "
                                  ++ JS.of_nat (List.length (Plan.tasks plan))
                                  ++ " tasks")])
                = (events h ++ [onRoundStart (n + 1)])%list)
    by (rewrite events_log; exact Hh).
  revert Hh1. generalize (h1 ++ [onLog log_decision
                                   ("Plan generated with "
                                    ++ JS.of_nat (List.length (Plan.tasks plan))
                                    ++ " tasks")])%list.
  clear Hh h1. intros h1 Hh.
  destruct (n + 1 =? 1); repeat wp_go; flds.
  all: apply silent_evaluatePlan; intros r [w3 s3 h3] Hs3 Hh3; flds; subst s3.
  all: rewrite ?events_log in Hh3; rewrite Hh in Hh3; clear Hh.
  all: destruct r as [e | evaluation]; [split; [exact Hh3 | exact I] |].
  all: repeat first
         [ wp_go
         | progress (unfold update_round, update, log, call, getState)
         | progress cbv zeta
         | match goal with |- M.wp (if ?b then _ else _) _ _ => destruct b end ];
       flds.
  all: rewrite ?events_app, ?events_log, Hh3; cbn [events filter is_log negb app].
  all: rewrite ?app_nil_r; rewrite <- app_assoc; cbn [app].
  all: split; [reflexivity | eexists; reflexivity].
Qed.


Lemma terminate_trace (roundResult : RoundResult.t) (o : Run) :
  M.wp (terminate roundResult)
    (fun r o' =>
       exists result,
         r = inr result
         /\ reports result roundResult
         /\ hooks o'
            = (hooks o
               ++ [onTerminate result;
                   onLog log_termination
                     ("Orchestration terminated: "
                      ++ getTerminationMessage
                           (TerminationDecision.reason
                              (RoundResult.decision roundResult)))])%list) o.
Proof.
  destruct o as [w s h]. unfold terminate, update, log, call.
  repeat wp_go. cbv zeta. repeat wp_go.
  eexists. split; [reflexivity |]. split.
  - unfold reports. cbv zeta. repeat split.
  - flds. rewrite <- app_assoc. reflexivity.
Qed.

Lemma on_error_trace (e : JS.exn) (o : Run) :
  RoundState.stability (currentRound (state o)) = None ->
  M.wp (on_error e)
    (fun r o' =>
       r = inr (Some (failure_result e (RoundState.number (currentRound (state o)))))
       /\ hooks o'
          = (hooks o
             ++ [onLog log_error ("Orchestration error: " ++ JS.String_of_exn e)])%list) o.
Proof.
  intro Hnone. destruct o as [w s h]. unfold on_error, log, call, getState.
  repeat wp_go. flds. rewrite Hnone. split; reflexivity.
Qed.

Lemma round_computed (o o' : Run) (result : RoundResult.t) :
  initial (state o) \/ settled (state o) ->
  round_effect config o (inr result) o' -> round_trace o (inr result) o' ->
  computed config result.
Proof.
  intros Pre Eff Tr.
  destruct (round_settles config o o' result Pre Eff) as (_ & _ & Hlen & _).
  unfold round_effect, round_trace in *. cbv zeta in *.
  destruct Eff as (_ & _ & _ & _ & _ & Hn & _ & _ & Hround & _ & _ & _ & _ & Hdec).
  destruct Tr as [_ (evaluated & Hst)].
  exists (currentRound (state o')), evaluated, (roundHistory (state o')).
  refine (conj _ (conj _ (conj Hst Hdec))); lia.
Qed.

Lemma loop_protocol_spec (fuel : nat) :
  forall o : Run,
    initial (state o) \/ settled (state o) ->
    M.wp (loop config fuel) (loop_protocol config o fuel) o.
Proof.
  induction fuel as [| fuel IH]; intros o Pre.
  - cbn [loop]. wp_go. unfold loop_protocol. cbv zeta.
    exists [], []. cbn [round_calls flat_map app List.length seq map].
    rewrite app_nil_r. repeat split; constructor.
  - cbn [loop]. wp_go. unfold getState. wp_go.
    assert (Run : isRunning (state o) = true).
    { destruct Pre as [(H & _) | (H & _)]; exact H. }
    rewrite Run. wp_go.
    eapply wp_mono;
      [apply wp_conj; [apply (executeRound_effect config) | apply executeRound_trace] |].
    intros r o1 [Eff Tr]. destruct r as [e | roundResult].
    + (* the round threw *)
      unfold round_effect in Eff. cbv zeta in Eff.
      destruct Eff as (_ & _ & _ & _ & _ & Hn & _ & _ & Hnone & _).
      destruct Tr as [Hev _].
      unfold loop_protocol. cbv zeta.
      exists [], [onRoundStart (RoundState.number (currentRound (state o)) + 1)].
      cbn [round_calls flat_map app List.length seq map]. rewrite Nat.add_0_r.
      refine (conj Hev (conj eq_refl (conj (Forall_nil _)
                (conj (Forall_nil _) (conj eq_refl (conj Hn Hnone)))))).
    + (* the round ended with a decision *)
      pose proof (round_computed o o1 roundResult Pre Eff Tr) as Hcomp.
      pose proof (round_settles config o o1 roundResult Pre Eff) as Hset.
      unfold round_effect in Eff. cbv zeta in Eff.
      destruct Eff as (_ & _ & _ & _ & _ & Hn & _ & _ & Hround & _).
      destruct Tr as [Hev _].
      assert (Hcalls : events (hooks o1)
                       = (events (hooks o) ++ round_calls [roundResult])%list).
      { rewrite Hev. cbn [round_calls flat_map app]. rewrite Hround. reflexivity. }
      clear Hev.
      destruct (TerminationDecision.should_terminate (RoundResult.decision roundResult))
        eqn:Hterm.
      * wp_go. eapply wp_mono; [apply terminate_trace |].
        intros r o2 (result & -> & Hrep & Hh2). wp_go.
        unfold loop_protocol. cbv zeta.
        exists [roundResult], [onTerminate result].
        refine (conj _ (conj _ (conj _ _))).
        -- rewrite Hh2, events_app, Hcalls. cbn [events filter is_log negb].
           rewrite <- app_assoc. reflexivity.
        -- cbn [map List.length seq]. rewrite Hround. reflexivity.
        -- constructor; [exact Hcomp | constructor].
        -- exists [], roundResult.
           refine (conj eq_refl (conj (Forall_nil _) (conj Hterm (conj eq_refl
                     (conj Hrep _))))).
           exists (hooks o1). exact Hh2.
      * eapply wp_mono; [apply (IH o1); right; exact Hset |].
        intros r o2. unfold loop_protocol. cbv zeta.
        intros (results & tail & He & Hnum & Hcomps & Hcase).
        exists (roundResult :: results), tail.
        refine (conj _ (conj _ (conj _ _))).
        -- rewrite He, Hcalls. cbn [round_calls flat_map app].
           rewrite <- !app_assoc. reflexivity.
        -- cbn [map List.length seq]. rewrite Hround, Hnum, Hn.
           replace (RoundState.number (currentRound (state o)) + 1 + 1)
             with (S (RoundState.number (currentRound (state o)) + 1)) by lia.
           reflexivity.
        -- constructor; assumption.
        -- destruct r as [e | [result |]].
           ++ destruct Hcase as (Hc & -> & Hnum' & Hnone).
              refine (conj _ (conj _ (conj _ Hnone))).
              ** constructor; assumption.
              ** f_equal. f_equal. cbn [List.length]. lia.
              ** rewrite Hnum'. cbn [List.length]. lia.
           ++ destruct Hcase as (earlier & last & -> & Hc & Ht & -> & Hrep & Hlast).
              exists (roundResult :: earlier), last.
              refine (conj eq_refl (conj _ (conj Ht (conj eq_refl (conj Hrep Hlast))))).
              constructor; assumption.
           ++ destruct Hcase as (Hc & -> & Hlen).
              refine (conj _ (conj eq_refl _)).
              ** constructor; assumption.
              ** cbn [List.length]. congruence.
Qed.

(** Every way [execute] can end, seen from the hooks. *)
Lemma execute_protocols (fuel : nat) (goal context : string) (o : Run) :
  M.wp (execute config fuel goal context) (execute_protocol config o fuel) o.
Proof.
  destruct o as [w s h]. unfold execute, update, log, call.
  repeat wp_go.
  set (o0 := {| world := w;
                state := set_isRunning true (set_context context
                           (set_goal goal createInitialState));
                hooks := (h ++ [onLog log_round_start
                                  ("Starting orchestration for: " ++ goal)])%list |}).
  assert (Pre : initial (state o0) \/ settled (state o0)).
  { left. repeat split. }
  eapply wp_mono; [apply (loop_protocol_spec fuel o0 Pre) |].
  intros r o1. unfold loop_protocol. cbv zeta.
  change (RoundState.number (currentRound (state o0))) with 0.
  replace (events (hooks o0)) with (events h)
    by (unfold o0; cbn [hooks]; rewrite events_log; reflexivity).
  cbn [Nat.add].
  intros (results & tail & He & Hnum & Hcomps & Hcase).
  destruct r as [e | [result |]].
  - destruct Hcase as (Hc & -> & Hn & Hnone).
    eapply wp_mono; [apply (on_error_trace e o1 Hnone) |].
    intros r o2 (-> & Hh). unfold execute_protocol.
    exists results, [onRoundStart (S (List.length results))]. cbn [hooks].
    refine (conj _ (conj Hnum (conj Hcomps _))).
    + rewrite Hh, events_log, He.
      replace (S (List.length results)) with (List.length results + 1) by lia.
      reflexivity.
    + right. exists e. refine (conj Hc (conj eq_refl (conj _ _))).
      * rewrite Hn.
        replace (S (List.length results)) with (List.length results + 1) by lia.
        reflexivity.
      * exists (hooks o1). exact Hh.
  - unfold execute_protocol. exists results, tail. cbn [hooks].
    refine (conj He (conj Hnum (conj Hcomps _))). left. exact Hcase.
  - unfold execute_protocol. exists results, tail. cbn [hooks].
    refine (conj He (conj Hnum (conj Hcomps Hcase))).
Qed.

(** X12.  The hook protocol of [execute].  Leaving log entries aside, the
    calls made during a run are, for rounds numbered 1, 2, 3, ... in order,
    [onRoundStart] with the number and then [onRoundComplete] with the
    result of that round, every round but the last deciding to go on;
    then either [onTerminate] with the returned result, which reports the
    last round (the one that decided to terminate), the termination log
    entry being the last call of all; or, when a round throws, the
    [onRoundStart] of that round with no [onRoundComplete] and no
    [onTerminate], the returned result being the failure result of that
    round and the error log entry the last call of all.  The promise of
    [execute] never rejects. *)
Theorem execute_hook_protocol (fuel : nat) (goal context : string) (o : Run) :
  let r := fst (execute config fuel goal context o) in
  let o' := snd (execute config fuel goal context o) in
  exists results tail,
    events (hooks o') = (events (hooks o) ++ round_calls results ++ tail)%list
    /\ map RoundResult.round results = seq 1 (List.length results)
    /\ match r with
       | inr (Some result) =>
           (exists earlier last,
              results = (earlier ++ [last])%list
              /\ Forall continues earlier
              /\ TerminationDecision.should_terminate (RoundResult.decision last) = true
              /\ tail = [onTerminate result]
              /\ reports result last
              /\ exists before,
                   hooks o'
                   = (before
                      ++ [onTerminate result;
                          onLog log_termination
                            ("Orchestration terminated: "
                             ++ getTerminationMessage
                                  (TerminationDecision.reason
                                     (RoundResult.decision last)))])%list)
           \/ (exists e,
                 Forall continues results
                 /\ tail = [onRoundStart (S (List.length results))]
                 /\ result = failure_result e (S (List.length results))
                 /\ exists before,
                      hooks o'
                      = (before
                         ++ [onLog log_error
                               ("Orchestration error: " ++ JS.String_of_exn e)])%list)
       | inr None =>
           Forall continues results /\ tail = [] /\ List.length results = fuel
       | inl _ => False
       end.
Proof.
  cbv zeta. pose proof (execute_protocols fuel goal context o) as H.
  unfold M.wp, execute_protocol in H.
  destruct H as (results & tail & He & Hnum & _ & Hcase).
  exists results, tail. refine (conj He (conj Hnum _)).
  destruct (fst (execute config fuel goal context o)) as [e | [result |]];
    exact Hcase.
Qed.

Lemma overall_stability_in01 (current : RoundState.t) (previous : option RoundState.t)
    (evaluation : BlindEvaluation.t) :
  SpecNum.in01
    (StabilityMetrics.overall_stability
       (StabilityTracker.calculateStability current previous evaluation
          StabilityTracker.defaultConfig)).
Proof.
  unfold StabilityTracker.calculateStability. cbn [StabilityMetrics.overall_stability].
  set (cr := Num.min _ 1).
  set (dr := StabilityTracker.calculateDecisionReuseRate _ _).
  set (ps := StabilityTracker.calculatePlanSimilarity _ _).
  set (gc := StabilityTracker.calculateGoalConvergence _).
  assert (Hcr : SpecNum.in01 cr).
  { apply min_in01. apply Qle_shift_div_l; [reflexivity |].
    rewrite Qmult_0_l. apply of_nat_nonneg. }
  assert (Hdr : SpecNum.in01 dr) by apply calculateDecisionReuseRate_in01.
  assert (Hps : SpecNum.in01 ps) by apply calculatePlanSimilarity_in01.
  assert (Hgc : SpecNum.in01 gc) by apply calculateGoalConvergence_in01.
  cbn [StabilityTracker.weights StabilityTracker.defaultConfig
       StabilityTracker.contradictionRatio StabilityTracker.decisionReuseRate
       StabilityTracker.planSimilarity StabilityTracker.goalConvergence].
  apply (proj2 (round_two_decimals _)).
  destruct Hcr, Hdr, Hps, Hgc. split; lra.
Qed.

(** X13.  The result of [execute] is consistent, whatever the model
    answers.  The promise never rejects; a returned result is marked
    terminated, has a round number of at least 1, a stability in [0,1] and
    a termination reason that is never [continue]; it is a success exactly
    when the reason is [stability_achieved] or [task_complete]; and with
    the reason [stability_achieved] its stability is at least the
    configured threshold. *)
Theorem execute_result_consistent (fuel : nat) (goal context : string) (o : Run) :
  match fst (execute config fuel goal context o) with
  | inr (Some result) =>
      ExecutionResult.terminated result = true
      /\ 1 <= ExecutionResult.round result
      /\ SpecNum.in01 (ExecutionResult.stability result)
      /\ exists reason,
           ExecutionResult.termination_reason result = Some reason
           /\ reason <> continue
           /\ (ExecutionResult.success result = true
               <-> reason = stability_achieved \/ reason = task_complete)
           /\ (reason = stability_achieved ->
               (stabilityThreshold config <= ExecutionResult.stability result)%Q)
  | inr None => True
  | inl _ => False
  end.
Proof.
  pose proof (execute_protocols fuel goal context o) as H.
  unfold M.wp, execute_protocol in H.
  destruct H as (results & tail & _ & Hnum & Hcomps & Hcase).
  destruct (fst (execute config fuel goal context o)) as [e | [result |]];
    [exact Hcase | | exact I].
  destruct Hcase as [(earlier & last & -> & _ & Hterm & _ & Hrep & _)
                    | (e & _ & _ & -> & _)].
  - apply Forall_app in Hcomps. destruct Hcomps as [_ Hlast].
    inversion Hlast as [| ? ? (cur & evaluated & history & Hcur & Hlen & Hst & Hdec) _].
    subst. unfold reports in Hrep. cbv zeta in Hrep.
    destruct Hrep as (Hround & Hstab & Hreason & Hsucc & Hdone & _).
    refine (conj Hdone (conj _ (conj _ _))).
    + rewrite Hround.
      rewrite map_app in Hnum. cbn [map] in Hnum.
      assert (Hin : In (RoundResult.round last)
                      (seq 1 (List.length (earlier ++ [last])))).
      { rewrite <- Hnum. apply in_or_app. right. left. reflexivity. }
      apply in_seq in Hin. lia.
    + rewrite Hstab, Hst. apply overall_stability_in01.
    + exists (TerminationDecision.reason (RoundResult.decision last)).
      refine (conj Hreason (conj _ (conj _ _))).
      * intro Hc. rewrite Hdec in Hc, Hterm.
        rewrite (makeTerminationDecision_continue _ _ Hc) in Hterm. discriminate Hterm.
      * rewrite Hsucc.
        destruct (TerminationDecision.reason (RoundResult.decision last));
          split; intro H; try discriminate H; auto;
          destruct H as [H | H]; discriminate H.
      * intro Hr. rewrite Hdec in Hr. apply reason_stability_achieved in Hr.
        unfold Rules.stabilityAchieved in Hr.
        cbn [DecisionEngine.stabilityThreshold DecisionEngine.latestStability] in Hr.
        rewrite Hstab. exact Hr.
  - cbn [failure_result ExecutionResult.terminated ExecutionResult.round
         ExecutionResult.stability ExecutionResult.termination_reason
         ExecutionResult.success].
    refine (conj eq_refl (conj _ (conj _ _))).
    + lia.
    + split; [apply Qle_refl | discriminate].
    + exists max_rounds_reached.
      refine (conj eq_refl (conj _ (conj _ _))).
      * discriminate.
      * split; [discriminate | intros [H | H]; discriminate H].
      * discriminate.
Qed.

(** X14.  Which rounds a termination reason can come from, in any run of
    [execute].  [goal_diverging] needs two rounds.
    [contradiction_trend_up] needs three rounds and a round number below
    [maxRounds]: with [maxRounds] at most 3, as in the default
    configuration, no run ever ends with it.  Under a stability threshold
    above 0.75, such as the default, [stability_achieved] cannot come from
    the first round. *)
Theorem termination_reason_needs_rounds (fuel : nat) (goal context : string) (o : Run) :
  match fst (execute config fuel goal context o) with
  | inr (Some result) =>
      let reason := ExecutionResult.termination_reason result in
      (reason = Some goal_diverging -> 2 <= ExecutionResult.round result)
      /\ (reason = Some contradiction_trend_up ->
          3 <= ExecutionResult.round result
          /\ (Z.of_nat (ExecutionResult.round result) < maxRounds config)%Z)
      /\ (reason = Some stability_achieved ->
          (0.75 < stabilityThreshold config)%Q -> 2 <= ExecutionResult.round result)
      /\ ((maxRounds config <= 3)%Z -> reason <> Some contradiction_trend_up)
  | _ => True
  end.
Proof.
  pose proof (execute_protocols fuel goal context o) as H.
  unfold M.wp, execute_protocol in H.
  destruct H as (results & tail & _ & _ & Hcomps & Hcase).
  destruct (fst (execute config fuel goal context o)) as [e | [result |]];
    [exact I | | exact I].
  cbv zeta.
  destruct Hcase as [(earlier & last & -> & _ & _ & _ & Hrep & _)
                    | (e & _ & _ & -> & _)].
  - apply Forall_app in Hcomps. destruct Hcomps as [_ Hlast].
    inversion Hlast as [| ? ? (cur & evaluated & history & Hcur & Hlen & Hst & Hdec) _].
    subst. unfold reports in Hrep. cbv zeta in Hrep.
    destruct Hrep as (Hround & Hstab & Hreason & _).
    rewrite Hreason, Hround, Hdec.
    assert (Hdiv : Some (TerminationDecision.reason
                           (DecisionEngine.makeTerminationDecision
                              {| DecisionEngine.currentRound := cur;
                                 DecisionEngine.roundHistory := history;
                                 DecisionEngine.latestEvaluation :=
                                   RoundResult.evaluation last;
                                 DecisionEngine.latestStability :=
                                   RoundResult.stability last |}
                              {| DecisionEngine.maxRounds := maxRounds config;
                                 DecisionEngine.stabilityThreshold :=
                                   stabilityThreshold config;
                                 DecisionEngine.goalDivergenceLimit := 2 |}))
                   = Some contradiction_trend_up ->
                   3 <= RoundResult.round last
                   /\ (Z.of_nat (RoundResult.round last) < maxRounds config)%Z).
    { intro Hr. injection Hr as Hr. apply reason_contradiction_trend_up in Hr.
      cbn [DecisionEngine.roundHistory DecisionEngine.currentRound
           DecisionEngine.maxRounds] in Hr.
      rewrite Hcur in Hr. split; [lia | apply Hr]. }
    refine (conj _ (conj Hdiv (conj _ _))).
    + intro Hr. injection Hr as Hr. apply reason_goal_diverging in Hr.
      cbn [DecisionEngine.roundHistory DecisionEngine.goalDivergenceLimit] in Hr. lia.
    + intros Hr Hthr. injection Hr as Hr. apply reason_stability_achieved in Hr.
      unfold Rules.stabilityAchieved in Hr.
      cbn [DecisionEngine.stabilityThreshold DecisionEngine.latestStability] in Hr.
      destruct history as [| r0 history]; [| simpl in Hlen; lia].
      rewrite Hst in Hr.
      pose proof (overall_stability_without_previous evaluated (last_of [])
                    (RoundResult.evaluation last) eq_refl) as Hcap.
      lra.
    + intros Hmax Hr. destruct (Hdiv Hr) as [H3 Hlt]. lia.
  - cbn [failure_result ExecutionResult.termination_reason ExecutionResult.round].
    refine (conj _ (conj _ (conj _ _))); discriminate.
Qed.

(** X15.  [generatePlan] never changes the fields of the orchestrator and
    makes at most one hook call: an error log entry that lists the
    violations, exactly when the round is a REFINER round with a locked
    structure and the parsed plan is not valid against it.  The violating
    plan is returned all the same: violations are logged, never raised and
    never repaired.  When [generatePlan] throws (the prompt, the model call
    or the parser failed) no hook is called. *)
Theorem generatePlan_logs_violations_only (o : Run) :
  let r := fst (generatePlan o) in
  let o' := snd (generatePlan o) in
  let round := currentRound (state o) in
  state o' = state o
  /\ hooks o'
     = (hooks o
        ++ match r, RoundState.phase round, RoundState.locked_structure round with
           | inr plan, REFINER, Some locked =>
               let validation := Planner.validateAgainstLockedStructure plan locked in
               if Planner.valid validation then []
               else [onLog log_error
                       ("Structure violations detected: "
                        ++ JS.join ", " (Planner.violations validation))]
           | _, _, _ => []
           end)%list.
Proof.
  cbv zeta.
  change (M.wp generatePlan
            (fun r o' =>
               state o' = state o
               /\ hooks o'
                  = (hooks o
                     ++ match r, RoundState.phase (currentRound (state o)),
                              RoundState.locked_structure (currentRound (state o)) with
                        | inr plan, REFINER, Some locked =>
                            if Planner.valid
                                 (Planner.validateAgainstLockedStructure plan locked)
                            then []
                            else [onLog log_error
                                    ("Structure violations detected: "
                                     ++ JS.join ", "
                                          (Planner.violations
                                             (Planner.validateAgainstLockedStructure
                                                plan locked)))]
                        | _, _, _ => []
                        end)%list) o).
  destruct o as [w s h]. unfold generatePlan, getState. flds.
  wp_go. wp_go. cbv zeta. wp_go. wp_go.
  destruct (match RoundState.phase (currentRound s) with
            | ARCHITECT => _
            | REFINER => _
            end) as [e | prompt].
  { flds. rewrite app_nil_r. split; reflexivity. }
  wp_go. unfold aiProvider, on_world. wp_go. flds.
  destruct r as [e | response].
  { rewrite app_nil_r. split; reflexivity. }
  wp_go. wp_go. flds.
  destruct r as [e | plan].
  { rewrite app_nil_r. split; reflexivity. }
  wp_go.
  destruct (RoundState.phase (currentRound s)).
  { wp_go. wp_go. flds. rewrite app_nil_r. split; reflexivity. }
  destruct (RoundState.locked_structure (currentRound s)) as [locked |].
  - cbv zeta.
    destruct (Planner.valid (Planner.validateAgainstLockedStructure plan locked))
      eqn:Hvalid;
      cbn [negb]; unfold log, call; repeat wp_go; flds;
      rewrite Hvalid, ?app_nil_r; split; reflexivity.
  - wp_go. wp_go. flds. rewrite app_nil_r. split; reflexivity.
Qed.

End OrchestratorProtocol.

(* ===================================================================== *)
(** ** Further properties: the stability status and the decision engine *)
(* ===================================================================== *)

Section StatusFacts.
Import StabilityTracker StabilityStatus.

Lemma geb_false (x y : Q) : Num.geb x y = false <-> (x < y)%Q.
Proof.
  unfold Num.geb. rewrite <- not_true_iff_false, Qle_bool_iff. split.
  - apply Qnot_le_lt.
  - apply Qlt_not_le.
Qed.

(** X16.  The status shown for a stability agrees with what is done with
    it.  The status is [stable] exactly when [shouldAutoTerminate] holds,
    and [unstable] exactly when the overall stability is below both
    thresholds.  Under the default configurations of the tracker and of the
    decision engine, a stability for which [shouldAutoTerminate] holds
    makes [makeTerminationDecision] terminate, and the reason
    [stability_achieved] is given only for such a stability.  The
    stability of a round without a previous plan is never [stable] under
    the default configuration. *)
Theorem stability_status_consistent :
  (forall m cfg, getStabilityStatus m cfg = stable <-> shouldAutoTerminate m cfg = true)
  /\ (forall m cfg,
        getStabilityStatus m cfg = unstable
        <-> (StabilityMetrics.overall_stability m < autoTerminateThreshold cfg
             /\ StabilityMetrics.overall_stability m < warningThreshold cfg)%Q)
  /\ (forall c,
        shouldAutoTerminate (DecisionEngine.latestStability c) defaultConfig = true ->
        TerminationDecision.should_terminate
          (DecisionEngine.makeTerminationDecision c DecisionEngine.defaultConfig) = true)
  /\ (forall c,
        TerminationDecision.reason
          (DecisionEngine.makeTerminationDecision c DecisionEngine.defaultConfig)
        = stability_achieved ->
        shouldAutoTerminate (DecisionEngine.latestStability c) defaultConfig = true)
  /\ (forall currentRound previousRound evaluation,
        plan_of previousRound = None ->
        getStabilityStatus
          (calculateStability currentRound previousRound evaluation defaultConfig)
          defaultConfig <> stable).
Proof.
  assert (Hstable : forall m cfg,
            getStabilityStatus m cfg = stable <-> shouldAutoTerminate m cfg = true).
  { intros m cfg. unfold getStabilityStatus, shouldAutoTerminate. cbv zeta.
    destruct (Num.geb (StabilityMetrics.overall_stability m)
                (autoTerminateThreshold cfg)).
    - split; reflexivity.
    - destruct (Num.geb _ (warningThreshold cfg)); split; discriminate. }
  split; [exact Hstable |]. split; [| split; [| split]].
  - intros m cfg. unfold getStabilityStatus. cbv zeta.
    destruct (Num.geb (StabilityMetrics.overall_stability m)
                (autoTerminateThreshold cfg)) eqn:Ha.
    + split; [discriminate |]. intros [H _]. apply geb_false in H. congruence.
    + apply geb_false in Ha.
      destruct (Num.geb _ (warningThreshold cfg)) eqn:Hw.
      * split; [discriminate |]. intros [_ H]. apply geb_false in H. congruence.
      * apply geb_false in Hw. split; auto.
  - intros c H. unfold shouldAutoTerminate in H.
    unfold DecisionEngine.makeTerminationDecision.
    destruct (_ && _); [reflexivity |].
    change (DecisionEngine.stabilityThreshold DecisionEngine.defaultConfig)
      with (autoTerminateThreshold defaultConfig).
    rewrite H. reflexivity.
  - intros c H. apply reason_stability_achieved in H. unfold shouldAutoTerminate.
    apply (proj2 (stabilityAchieved_iff c DecisionEngine.defaultConfig)). exact H.
  - intros currentRound previousRound evaluation Hprev Hs.
    apply (proj1 (Hstable _ _)) in Hs. unfold shouldAutoTerminate, Num.geb in Hs.
    apply Qle_bool_iff in Hs.
    pose proof (overall_stability_without_previous currentRound previousRound
                  evaluation Hprev) as Hcap.
    cbn [autoTerminateThreshold defaultConfig] in Hs. lra.
Qed.

End StatusFacts.

(* ===================================================================== *)
(** ** The further properties at concrete inputs *)
(* ===================================================================== *)

Section MoreInstances.

(** The first round of a run: no previous round, the conservative
    evaluation. *)
Lemma first_round_stability_cap_witness :
  StabilityTracker.plan_of None = None
  /\ (StabilityMetrics.overall_stability
        (StabilityTracker.calculateStability
           (Orchestrator.currentRound Orchestrator.createInitialState) None
           BlindJudge.conservative_default StabilityTracker.defaultConfig) <= 0.75)%Q.
Proof.
  split; [reflexivity |].
  exact (proj1 (proj2 (proj2
           (first_round_stability_cap
              (Orchestrator.currentRound Orchestrator.createInitialState) None
              BlindJudge.conservative_default eq_refl)))).
Defined.

End MoreInstances.
